(** * Message-processing pipeline of the chat feature: a shallow embedding

    The development follows the TypeScript sources:
    - [TokenManager]  (services/TokenManager.ts): token estimates, prompt and
      history optimisation;
    - [LLMService]    (services/LLMService.ts): the streamed generation call
      and [optimizeForTokenLimits];
    - [ChatManager]   (services/ChatManager.ts): the single-flight
      [sendMessage] pipeline, its retry loop and its post-processing.

    Conventions.  A JavaScript string is a [string]: a sequence of code
    units, here the 8-bit ones (Latin-1), which covers every literal the
    code compares against.  A JavaScript number that the code only uses as
    an integer (lengths, token counts, budgets, delays, HTTP statuses) is a
    [Z].  An optional field or an optional parameter is an [option].
    Effects (the busy flag, the conversation, the clock, the sleeps and the
    calls to collaborators) are threaded through an explicit [World] by a
    small state-and-exception monad. *)

From Stdlib Require Import String Ascii List ZArith QArith Qround Lia Bool.
From Stdlib Require Import Sorting.Sorted.
From Stdlib Require Import Numbers.DecimalString.
Import ListNotations.

Local Open Scope string_scope.
Local Open Scope Z_scope.

(** ** JavaScript strings and arrays *)

Module Js.

(** [s.length] *)
Definition len (s : string) : Z := Z.of_nat (String.length s).

Fixpoint drop (n : nat) (s : string) : string :=
  match n, s with
  | O, _ => s
  | S _, EmptyString => EmptyString
  | S k, String _ t => drop k t
  end.

Fixpoint take (n : nat) (s : string) : string :=
  match n, s with
  | O, _ => EmptyString
  | S _, EmptyString => EmptyString
  | S k, String c t => String c (take k t)
  end.

(** An index argument of [substring]: negative values count as 0, values
    past the end as the length. *)
Definition clampIndex (s : string) (i : Z) : nat :=
  Z.to_nat (Z.min (Z.max i 0) (len s)).

(** [s.substring(start)] *)
Definition substringFrom (s : string) (start : Z) : string :=
  drop (clampIndex s start) s.

(** [s.substring(start, end)]: the two clamped indices are swapped when
    [start > end]. *)
Definition substring (s : string) (start stop : Z) : string :=
  let a := clampIndex s start in
  let b := clampIndex s stop in
  take (Nat.max a b - Nat.min a b) (drop (Nat.min a b) s).

(** [s.slice(start)] for a non-negative [start] *)
Definition sliceFrom (s : string) (start : nat) : string := drop start s.

(** [s.startsWith(p)] *)
Fixpoint startsWith (p s : string) : bool :=
  match p, s with
  | EmptyString, _ => true
  | String _ _, EmptyString => false
  | String a p', String b s' => Ascii.eqb a b && startsWith p' s'
  end.

(** [s.includes(p)] *)
Fixpoint includes (p s : string) : bool :=
  startsWith p s ||
  match s with
  | EmptyString => false
  | String _ t => includes p t
  end.


(** White space of [trim] and of the regular-expression class [\s], among
    the 8-bit code units: TAB, LF, VT, FF, CR, SPACE, NBSP. *)
Definition isWhiteSpace (c : ascii) : bool :=
  let n := nat_of_ascii c in
  ((9 <=? n) && (n <=? 13) || (n =? 32) || (n =? 160))%nat.

(** Line terminators of the regular-expression dialect: LF and CR. *)
Definition isLineTerminator (c : ascii) : bool :=
  let n := nat_of_ascii c in
  ((n =? 10) || (n =? 13))%nat.

(** The class [\w]: letters, digits and the underscore. *)
Definition isWordChar (c : ascii) : bool :=
  let n := nat_of_ascii c in
  ((48 <=? n) && (n <=? 57) || (65 <=? n) && (n <=? 90)
   || (97 <=? n) && (n <=? 122) || (n =? 95))%nat.

Fixpoint allWhiteSpace (s : string) : bool :=
  match s with
  | EmptyString => true
  | String c t => isWhiteSpace c && allWhiteSpace t
  end.

(** [s.trim() === ''] *)
Definition trimIsEmpty (s : string) : bool := allWhiteSpace s.

(** [s.trim().length > 0] *)
Definition trimNonEmpty (s : string) : bool := negb (allWhiteSpace s).

(** [c.toLowerCase()] on one code unit: A-Z, and the Latin-1 capitals
    other than the multiplication sign. *)
Definition lowerChar (c : ascii) : ascii :=
  let n := nat_of_ascii c in
  if ((65 <=? n) && (n <=? 90)
      || (192 <=? n) && (n <=? 222) && negb (n =? 215))%nat
  then ascii_of_nat (n + 32) else c.

(** [s.toLowerCase()] *)
Fixpoint toLowerCase (s : string) : string :=
  match s with
  | EmptyString => EmptyString
  | String c t => String (lowerChar c) (toLowerCase t)
  end.

(** [parts.join(sep)] *)
Fixpoint join (sep : string) (parts : list string) : string :=
  match parts with
  | [] => ""
  | [p] => p
  | p :: rest => p ++ sep ++ join sep rest
  end.

(** [' '.repeat(n)] and the like *)
Fixpoint repeat (s : string) (n : nat) : string :=
  match n with
  | O => ""
  | S k => s ++ repeat s k
  end.

(** [String(n)] for an integer *)
Definition ofZ (n : Z) : string := NilZero.string_of_int (Z.to_int n).

(** [s.split('\n')]: never empty; the last element is the text after the
    last newline. *)
Fixpoint splitNewline (s : string) : list string :=
  match s with
  | EmptyString => [""]
  | String c t =>
      if Ascii.eqb c "010"%char then "" :: splitNewline t
      else match splitNewline t with
           | [] => [String c ""]
           | l :: ls => String c l :: ls
           end
  end.

(** [a.slice(start)] on an array, for any integer [start]: a negative
    [start] counts from the end. *)
Definition arraySliceFrom {A} (a : list A) (start : Z) : list A :=
  let n := Z.of_nat (List.length a) in
  let k := if start <? 0 then Z.max (n + start) 0 else Z.min start n in
  skipn (Z.to_nat k) a.

(** [a.push(x)], as the array it leaves *)
Definition push {A} (a : list A) (x : A) : list A := List.app a [x].

(** [a.slice(0, -1)] *)
Definition arrayInit {A} (a : list A) : list A := removelast a.

(** [x || y] on numbers where [x] may be missing: 0 and [undefined] are
    falsy. *)
Definition orNumber (x : option Z) (y : Z) : Z :=
  match x with
  | Some v => if v =? 0 then y else v
  | None => y
  end.

(** [Math.ceil(n / d)] for integers [n] and [d > 0], computed over the
    rationals. *)
Definition ceilDiv (n : Z) (d : positive) : Z := Qceiling (n # d).

End Js.

(** ** Data model (types/index.ts) *)

Inductive Role := user | assistant.

Inductive Phase := requirements | design | tasks.

Record GitInfo := {
  branch : string;
  hasChanges : bool;
  recentCommits : option (list string)
}.

(** [SpecInfo]; its field [context] is [specText] here. *)
Record SpecInfo := {
  currentSpec : option string;
  phase : option Phase;
  specText : option string
}.

Record ChatContext := {
  activeFile : option string;
  selectedText : option string;
  workspaceFiles : option (list string);
  gitStatus : option GitInfo;
  specContext : option SpecInfo
}.

(** [truncated] is the extra property that [truncateMessage] attaches. *)
Record MessageMetadata := {
  tokenCount : option Z;
  processingTime : option Z;
  model : option string;
  truncated : option bool
}.

Record ChatMessage := {
  id : string;
  role : Role;
  content : string;
  timestamp : Z;
  context : option ChatContext;
  metadata : option MessageMetadata
}.

Inductive ErrorType := network | auth | validation | system.

(** [ErrorInfo]; its optional field [code] is [errorCode] here. *)
Record ErrorInfo := {
  type : ErrorType;
  message : string;
  errorCode : option string;
  retryable : bool
}.

Record ValidationResult := {
  isValid : bool;
  errors : list string;
  warnings : list string
}.

(** [ChatAction], with one payload shape per variant the code builds. *)
Inductive ActionPayload :=
| FilePayload (code language : string)
| EmptyPayload.

Inductive ActionType := create_file | modify_file | run_command | create_spec.

Record ChatAction := {
  actionType : ActionType;
  payload : ActionPayload;
  description : string
}.

(** [ChatResponse]; its field [message] is [responseMessage] here, the
    name [message] being that of the field of [ErrorInfo]. *)
Record ChatResponse := {
  responseMessage : ChatMessage;
  suggestions : option (list string);
  actions : option (list ChatAction);
  error : option ErrorInfo
}.

(** A thrown value: an [Error] object with its name and message, or
    anything else. *)
Inductive Thrown :=
| ErrorObj (name msg : string)
| NotAnError.

Definition newError (msg : string) : Thrown := ErrorObj "Error" msg.

(** ** TokenManager *)

Module TokenManager.

Definition CHARS_PER_TOKEN : positive := 4.

(** [estimateTokens(text)] *)
Definition estimateTokens (text : string) : Z :=
  match text with
  | EmptyString => 0
  | _ => Js.ceilDiv (Js.len text) CHARS_PER_TOKEN
  end.

(** [calculateMessageTokens(message)] *)
Definition calculateMessageTokens (message : ChatMessage) : Z :=
  let tokens := 0 in
  (* base tokens for the message structure *)
  let tokens := tokens + 4 in
  let tokens := tokens + estimateTokens (content message) in
  match context message with
  | None => tokens
  | Some ctx =>
      let tokens :=
        match activeFile ctx with
        | Some f => if String.eqb f "" then tokens else tokens + estimateTokens f
        | None => tokens
        end in
      let tokens :=
        match selectedText ctx with
        | Some t => if String.eqb t "" then tokens else tokens + estimateTokens t
        | None => tokens
        end in
      match workspaceFiles ctx with
      | Some files =>
          tokens + fold_left (fun sum file => sum + estimateTokens file) files 0
      | None => tokens
      end
  end.

(** *** The patterns of [removeNonEssentialContent]

    Each regular expression of the source is written out as the scan it
    performs.  With the [m] flag, [^] and [$] match at the line
    terminators, and [.] matches anything but a line terminator. *)

(** The text cut at its line terminators: every line with the terminator
    that ends it; the last line has none. *)
Fixpoint linesOf (s : string) : list (string * option ascii) :=
  match s with
  | EmptyString => [("", None)]
  | String c t =>
      if Js.isLineTerminator c then ("", Some c) :: linesOf t
      else match linesOf t with
           | [] => [(String c "", None)]
           | (l, e) :: ls => (String c l, e) :: ls
           end
  end.

Fixpoint unlines (ls : list (string * option ascii)) : string :=
  match ls with
  | [] => ""
  | (l, Some c) :: rest => l ++ String c (unlines rest)
  | (l, None) :: rest => l ++ unlines rest
  end.

Definition isBlank (c : ascii) : bool :=
  Ascii.eqb c " "%char || Ascii.eqb c "009"%char.

Fixpoint dropBlanks (s : string) : string :=
  match s with
  | String c t => if isBlank c then dropBlanks t else s
  | EmptyString => s
  end.

(** A line that [/^[ \t]*(?:#|\/\/).*$/gm] matches, which it then does
    from its first to its last character. *)
Definition isCommentLine (l : string) : bool :=
  let r := dropBlanks l in
  Js.startsWith "#" r || Js.startsWith "//" r.

Fixpoint endsWithSemicolon (s : string) : bool :=
  match s with
  | EmptyString => false
  | String c EmptyString => Ascii.eqb c ";"%char
  | String _ t => endsWithSemicolon t
  end.

(** A line that [/^import.*?;$/gm] matches (as a whole): it starts with
    [import] and the rest ends with a semicolon. *)
Definition isImportLine (l : string) : bool :=
  Js.startsWith "import" l && endsWithSemicolon (Js.drop 6 l).

(** [s.match(re)] for a whole-line pattern: the matched lines, or [None]
    ([null]) when there is none. *)
Definition matchLines (isMatch : string -> bool) (s : string)
  : option (list string) :=
  match filter isMatch (map fst (linesOf s)) with
  | [] => None
  | ms => Some ms
  end.

(** [s.replace(re, '')] for a whole-line pattern. *)
Definition removeLines (isMatch : string -> bool) (s : string) : string :=
  unlines (map (fun le => if isMatch (fst le) then ("", snd le) else le)
               (linesOf s)).

Definition isNewline (c : ascii) : bool := Ascii.eqb c "010"%char.

Definition countNewlines (run : list ascii) : nat :=
  List.length (filter isNewline run).

(** The run after its last newline, for a run given most recent first. *)
Fixpoint afterLastNewline (revRun : list ascii) (acc : string) : string :=
  match revRun with
  | [] => acc
  | c :: r => if isNewline c then acc else afterLastNewline r (String c acc)
  end.

Fixpoint stringOfRev (revRun : list ascii) (acc : string) : string :=
  match revRun with
  | [] => acc
  | c :: r => stringOfRev r (String c acc)
  end.

(** What a white-space run that starts with a newline becomes under
    [/\n\s*\n\s*\n/g -> '\n\n']: [revRun] is the run after its first
    newline, most recent first.  With two more newlines in it, the match
    reaches from the first newline to the last one. *)
Definition flushRun (revRun : list ascii) : string :=
  if (2 <=? countNewlines revRun)%nat
  then String "010"%char (String "010"%char (afterLastNewline revRun ""))
  else String "010"%char (stringOfRev revRun "").

(** [s.replace(/\n\s*\n\s*\n/g, '\n\n')]; [pending] is the white-space
    run being read, when one that starts with a newline is open. *)
Fixpoint collapseBlankLinesFrom (pending : option (list ascii)) (s : string)
  : string :=
  match s with
  | EmptyString =>
      match pending with
      | None => ""
      | Some run => flushRun run
      end
  | String c t =>
      match pending with
      | None =>
          if isNewline c then collapseBlankLinesFrom (Some []) t
          else String c (collapseBlankLinesFrom None t)
      | Some run =>
          if Js.isWhiteSpace c then collapseBlankLinesFrom (Some (c :: run)) t
          else flushRun run ++ String c (collapseBlankLinesFrom None t)
      end
  end.

Definition collapseBlankLines (s : string) : string :=
  collapseBlankLinesFrom None s.

(** [s.replace(/[ \t]+/g, ' ')]; [inRun] says that the previous character
    was a blank. *)
Fixpoint squeezeBlanksFrom (inRun : bool) (s : string) : string :=
  match s with
  | EmptyString => ""
  | String c t =>
      if isBlank c
      then if inRun then squeezeBlanksFrom true t
           else String " "%char (squeezeBlanksFrom true t)
      else String c (squeezeBlanksFrom false t)
  end.

Definition squeezeBlanks (s : string) : string := squeezeBlanksFrom false s.

(** *** The optimiser *)

Record OptimizationResult := {
  optimizedPrompt : string;
  removedContent : list string;
  tokensSaved : Z
}.

(** An instance: the two constructor arguments, and the default history
    budget [Math.floor(contextWindow * MAX_CONTEXT_RATIO)], a
    double-precision product that is fixed with the instance. *)
Record t := {
  maxTokens : Z;
  contextWindow : Z;
  maxContextTokens : Z
}.

Definition sumTokens (texts : list string) : Z :=
  fold_left (fun sum text => sum + estimateTokens text) texts 0.

(** [removeNonEssentialContent(context, tokensToSave, removedContent)]: the
    optimised text, and [removedContent] with what was pushed to it. *)
Definition removeNonEssentialContent
  (context : string) (tokensToSave : Z) (removedContent : list string)
  : string * list string :=
  let optimized := context in
  let tokensSaved := 0 in
  (* comments: lines starting with # or // *)
  let '(optimized, tokensSaved, removedContent) :=
    match matchLines isCommentLine optimized with
    | Some comments =>
        if tokensSaved <? tokensToSave then
          (removeLines isCommentLine optimized,
           tokensSaved + sumTokens comments,
           Js.push removedContent
             ("Removed " ++ Js.ofZ (Z.of_nat (List.length comments))
                ++ " comment lines"))
        else (optimized, tokensSaved, removedContent)
    | None => (optimized, tokensSaved, removedContent)
    end in
  (* excessive white space *)
  let '(optimized, tokensSaved, removedContent) :=
    if tokensSaved <? tokensToSave then
      let beforeWhitespace := Js.len optimized in
      let optimized := collapseBlankLines optimized in
      let optimized := squeezeBlanks optimized in
      let afterWhitespace := Js.len optimized in
      let whitespaceTokens :=
        estimateTokens
          (Js.repeat " " (Z.to_nat (beforeWhitespace - afterWhitespace))) in
      (optimized, tokensSaved + whitespaceTokens,
       if beforeWhitespace =? afterWhitespace then removedContent
       else Js.push removedContent "Compressed whitespace")
    else (optimized, tokensSaved, removedContent) in
  (* import statements *)
  if tokensSaved <? tokensToSave then
    match matchLines isImportLine optimized with
    | Some imports =>
        (removeLines isImportLine optimized,
         Js.push removedContent
           ("Removed " ++ Js.ofZ (Z.of_nat (List.length imports))
              ++ " import statements"))
    | None => (optimized, removedContent)
    end
  else (optimized, removedContent).

(** The locals of [optimizePrompt] that its strategies update. *)
Record Reduction := {
  optimizedContext : string;
  removed : list string;
  tokensToSave : Z
}.

(** Strategy 1 of [optimizePrompt]: the block under
    [if (tokensToSave > 0)] that truncates the context. *)
Definition truncateContext (r : Reduction) : Reduction :=
  if tokensToSave r >? 0 then
    let contextTokens := estimateTokens (optimizedContext r) in
    if contextTokens >? tokensToSave r then
      let targetContextLength :=
        (contextTokens - tokensToSave r) * Z.pos CHARS_PER_TOKEN in
      let truncated :=
        Js.substringFrom (optimizedContext r)
          (contextTokens - targetContextLength) in
      {| optimizedContext := truncated;
         removed := Js.push (removed r)
           ("Truncated "
              ++ Js.ofZ (Js.len (optimizedContext r) - Js.len truncated)
              ++ " characters from context");
         tokensToSave :=
           tokensToSave r - (contextTokens - estimateTokens truncated) |}
    else r
  else r.

(** Strategy 2 of [optimizePrompt]: the block that calls
    [removeNonEssentialContent]. *)
Definition removeLessImportant (r : Reduction) : Reduction :=
  if tokensToSave r >? 0 then
    let '(optimized, removedContent) :=
      removeNonEssentialContent (optimizedContext r) (tokensToSave r)
        (removed r) in
    {| optimizedContext := optimized;
       removed := removedContent;
       tokensToSave := tokensToSave r |}
  else r.

(** [optimizePrompt(prompt, context, maxTokens?)] *)
Definition optimizePrompt
  (tm : t) (prompt context : string) (maxTokensArg : option Z)
  : OptimizationResult :=
  let targetTokens := Js.orNumber maxTokensArg (maxTokens tm) in
  let currentTokens := estimateTokens (prompt ++ context) in
  if currentTokens <=? targetTokens then
    {| optimizedPrompt := prompt; removedContent := []; tokensSaved := 0 |}
  else
    let r := {| optimizedContext := context;
                removed := [];
                tokensToSave := currentTokens - targetTokens |} in
    let r := truncateContext r in
    let r := removeLessImportant r in
    let finalTokens := estimateTokens (prompt ++ optimizedContext r) in
    {| optimizedPrompt := prompt;
       removedContent := removed r;
       tokensSaved := currentTokens - finalTokens |}.

(** [{...message.metadata, truncated: true}] *)
Definition markTruncated (m : option MessageMetadata) : MessageMetadata :=
  match m with
  | Some md =>
      {| tokenCount := tokenCount md;
         processingTime := processingTime md;
         model := model md;
         truncated := Some true |}
  | None =>
      {| tokenCount := None; processingTime := None; model := None;
         truncated := Some true |}
  end.

(** [truncateMessage(message, maxTokens)], [None] for [null] *)
Definition truncateMessage (message : ChatMessage) (maxTokens : Z)
  : option ChatMessage :=
  let baseTokens := 10 in
  let availableContentTokens := maxTokens - baseTokens in
  if availableContentTokens <? 20 then None
  else
    let maxContentLength := availableContentTokens * Z.pos CHARS_PER_TOKEN in
    if Js.len (content message) <=? maxContentLength then Some message
    else
      let truncatedContent :=
        Js.substring (content message) 0 (maxContentLength - 20)
          ++ "... [truncated]" in
      Some {| id := id message;
              role := role message;
              content := truncatedContent;
              timestamp := timestamp message;
              context := context message;
              metadata := Some (markTruncated (metadata message)) |}.

(** The loop of [optimizeConversationHistory], from the most recent of the
    remaining messages backwards: [older] lists [remainingMessages] from its
    last element to its first, and [unshift] is a cons. *)
Fixpoint keepRecent (maxTokens : Z) (older : list ChatMessage)
  (totalTokens : Z) (optimizedMessages : list ChatMessage)
  : list ChatMessage :=
  match older with
  | [] => optimizedMessages
  | message :: rest =>
      let messageTokens := calculateMessageTokens message in
      if totalTokens + messageTokens <=? maxTokens then
        keepRecent maxTokens rest (totalTokens + messageTokens)
          (message :: optimizedMessages)
      else
        (* try to include a truncated version of this message, then stop *)
        let availableTokens := maxTokens - totalTokens in
        if availableTokens >? 50 then
          match truncateMessage message availableTokens with
          | Some truncatedMessage => truncatedMessage :: optimizedMessages
          | None => optimizedMessages
          end
        else optimizedMessages
  end.

(** [optimizeConversationHistory(messages, maxHistoryTokens?)] *)
Definition optimizeConversationHistory
  (tm : t) (messages : list ChatMessage) (maxHistoryTokens : option Z)
  : list ChatMessage :=
  let maxTokens := Js.orNumber maxHistoryTokens (maxContextTokens tm) in
  match rev messages with
  | [] => messages
  | lastMessage :: older =>
      (* always keep the last message (the current user input) *)
      keepRecent maxTokens older (calculateMessageTokens lastMessage)
        [lastMessage]
  end.

End TokenManager.

(** ** Results of fallible calls *)

Inductive Outcome (A : Type) :=
| Returned (a : A)
| Threw (e : Thrown).

Arguments Returned {A} a.
Arguments Threw {A} e.

(** ** LLMService *)

Module LLMService.

Record t := {
  tokenManager : TokenManager.t
}.

(** One [reader.read()] that is not the end of the stream: a chunk, or a
    rejection.  A chunk is given as the text that
    [decoder.decode(value, { stream: true })] adds to the buffer: the
    streaming decoder keeps an incomplete character for the next read, so
    that the decoded chunks make up the decoded payload. *)
Inductive Read :=
| Chunk (value : string)
| ReadError (e : Thrown).

(** What [fetch] resolved to.  [body] lists the reads the reader will
    deliver before it reports [done]; [None] is a response without body. *)
Record Response := {
  ok : bool;
  status : Z;
  statusText : string;
  body : option (list Read)
}.

(** A finished run of the generator: the fragments it yielded, in order,
    how it ended ([None]: it completed), and how many times it called
    [reader.releaseLock()]. *)
Record Generated := {
  yielded : list string;
  failure : option Thrown;
  released : nat
}.

(** [createLLMError(error)] *)
Definition createLLMError (error : Thrown) : Thrown :=
  match error with
  | ErrorObj name msg =>
      if String.eqb name "AbortError" then
        newError "Request timeout - the LLM service took too long to respond"
      else if Js.includes "401" msg then
        newError "Authentication failed - please check your API key"
      else if Js.includes "429" msg then
        newError "Rate limit exceeded - please try again later"
      else if Js.includes "500" msg then
        newError "LLM service is temporarily unavailable"
      else error
  | NotAnError =>
      newError "Unknown error occurred while communicating with LLM service"
  end.

Section Stream.

(** The runtime's JSON reader followed by the property path of the source:
    [deltaContent data] is [Some c] when [JSON.parse(data)] succeeds and
    [parsed.choices?.[0]?.delta?.content] is the truthy value [c], and
    [None] when the parse throws (a warning is logged) or the value is
    falsy. *)
Variable deltaContent : string -> option string.

(** The [for (const line of lines)] loop: the fragments it yields, and
    whether it left through [return] on the sentinel. *)
Fixpoint processLines (lines : list string) : list string * bool :=
  match lines with
  | [] => ([], false)
  | line :: rest =>
      if Js.trimIsEmpty line then processLines rest
      else if Js.startsWith "data: " line then
        let data := Js.sliceFrom line 6 in
        if String.eqb data "[DONE]" then ([], true)
        else
          let '(more, done) := processLines rest in
          match deltaContent data with
          | Some fragment => (fragment :: more, done)
          | None => (more, done)
          end
      else processLines rest
  end.

(** The [while (true)] loop over the reads, with the text held back in
    [buffer]. *)
Fixpoint readLoop (reads : list Read) (buffer : string)
  : list string * option Thrown :=
  match reads with
  | [] => ([], None)
  | ReadError e :: _ => ([], Some e)
  | Chunk value :: rest =>
      let buffer := buffer ++ value in
      let lines := Js.splitNewline buffer in
      (* buffer = lines.pop() || '' *)
      let buffer := last lines "" in
      let lines := removelast lines in
      let '(fragments, done) := processLines lines in
      if done then (fragments, None)
      else
        let '(more, failure) := readLoop rest buffer in
        (List.app fragments more, failure)
  end.

(** [generateResponse(prompt, context)], given what the request resolved
    or rejected with. *)
Definition generateResponse (fetched : Outcome Response) : Generated :=
  match fetched with
  | Threw e =>
      {| yielded := []; failure := Some (createLLMError e); released := 0 |}
  | Returned response =>
      if negb (ok response) then
        {| yielded := [];
           failure := Some (createLLMError (newError
             ("HTTP " ++ Js.ofZ (status response) ++ ": "
                ++ statusText response)));
           released := 0 |}
      else
        match body response with
        | None =>
            {| yielded := [];
               failure := Some (createLLMError
                 (newError "No response body available"));
               released := 0 |}
        | Some reads =>
            let '(fragments, failure) := readLoop reads "" in
            {| yielded := fragments;
               failure := option_map createLLMError failure;
               released := 1 |}
        end
  end.

End Stream.

Record TokenInfo := {
  original : Z;
  optimized : Z;
  saved : Z
}.

Record Optimized := {
  optimizedPrompt : string;
  optimizedContext : string;
  optimizedHistory : list ChatMessage;
  tokenInfo : TokenInfo
}.

Definition historyTokens (tm : TokenManager.t) (history : list ChatMessage) : Z :=
  fold_left (fun sum msg => sum + TokenManager.calculateMessageTokens msg)
    history 0.

(** [optimizeForTokenLimits(prompt, context, history)] *)
Definition optimizeForTokenLimits
  (svc : t) (prompt context : string) (history : list ChatMessage)
  : Optimized :=
  let tm := tokenManager svc in
  (* optimise the conversation history first *)
  let optimizedHistory :=
    TokenManager.optimizeConversationHistory tm history None in
  (* optimise prompt and context *)
  let optimization := TokenManager.optimizePrompt tm prompt context None in
  let originalTokens :=
    TokenManager.estimateTokens (prompt ++ context)
    + historyTokens tm history in
  let optimizedTokens :=
    TokenManager.estimateTokens
      (TokenManager.optimizedPrompt optimization ++ context)
    + historyTokens tm optimizedHistory in
  {| optimizedPrompt := TokenManager.optimizedPrompt optimization;
     optimizedContext := context;
     optimizedHistory := optimizedHistory;
     tokenInfo := {| original := originalTokens;
                     optimized := optimizedTokens;
                     saved := originalTokens - optimizedTokens |} |}.

(** [estimateTokens(text)] *)
Definition estimateTokens (svc : t) (text : string) : Z :=
  TokenManager.estimateTokens text.

End LLMService.

(** ** The world of the pipeline, and its monad *)

(** [ConversationState], with the fields the pipeline reads or writes. *)
Record ConversationState := {
  messages : list ChatMessage;
  lastModified : Z;
  messageCount : Z;
  totalTokens : Z
}.

(** The mutable state around one [ChatManager]: its busy flag, the current
    conversation of its state manager, a logical clock that advances at
    every reading of the time, every random draw and every call to a
    collaborator, the delays awaited so far (oldest first), and the number
    of generation calls made on the LLM service. *)
Record World := {
  isProcessing : bool;
  currentConversation : option ConversationState;
  clock : nat;
  sleeps : list Z;
  llmCalls : nat
}.

Definition M (A : Type) : Type := World -> Outcome A * World.

Definition ret {A} (a : A) : M A := fun w => (Returned a, w).

Definition throw {A} (e : Thrown) : M A := fun w => (Threw e, w).

Definition bind {A B} (c : M A) (k : A -> M B) : M B :=
  fun w =>
    match c w with
    | (Returned a, w') => k a w'
    | (Threw e, w') => (Threw e, w')
    end.

Notation "x <- c ;; k" := (bind c (fun x => k))
  (at level 61, c at next level, right associativity).
Notation "c ;;; k" := (bind c (fun _ => k))
  (at level 61, right associativity).

(** [try { body } catch (e) { handler e }] *)
Definition tryCatch {A} (body : M A) (handler : Thrown -> M A) : M A :=
  fun w =>
    match body w with
    | (Returned a, w') => (Returned a, w')
    | (Threw e, w') => handler e w'
    end.

(** [try { body } finally { cleanup }]: the cleanup runs on every exit; the
    outcome is the body's unless the cleanup throws. *)
Definition tryFinally {A} (body : M A) (cleanup : M unit) : M A :=
  fun w =>
    match body w with
    | (o, w') =>
        match cleanup w' with
        | (Returned _, w'') => (o, w'')
        | (Threw e, w'') => (Threw e, w'')
        end
    end.

Definition gets {A} (f : World -> A) : M A := fun w => (Returned (f w), w).

Definition modify (f : World -> World) : M unit := fun w => (Returned tt, f w).

Definition tick (w : World) : World :=
  {| isProcessing := isProcessing w;
     currentConversation := currentConversation w;
     clock := S (clock w);
     sleeps := sleeps w;
     llmCalls := llmCalls w |}.

Definition setProcessing (b : bool) (w : World) : World :=
  {| isProcessing := b;
     currentConversation := currentConversation w;
     clock := clock w;
     sleeps := sleeps w;
     llmCalls := llmCalls w |}.

Definition setConversation (c : option ConversationState) (w : World) : World :=
  {| isProcessing := isProcessing w;
     currentConversation := c;
     clock := clock w;
     sleeps := sleeps w;
     llmCalls := llmCalls w |}.

Definition addSleep (ms : Z) (w : World) : World :=
  {| isProcessing := isProcessing w;
     currentConversation := currentConversation w;
     clock := clock w;
     sleeps := Js.push (sleeps w) ms;
     llmCalls := llmCalls w |}.

Definition countLlmCall (w : World) : World :=
  {| isProcessing := isProcessing w;
     currentConversation := currentConversation w;
     clock := clock w;
     sleeps := sleeps w;
     llmCalls := S (llmCalls w) |}.

(** A call to something outside the pipeline whose answer may depend on
    when it is asked. *)
Definition call {A} (f : nat -> Outcome A) : M A :=
  fun w => (f (clock w), tick w).

Definition observe {A} (f : nat -> A) : M A :=
  fun w => (Returned (f (clock w)), tick w).

(** ** Collaborators *)

(** What the pipeline's collaborators answer.  The number given to each is
    the logical time of the call, so that an answer may change from one
    call to the next; the generation call is given instead the number of
    generation calls made before it.  A finished generation is the list of
    fragments it yielded and what it threw, if anything. *)
Record Env := {
  dateNow : nat -> Z;
  randomSuffix : nat -> string;
  validateRequest : string -> nat -> Outcome ValidationResult;
  sanitizeResponse : string -> nat -> Outcome string;
  getCurrentContext : nat -> Outcome ChatContext;
  getRelevantContext : string -> nat -> Outcome string;
  optimizeForTokenLimits :
    string -> string -> list ChatMessage -> nat -> Outcome LLMService.Optimized;
  generateResponse : nat -> string -> string -> list string * option Thrown;
  estimateTokens : string -> nat -> Outcome Z;
  storageSave : nat -> bool
}.

(** ** Message construction (utils/messageUtils.ts) *)

Section Messages.

Variable env : Env.

(** [generateMessageId()] *)
Definition generateMessageId : M string :=
  now <- observe (dateNow env) ;;
  rnd <- observe (randomSuffix env) ;;
  ret ("msg_" ++ Js.ofZ now ++ "_" ++ rnd).

Definition createMessage (r : Role) (text : string) : M ChatMessage :=
  i <- generateMessageId ;;
  now <- observe (dateNow env) ;;
  ret {| id := i; role := r; content := text; timestamp := now;
         context := None; metadata := None |}.

(** [createUserMessage(content)] *)
Definition createUserMessage (text : string) : M ChatMessage :=
  createMessage user text.

(** [createAssistantMessage(content)] *)
Definition createAssistantMessage (text : string) : M ChatMessage :=
  createMessage assistant text.

End Messages.

(** ** ConversationStateManager *)

Module ConversationStateManager.

Section Manager.

Variable env : Env.

(** [config.maxHistoryLength]; [config.autoSaveHistory] is [true] as
    [ChatManager] builds it. *)
Variable maxHistoryLength : Z.

(** [saveConversation()] *)
Definition saveConversation : M unit :=
  conv <- gets currentConversation ;;
  match conv with
  | None => throw (newError "No conversation to save")
  | Some _ =>
      saved <- observe (storageSave env) ;;
      if saved then ret tt
      else throw (newError "Failed to save conversation")
  end.

(** [addMessage(message)]; the automatic save is started and its failure
    is only logged. *)
Definition addMessage (message : ChatMessage) : M unit :=
  conv <- gets currentConversation ;;
  match conv with
  | None => throw (newError "No active conversation")
  | Some c =>
      now <- observe (dateNow env) ;;
      let msgs := Js.push (messages c) message in
      let tokens :=
        match metadata message with
        | Some md =>
            match tokenCount md with
            | Some n => totalTokens c + n
            | None => totalTokens c
            end
        | None => totalTokens c
        end in
      modify (setConversation (Some
        {| messages := msgs;
           lastModified := now;
           messageCount := Z.of_nat (List.length msgs);
           totalTokens := tokens |})) ;;;
      tryCatch saveConversation (fun _ => ret tt)
  end.

(** [getMessages()] *)
Definition getMessages : M (list ChatMessage) :=
  conv <- gets currentConversation ;;
  ret match conv with
      | Some c => messages c
      | None => []
      end.

(** [trimConversationHistory()] *)
Definition trimConversationHistory : M unit :=
  conv <- gets currentConversation ;;
  match conv with
  | None => ret tt
  | Some c =>
      let limit := maxHistoryLength in
      if Z.of_nat (List.length (messages c)) <=? limit then ret tt
      else
        (* keep the most recent messages *)
        let trimmedMessages := Js.arraySliceFrom (messages c) (- limit) in
        now <- observe (dateNow env) ;;
        modify (setConversation (Some
          {| messages := trimmedMessages;
             lastModified := now;
             messageCount := Z.of_nat (List.length trimmedMessages);
             totalTokens := totalTokens c |})) ;;;
        saveConversation
  end.

(** [clearCurrentConversation()] *)
Definition clearCurrentConversation : M unit :=
  conv <- gets currentConversation ;;
  match conv with
  | Some _ =>
      now <- observe (dateNow env) ;;
      modify (setConversation (Some
        {| messages := [];
           lastModified := now;
           messageCount := 0;
           totalTokens := 0 |}))
  | None => ret tt
  end.

End Manager.

End ConversationStateManager.

(** ** ChatManager *)

Module ChatManager.

Record ChatManagerConfig := {
  maxHistoryLength : Z;
  enableContextGathering : bool;
  enableSafetyFilter : bool;
  retryAttempts : Z;
  retryDelay : Z
}.

(** The defaults of the constructor. *)
Definition defaultConfig : ChatManagerConfig :=
  {| maxHistoryLength := 50;
     enableContextGathering := true;
     enableSafetyFilter := true;
     retryAttempts := 3;
     retryDelay := 1000 |}.

(** *** Post-processing *)

(** [generateSuggestions(assistantMessage)] *)
Definition generateSuggestions (assistantMessage : ChatMessage) : list string :=
  let suggestions := [] in
  let text := Js.toLowerCase (content assistantMessage) in
  let suggestions :=
    if Js.includes "code" text || Js.includes "function" text then
      List.app suggestions
        ["Explain this code"; "Add error handling"; "Write tests for this"]
    else suggestions in
  let suggestions :=
    if Js.includes "error" text || Js.includes "bug" text then
      List.app suggestions
        ["How can I debug this?"; "Show me the stack trace";
         "What are common causes?"]
    else suggestions in
  let suggestions :=
    if Js.includes "spec" text || Js.includes "requirements" text then
      List.app suggestions
        ["Create a new spec"; "Update the design"; "Generate tasks"]
    else suggestions in
  let suggestions :=
    if (List.length suggestions <? 3)%nat then
      List.app suggestions
        ["Can you elaborate?"; "Show me an example";
         "What are the alternatives?"]
    else suggestions in
  firstn 3 suggestions.

(** One match of [codeBlockRegex]: [match.index], the first group
    ([None] when it did not take part) and the second group. *)
Record CodeBlock := {
  index : nat;
  language : option string;
  code : string
}.

(** The longest prefix of word characters, and the rest. *)
Fixpoint spanWord (s : string) : string * string :=
  match s with
  | String c t =>
      if Js.isWordChar c then
        let '(w, r) := spanWord t in (String c w, r)
      else ("", s)
  | EmptyString => ("", "")
  end.

(** The shortest text up to a closing fence: what the lazy group
    [([\s\S]*?)] takes before the three backquotes that follow it. *)
Fixpoint untilFence (s : string) : option string :=
  if Js.startsWith "```" s then Some ""
  else match s with
       | EmptyString => None
       | String c t => option_map (String c) (untilFence t)
       end.

(** [/```(\w+)?\n([\s\S]*?)```/] tried at the start of [s]: the two groups
    and the length of the match.  After the opening fence the greedy
    [(\w+)?] takes every word character, since a newline has to follow. *)
Definition matchAt (s : string) : option (option string * string * nat) :=
  if Js.startsWith "```" s then
    let '(w, r) := spanWord (Js.drop 3 s) in
    match r with
    | String c body =>
        if Ascii.eqb c "010"%char then
          match untilFence body with
          | Some block =>
              Some (if String.eqb w "" then None else Some w,
                    block,
                    (3 + String.length w + 1 + String.length block + 3)%nat)
          | None => None
          end
        else None
    | EmptyString => None
    end
  else None.

(** The successive results of [codeBlockRegex.exec(content)] until it
    answers [null]: the text is scanned from [lastIndex]; [skip] is the
    number of characters left before [lastIndex], [pos] the position of
    [s] in the content. *)
Fixpoint execAll (skip pos : nat) (s : string) : list CodeBlock :=
  match s with
  | EmptyString => []
  | String _ t =>
      match skip with
      | S k => execAll k (S pos) t
      | O =>
          match matchAt s with
          | Some (lang, block, n) =>
              {| index := pos; language := lang; code := block |}
                :: execAll (n - 1) (S pos) t
          | None => execAll 0 (S pos) t
          end
      end
  end.

Definition createFileAction (lang block : string) : ChatAction :=
  {| actionType := create_file;
     payload := FilePayload block lang;
     description := "Create " ++ lang ++ " file with this code" |}.

Definition createSpecAction : ChatAction :=
  {| actionType := create_spec;
     payload := EmptyPayload;
     description := "Create a new feature spec" |}.

(** The body of the [while] loop of [extractActions], over the matches. *)
Fixpoint pushCodeBlocks (matches : list CodeBlock) (actions : list ChatAction)
  : list ChatAction :=
  match matches with
  | [] => actions
  | m :: rest =>
      let actions :=
        match language m with
        | Some lang =>
            (* only substantial code blocks; a language is a truthy string *)
            if (Js.len (code m) >? 50) && negb (String.eqb lang "") then
              Js.push actions (createFileAction lang (code m))
            else actions
        | None => actions
        end in
      pushCodeBlocks rest actions
  end.

(** [extractActions(assistantMessage)] *)
Definition extractActions (assistantMessage : ChatMessage) : list ChatAction :=
  let actions := [] in
  let text := content assistantMessage in
  let actions := pushCodeBlocks (execAll 0 0 text) actions in
  (* spec creation mentions *)
  if Js.includes "create" (Js.toLowerCase text)
     && Js.includes "spec" (Js.toLowerCase text)
  then Js.push actions createSpecAction
  else actions.

(** *** The pipeline *)

Section Pipeline.

Variable env : Env.
Variable config : ChatManagerConfig.

Definition stateAddMessage : ChatMessage -> M unit :=
  ConversationStateManager.addMessage env.

Definition stateTrimConversationHistory : M unit :=
  ConversationStateManager.trimConversationHistory env (maxHistoryLength config).

(** [delay(ms)] *)
Definition delay (ms : Z) : M unit := modify (addSleep ms).

(** [createErrorResponse(message, type = 'system')] *)
Definition createErrorResponse (msg : string) (ty : ErrorType) : M ChatResponse :=
  errorMessage <-
    createAssistantMessage env
      ("I apologize, but I encountered an error: " ++ msg) ;;
  ret {| responseMessage := errorMessage;
         suggestions := None;
         actions := None;
         error := Some {| type := ty;
                          message := msg;
                          errorCode := None;
                          retryable :=
                            match ty with
                            | network | system => true
                            | _ => false
                            end |} |}.

(** [getRecentHistory(count = 10)] *)
Definition getRecentHistory (count : Z) : M (list ChatMessage) :=
  (* the current message is not part of the history context *)
  msgs <- ConversationStateManager.getMessages ;;
  ret (Js.arraySliceFrom (Js.arrayInit msgs) (- count)).

Definition roleName (r : Role) : string :=
  match r with
  | user => "user"
  | assistant => "assistant"
  end.

Definition truthyString (s : option string) : option string :=
  match s with
  | Some v => if String.eqb v "" then None else Some v
  | None => None
  end.

(** [buildContextString(userMessage)] *)
Definition buildContextString (userMessage : ChatMessage) : M string :=
  let contextSections :=
    ["You are Kiro, an AI assistant integrated into the Kiro IDE.";
     "You help developers with code generation, debugging, explanations, and project planning.";
     ""] in
  (* workspace context *)
  let contextSections :=
    match context userMessage with
    | Some ctx =>
        let sections :=
          match truthyString (activeFile ctx) with
          | Some f => Js.push contextSections ("**Active File:** " ++ f)
          | None => contextSections
          end in
        let sections :=
          match truthyString (selectedText ctx) with
          | Some t =>
              List.app sections ["**Selected Text:**"; "```"; t; "```"; ""]
          | None => sections
          end in
        match gitStatus ctx with
        | Some g =>
            Js.push sections
              ("**Git Status:** Branch: " ++ branch g ++ ", Changes: "
                 ++ (if hasChanges g then "Yes" else "No"))
        | None => sections
        end
    | None => contextSections
    end in
  (* spec context, when relevant *)
  contextSections <-
    tryCatch
      (relevantContext <- call (getRelevantContext env (content userMessage)) ;;
       ret (if Js.trimNonEmpty relevantContext then
              List.app contextSections
                ["**Project Context:**"; relevantContext; ""]
            else contextSections))
      (fun _ => ret contextSections) ;;
  (* conversation history context *)
  recentHistory <- getRecentHistory 5 ;;
  let contextSections :=
    match recentHistory with
    | [] => contextSections
    | _ =>
        List.app
          (List.app (Js.push contextSections "**Recent Conversation:**")
             (map (fun msg =>
                     roleName (role msg) ++ ": "
                       ++ Js.substring (content msg) 0 200
                       ++ (if Js.len (content msg) >? 200 then "..." else ""))
                  recentHistory))
          [""]
    end in
  ret (Js.join (String "010"%char "") contextSections).

(** [error instanceof Error ? error.message : fallback] *)
Definition messageOr (fallback : string) (error : Thrown) : string :=
  match error with
  | ErrorObj _ msg => msg
  | NotAnError => fallback
  end.

(** The streaming call of [generateResponse] and the loop that collects its
    chunks. *)
Definition collectChunks (prompt ctx : string) : M (list string) :=
  fun w =>
    match generateResponse env (llmCalls w) prompt ctx with
    | (responseChunks, None) => (Returned responseChunks, countLlmCall w)
    | (_, Some e) => (Threw e, countLlmCall w)
    end.

(** [generateResponse(userMessage)] *)
Definition generateResponse (userMessage : ChatMessage) : M ChatMessage :=
  contextString <- buildContextString userMessage ;;
  history <- getRecentHistory 10 ;;
  optimization <-
    call (optimizeForTokenLimits env (content userMessage) contextString
            history) ;;
  startTime <- observe (dateNow env) ;;
  responseChunks <-
    tryCatch
      (collectChunks (LLMService.optimizedPrompt optimization)
         (LLMService.optimizedContext optimization))
      (fun error =>
         throw (newError ("LLM generation failed: "
                            ++ messageOr "Unknown error" error))) ;;
  let responseContent := Js.join "" responseChunks in
  endTime <- observe (dateNow env) ;;
  let elapsed := endTime - startTime in
  (* safety filter on the response *)
  sanitizedContent <-
    (if enableSafetyFilter config
     then call (sanitizeResponse env responseContent)
     else ret responseContent) ;;
  assistantMessage <- createAssistantMessage env sanitizedContent ;;
  tokens <- call (estimateTokens env sanitizedContent) ;;
  ret {| id := id assistantMessage;
         role := role assistantMessage;
         content := content assistantMessage;
         timestamp := timestamp assistantMessage;
         context := context assistantMessage;
         metadata := Some {| tokenCount := Some tokens;
                             processingTime := Some elapsed;
                             model := Some "llm-service";
                             truncated := None |} |}.

(** The [for] loop of [generateResponseWithRetry] from [attempt] on, with
    [remaining] iterations left before [attempt] exceeds
    [config.retryAttempts]; past the loop, the last error is thrown. *)
Fixpoint retryFrom {A} (operation : M A) (remaining : nat) (attempt : Z)
  (lastError : option Thrown) : M A :=
  match remaining with
  | O =>
      throw match lastError with
            | Some e => e
            | None => newError "All retry attempts failed"
            end
  | S remaining' =>
      tryCatch operation
        (fun error =>
           let lastError :=
             match error with
             | ErrorObj _ _ => error
             | NotAnError => newError "Unknown error"
             end in
           (if attempt <? retryAttempts config
            then delay (retryDelay config * attempt)
            else ret tt) ;;;
           retryFrom operation remaining' (attempt + 1) (Some lastError))
  end.

(** The retry loop around an operation: [attempt] runs from 1 to
    [config.retryAttempts]. *)
Definition withRetry {A} (operation : M A) : M A :=
  retryFrom operation (Z.to_nat (retryAttempts config)) 1 None.

(** [generateResponseWithRetry(userMessage)] *)
Definition generateResponseWithRetry (userMessage : ChatMessage) : M ChatMessage :=
  withRetry (generateResponse userMessage).

(** [{ ...currentContext, ...userMessage.context }] *)
Definition mergeContext (base : ChatContext) (over : option ChatContext)
  : ChatContext :=
  match over with
  | None => base
  | Some o =>
      let pick {A} (f : ChatContext -> option A) :=
        match f o with
        | Some v => Some v
        | None => f base
        end in
      {| activeFile := pick activeFile;
         selectedText := pick selectedText;
         workspaceFiles := pick workspaceFiles;
         gitStatus := pick gitStatus;
         specContext := pick specContext |}
  end.

Definition withContext (m : ChatMessage) (c : option ChatContext) : ChatMessage :=
  {| id := id m; role := role m; content := content m;
     timestamp := timestamp m; context := c; metadata := metadata m |}.

(** The [try] block of [sendMessage]. *)
Definition sendMessageTry (text : string) (ctx : option ChatContext)
  : M ChatResponse :=
  (* validate the request *)
  checked <-
    (if enableSafetyFilter config
     then call (validateRequest env text)
     else ret {| isValid := true; errors := []; warnings := [] |}) ;;
  if negb (isValid checked) then
    createErrorResponse
      ("Message blocked: " ++ Js.join ", " (errors checked)) validation
  else
    userMessage <- createUserMessage env text ;;
    let userMessage :=
      match ctx with
      | Some c => withContext userMessage (Some c)
      | None => userMessage
      end in
    (* gather additional context if enabled *)
    userMessage <-
      (if enableContextGathering config then
         tryCatch
           (currentContext <- call (getCurrentContext env) ;;
            ret (withContext userMessage
                   (Some (mergeContext currentContext (context userMessage)))))
           (fun _ => ret userMessage)
       else ret userMessage) ;;
    stateAddMessage userMessage ;;;
    assistantMessage <- generateResponseWithRetry userMessage ;;
    stateAddMessage assistantMessage ;;;
    stateTrimConversationHistory ;;;
    ret {| responseMessage := assistantMessage;
           suggestions := Some (generateSuggestions assistantMessage);
           actions := Some (extractActions assistantMessage);
           error := None |}.

(** [sendMessage(message, context?)] *)
Definition sendMessage (text : string) (ctx : option ChatContext)
  : M ChatResponse :=
  processing <- gets isProcessing ;;
  if processing then
    createErrorResponse "Another message is currently being processed" system
  else
    modify (setProcessing true) ;;;
    tryFinally
      (tryCatch (sendMessageTry text ctx)
         (fun error =>
            let errorMessage := messageOr "Unknown error occurred" error in
            createErrorResponse errorMessage system))
      (modify (setProcessing false)).

(** [getHistory()] *)
Definition getHistory : M (list ChatMessage) :=
  ConversationStateManager.getMessages.

(** [clearHistory()] *)
Definition clearHistory : M unit :=
  ConversationStateManager.clearCurrentConversation env.

(** [addMessage(message)] *)
Definition addMessage (message : ChatMessage) : M unit :=
  stateAddMessage message.

(** [getLastMessages(count)] *)
Definition getLastMessages (count : Z) : M (list ChatMessage) :=
  msgs <- ConversationStateManager.getMessages ;;
  ret (Js.arraySliceFrom msgs (- count)).

End Pipeline.

End ChatManager.

(** * Vocabulary of the statements, and sample data *)

Section HistoryVocabulary.

Import TokenManager.

(** [copy] is [m] with its content cut to a head of it followed by the
    truncation mark, and with [metadata.truncated] set; identity, role,
    time and context are those of [m]. *)
Definition isTruncatedCopy (m copy : ChatMessage) : Prop :=
  id copy = id m
  /\ role copy = role m
  /\ timestamp copy = timestamp m
  /\ context copy = context m
  /\ (exists md : MessageMetadata,
         metadata copy = Some md /\ truncated md = Some true)
  /\ (exists n : nat,
         content copy = Js.take n (content m) ++ "... [truncated]").

(** A message without context or metadata. *)
Definition sampleMessage (i : string) (r : Role) (text : string) : ChatMessage :=
  {| id := i; role := r; content := text; timestamp := 0;
     context := None; metadata := None |}.

(** A long first message followed by two short ones. *)
Definition sampleHistory : list ChatMessage :=
  [sampleMessage "m1" user (Js.repeat "0123456789" 100);
   sampleMessage "m2" assistant "short";
   sampleMessage "m3" user "again"].

(** The instance of the tests: [new TokenManager(4096, 8192)]. *)
Definition sampleManager : t :=
  {| maxTokens := 4096; contextWindow := 8192; maxContextTokens := 5734 |}.

(** A context of 100 characters, 25 tokens. *)
Definition tailSampleContext : string :=
  Js.repeat "0123456789" 10.

End HistoryVocabulary.

Section StreamVocabulary.

Import LLMService.

(** The line feed, as a string. *)
Definition newline : string := String "010"%char "".

(** No character of [s] is a line feed. *)
Fixpoint newlineFree (s : string) : Prop :=
  match s with
  | EmptyString => True
  | String c t => Ascii.eqb c "010"%char = false /\ newlineFree t
  end.

(** The lines that are complete in [s], and the text after its last
    newline: what the loop takes and what it holds back. *)
Definition completeLines (s : string) : list string :=
  removelast (Js.splitNewline s).

(** [buffer] after [lines.pop()]. *)
Definition partialLine (s : string) : string :=
  last (Js.splitNewline s) "".

(** The text made of the given lines, each ended by a line feed. *)
Fixpoint joinLines (ls : list string) : string :=
  match ls with
  | [] => ""
  | l :: rest => l ++ newline ++ joinLines rest
  end.

(** The payload that a sequence of chunks makes up. *)
Fixpoint concatChunks (chunks : list string) : string :=
  match chunks with
  | [] => ""
  | c :: rest => c ++ concatChunks rest
  end.

(** The runtime's JSON reader and property path, as in [LLMService]. *)
Variable deltaContent : string -> option string.

(** The fragments of a payload read in one piece, and whether its lines
    reach the sentinel. *)
Definition fragmentsOf (payload : string) : list string :=
  fst (processLines deltaContent (completeLines payload)).

Definition reachesDone (payload : string) : bool :=
  snd (processLines deltaContent (completeLines payload)).

End StreamVocabulary.

Section ActionVocabulary.

Import ChatManager.

(** The text of the first group: empty when the group took no part. *)
Definition languageText (lang : option string) : string :=
  match lang with
  | Some l => l
  | None => ""
  end.

(** A block that yields an action: it has a language and more than 50
    characters of code. *)
Definition isSubstantial (b : CodeBlock) : bool :=
  match language b with
  | Some lang => (Js.len (code b) >? 50) && negb (String.eqb lang "")
  | None => false
  end.

(** The action that a match yields. *)
Definition fileActionOf (b : CodeBlock) : ChatAction :=
  createFileAction (languageText (language b)) (code b).


(** No character of [s] is a backquote. *)
Fixpoint backquoteFree (s : string) : Prop :=
  match s with
  | EmptyString => True
  | String c t => Ascii.eqb c "`"%char = false /\ backquoteFree t
  end.

(** Every character of [s] is a word character. *)
Fixpoint wordOnly (s : string) : Prop :=
  match s with
  | EmptyString => True
  | String c t => Js.isWordChar c = true /\ wordOnly t
  end.

(** A fenced block as it is written: the fence, the language, a newline,
    the code and the closing fence. *)
Definition fenced (lang block : string) : string :=
  "```" ++ lang ++ newline ++ block ++ "```".


End ActionVocabulary.

Section PipelineVocabulary.

Import ChatManager.

(** The content of the message of an error response. *)
Definition apology (msg : string) : string :=
  "I apologize, but I encountered an error: " ++ msg.

(** The error record that [createErrorResponse] builds. *)
Definition errorInfo (ty : ErrorType) (msg : string) : ErrorInfo :=
  {| type := ty;
     message := msg;
     errorCode := None;
     retryable := match ty with network | system => true | _ => false end |}.

(** What the loop keeps of a thrown value:
    [error instanceof Error ? error : new Error('Unknown error')]. *)
Definition asError (e : Thrown) : Thrown :=
  match e with
  | ErrorObj _ _ => e
  | NotAnError => newError "Unknown error"
  end.

(** Every value the computation returns satisfies [P]. *)
Definition yields {A} (c : M A) (P : A -> Prop) : Prop :=
  forall (w w' : World) (a : A), c w = (Returned a, w') -> P a.

(** A response as the pipeline builds them: an assistant message, and
    either no error, with suggestions and actions, or an error with the
    apology for it as the content of the message. *)
Definition wellFormed (resp : ChatResponse) : Prop :=
  role (responseMessage resp) = assistant
  /\ match error resp with
     | Some e =>
         content (responseMessage resp) = apology (message e)
         /\ (type e = validation \/ type e = system)
         /\ retryable e = match type e with
                          | network | system => true
                          | _ => false
                          end
         /\ suggestions resp = None
         /\ actions resp = None
     | None =>
         suggestions resp
         = Some (generateSuggestions (responseMessage resp))
         /\ actions resp = Some (extractActions (responseMessage resp))
     end.

Variable config : ChatManagerConfig.

(** The delays awaited after the failed attempts [attempt],
    [attempt + 1], ... ([count] of them). *)
Fixpoint delaysFrom (attempt : Z) (count : nat) : list Z :=
  match count with
  | O => []
  | S c => retryDelay config * attempt :: delaysFrom (attempt + 1) c
  end.

End PipelineVocabulary.

(** ** Sample collaborators, worlds and operations *)

(** Collaborators that accept every request, answer at once and save
    without fault; the generation calls follow [script], call by call. *)
Definition scriptedEnv (script : nat -> list string * option Thrown) : Env :=
  {| dateNow := fun time => Z.of_nat time;
     randomSuffix := fun _ => "k3j9x0q2m";
     validateRequest := fun _ _ =>
       Returned {| isValid := true; errors := []; warnings := [] |};
     sanitizeResponse := fun text _ => Returned text;
     getCurrentContext := fun _ =>
       Returned {| activeFile := Some "src/main.ts"; selectedText := None;
                   workspaceFiles := None; gitStatus := None;
                   specContext := None |};
     getRelevantContext := fun _ _ => Returned "";
     optimizeForTokenLimits := fun prompt ctx history _ =>
       Returned (LLMService.optimizeForTokenLimits
                   {| LLMService.tokenManager := sampleManager |}
                   prompt ctx history);
     generateResponse := fun k _ _ => script k;
     estimateTokens := fun text _ => Returned (TokenManager.estimateTokens text);
     storageSave := fun _ => true |}.

(** A conversation just created. *)
Definition emptyConversation : ConversationState :=
  {| messages := []; lastModified := 0; messageCount := 0; totalTokens := 0 |}.

(** A manager at rest, with an empty conversation. *)
Definition idleWorld : World :=
  {| isProcessing := false;
     currentConversation := Some emptyConversation;
     clock := 0;
     sleeps := [];
     llmCalls := 0 |}.

(** The world while a first request is waiting for its generation. *)
Definition busyWorld : World :=
  {| isProcessing := true;
     currentConversation :=
       Some {| messages := [sampleMessage "u1" user "First message"];
               lastModified := 4; messageCount := 1; totalTokens := 0 |};
     clock := 9;
     sleeps := [];
     llmCalls := 1 |}.

(** Two failures, then a success. *)
Definition failTwiceThenSucceed (k : nat) : list string * option Thrown :=
  match k with
  | 0%nat | 1%nat => ([], Some (newError "Network error"))
  | _ => (["Success after retry"], None)
  end.

(** A failure at every call. *)
Definition alwaysFail (k : nat) : list string * option Thrown :=
  ([], Some (newError "Persistent error")).

(** Collaborators whose validator rejects every request and whose context
    provider throws. *)
Definition rejectingEnv : Env :=
  let base := scriptedEnv alwaysFail in
  {| dateNow := dateNow base;
     randomSuffix := randomSuffix base;
     validateRequest := fun _ _ =>
       Returned {| isValid := false;
                   errors := ["Dangerous content detected"];
                   warnings := [] |};
     sanitizeResponse := sanitizeResponse base;
     getCurrentContext := fun _ => Threw (newError "No editor");
     getRelevantContext := getRelevantContext base;
     optimizeForTokenLimits := optimizeForTokenLimits base;
     generateResponse := generateResponse base;
     estimateTokens := estimateTokens base;
     storageSave := storageSave base |}.

(** An operation that fails at every run, with the number of the run in
    its error. *)
Definition countingFailure : M string :=
  fun w =>
    (Threw (newError ("failure " ++ Js.ofZ (Z.of_nat (llmCalls w)))),
     countLlmCall w).

(** An operation that fails at its first two runs. *)
Definition thirdTimeLucky : M string :=
  fun w =>
    match llmCalls w with
    | 0%nat | 1%nat => (Threw (newError "Network error"), countLlmCall w)
    | _ => (Returned "Success after retry", countLlmCall w)
    end.

(** What a run shows from outside: the content of the returned message,
    the type and message of its error, the delays awaited, the number of
    generation calls, the busy flag, and the length of the history. *)
Definition observed (run : Outcome ChatResponse * World)
  : option (string * option (ErrorType * string) * list Z * nat * bool * nat) :=
  match run with
  | (Returned resp, w) =>
      Some (content (responseMessage resp),
            option_map (fun e => (type e, message e)) (error resp),
            sleeps w,
            llmCalls w,
            isProcessing w,
            match currentConversation w with
            | Some c => List.length (messages c)
            | None => 0%nat
            end)
  | (Threw _, _) => None
  end.

(** ** Vocabulary of the further properties *)

Section AccountingVocabulary.

Import TokenManager.

(** The tokens of a list of messages, as the service sums them. *)
Definition tokensOf (msgs : list ChatMessage) : Z :=
  fold_left (fun sum msg => sum + calculateMessageTokens msg) msgs 0.

(** The tokens of the context fields of a message. *)
Definition contextTokens (c : option ChatContext) : Z :=
  match c with
  | None => 0
  | Some ctx =>
      match activeFile ctx with
      | Some f => estimateTokens f
      | None => 0
      end
      + match selectedText ctx with
        | Some text => estimateTokens text
        | None => 0
        end
      + match workspaceFiles ctx with
        | Some files => sumTokens files
        | None => 0
        end
  end.

End AccountingVocabulary.

Section StreamEdgeVocabulary.

Import LLMService.

(** The runtime's JSON reader and property path, as in [LLMService]. *)
Variable deltaContent : string -> option string.

(** A line that the loop over the lines passes over: it is blank, or it
    does not start with the data prefix, or its data is not the sentinel
    and gives no content. *)
Definition skipped (line : string) : bool :=
  Js.trimIsEmpty line
  || negb (Js.startsWith "data: " line)
  || (negb (String.eqb (Js.sliceFrom line 6) "[DONE]")
      && match deltaContent (Js.sliceFrom line 6) with
         | Some _ => false
         | None => true
         end).

(** The response with the given reads as its body. *)
Definition withBody (response : Response) (reads : list Read) : Response :=
  {| ok := ok response;
     status := status response;
     statusText := statusText response;
     body := Some reads |}.

(** A reader of the data that takes any data starting with a brace as its
    own content. *)
Definition bracedContent (data : string) : option string :=
  if Js.startsWith "{" data then Some data else None.

(** The line that carries the data [d]. *)
Definition dataLine (d : string) : string := "data: " ++ d.

(** The contents of the data that have one, in order. *)
Definition contentsOf (ds : list string) : list string :=
  flat_map (fun d => match deltaContent d with
                     | Some fragment => [fragment]
                     | None => []
                     end) ds.

(** The carriage return, as a string. *)
Definition carriageReturn : string := String "013"%char "".

End StreamEdgeVocabulary.

Section StoreVocabulary.

(** The messages of the current conversation, as [getMessages] gives
    them. *)
Definition historyOf (w : World) : list ChatMessage :=
  match currentConversation w with
  | Some c => messages c
  | None => []
  end.

(** The last [count] elements of a list, or all of it when it has fewer. *)
Definition lastMessages {A} (count : nat) (l : list A) : list A :=
  skipn (List.length l - count) l.

(** The token count that a message carries, if any. *)
Definition countedTokens (m : ChatMessage) : Z :=
  match metadata m with
  | Some md =>
      match tokenCount md with
      | Some n => n
      | None => 0
      end
  | None => 0
  end.

(** A manager at rest whose conversation was never created. *)
Definition worldWithoutConversation : World :=
  {| isProcessing := false;
     currentConversation := None;
     clock := 0;
     sleeps := [];
     llmCalls := 0 |}.

(** A manager at rest with the sample history as its conversation. *)
Definition sampleWorld : World :=
  {| isProcessing := false;
     currentConversation :=
       Some {| messages := sampleHistory; lastModified := 0;
               messageCount := 3; totalTokens := 0 |};
     clock := 0;
     sleeps := [];
     llmCalls := 0 |}.

End StoreVocabulary.

Section ExchangeVocabulary.

(** A computation that leaves the part [f] of the world as it found it,
    however it ends. *)
Definition preserves {X A} (f : World -> X) (c : M A) : Prop :=
  forall (w : World) (o : Outcome A) (w' : World), c w = (o, w') -> f w' = f w.

(** Every run of [c] from [w] ends in an outcome and a world that satisfy
    [Q]. *)
Definition ensures {A} (c : M A) (w : World)
  (Q : Outcome A -> World -> Prop) : Prop :=
  forall (o : Outcome A) (w' : World), c w = (o, w') -> Q o w'.

(** A user message with the given text. *)
Definition isUserTurn (text : string) (u : ChatMessage) : Prop :=
  role u = user /\ content u = text.

(** The history after an exchange that ended in an error with message
    [msg]: nothing was stored, or the user message alone, or both messages
    under a failed save of the trimmed history. *)
Definition partialExchange (text : string) (limit : Z)
  (before : list ChatMessage) (msg : string) (after : list ChatMessage)
  : Prop :=
  after = before
  \/ (exists u : ChatMessage,
         isUserTurn text u /\ after = (before ++ [u])%list)
  \/ (exists u a : ChatMessage,
         isUserTurn text u
         /\ after = lastMessages (Z.to_nat limit) (before ++ [u; a])
         /\ msg = "Failed to save conversation").

(** The history after an exchange answered by [resp]: on success the old
    history, the user message and the returned message, cut to the last
    [limit] messages. *)
Definition exchangeStored (text : string) (limit : Z)
  (before : list ChatMessage) (resp : ChatResponse)
  (after : list ChatMessage) : Prop :=
  match error resp with
  | None =>
      exists u : ChatMessage,
        isUserTurn text u
        /\ after = lastMessages (Z.to_nat limit)
                     (before ++ [u; responseMessage resp])
  | Some e => partialExchange text limit before (message e) after
  end.

(** Collaborators whose generation yields a greeting in two fragments. *)
Definition greetingEnv : Env :=
  scriptedEnv (fun _ => (["Hello "; "world!"], None)).

End ExchangeVocabulary.

Section ContextVocabulary.

(** The two system lines that open every context string, each ended by a
    line feed. *)
Definition systemLines : string :=
  "You are Kiro, an AI assistant integrated into the Kiro IDE."
    ++ newline
    ++ "You help developers with code generation, debugging, explanations, and project planning."
    ++ newline.

(** What the spec context provider answered is of no use: it threw, or its
    text is blank. *)
Definition noUse (answer : Outcome string) : Prop :=
  match answer with
  | Returned text => Js.trimNonEmpty text = false
  | Threw _ => True
  end.

End ContextVocabulary.

Section ReportingVocabulary.

Variable env : Env.
Variable config : ChatManager.ChatManagerConfig.

(** The error of the response that the [catch] of [sendMessage] builds
    from what was thrown: a system error with the message of the thrown
    error. *)
Definition systemError (e : Thrown) : option ErrorInfo :=
  Some (errorInfo system (ChatManager.messageOr "Unknown error occurred" e)).

(** The error of the response to a request that the validator rejected. *)
Definition blockedError (checked : ValidationResult) : option ErrorInfo :=
  Some (errorInfo validation
          ("Message blocked: " ++ Js.join ", " (errors checked))).

(** The request passes the validation, asked at the time of [w]: the filter
    is off, or the validator answers that the request is valid. *)
Definition accepts (text : string) (w : World) : Prop :=
  ChatManager.enableSafetyFilter config = false
  \/ exists checked : ValidationResult,
       validateRequest env text (clock w) = Returned checked
       /\ isValid checked = true.

(** How the stages of the [try] block of [sendMessage], run from [w],
    decide its end.  With the filter on, a validator that throws makes the
    block fail with what it threw, and one that rejects makes it end
    blocked.  Past the validation there is a user message with the text,
    built without touching the conversation whatever the context gathering
    does, such that the first stage that throws among the append of that
    message, the generation with its retries, the append of the reply and
    the trimming makes the block fail with what that stage threw, and such
    that the block ends answered by the reply when all four return. *)
Definition stagesReported (failed : Thrown -> Prop)
  (blocked : ValidationResult -> Prop) (answered : ChatMessage -> Prop)
  (text : string) (w : World) : Prop :=
  (ChatManager.enableSafetyFilter config = true ->
   match validateRequest env text (clock w) with
   | Threw e => failed e
   | Returned checked => isValid checked = false -> blocked checked
   end)
  /\ (accepts text w ->
      exists (u : ChatMessage) (wB : World),
        isUserTurn text u
        /\ currentConversation wB = currentConversation w
        /\ (forall (e : Thrown) (wC : World),
               ChatManager.stateAddMessage env u wB = (Threw e, wC) ->
               failed e)
        /\ (forall wC : World,
               ChatManager.stateAddMessage env u wB = (Returned tt, wC) ->
               (forall (e : Thrown) (wD : World),
                   ChatManager.generateResponseWithRetry env config u wC
                   = (Threw e, wD) ->
                   failed e)
               /\ (forall (a : ChatMessage) (wD : World),
                      ChatManager.generateResponseWithRetry env config u wC
                      = (Returned a, wD) ->
                      (forall (e : Thrown) (wE : World),
                          ChatManager.stateAddMessage env a wD = (Threw e, wE) ->
                          failed e)
                      /\ (forall wE : World,
                             ChatManager.stateAddMessage env a wD
                             = (Returned tt, wE) ->
                             (forall (e : Thrown) (wF : World),
                                 ChatManager.stateTrimConversationHistory
                                   env config wE = (Threw e, wF) ->
                                 failed e)
                             /\ (forall wF : World,
                                    ChatManager.stateTrimConversationHistory
                                      env config wE = (Returned tt, wF) ->
                                    answered a))))).

End ReportingVocabulary.

(** * Properties *)

(** ** Strings *)

Lemma string_app_nil_r (s : string) : s ++ "" = s.
Proof. induction s as [|c s IH]; simpl; congruence. Qed.

Lemma string_app_assoc (a b c : string) : (a ++ b) ++ c = a ++ (b ++ c).
Proof. induction a as [|x a IH]; simpl; congruence. Qed.

Lemma string_length_app (a b : string) :
  String.length (a ++ b) = (String.length a + String.length b)%nat.
Proof. induction a as [|x a IH]; simpl; congruence. Qed.

Lemma take_drop (n : nat) (s : string) : Js.take n s ++ Js.drop n s = s.
Proof.
  revert s; induction n as [|n IH]; intros [|c s]; simpl; try reflexivity.
  now rewrite IH.
Qed.

Lemma length_take (n : nat) (s : string) :
  String.length (Js.take n s) = Nat.min n (String.length s).
Proof.
  revert s; induction n as [|n IH]; intros [|c s]; simpl; try reflexivity.
  now rewrite IH.
Qed.

Lemma clampIndex_le (s : string) (i : Z) :
  (Js.clampIndex s i <= String.length s)%nat.
Proof. unfold Js.clampIndex, Js.len. lia. Qed.

(** [s.substring(start)] is what is left of [s] after its first characters,
    as many as the clamped [start]. *)
Lemma substringFrom_suffix (s : string) (start : Z) :
  s = Js.take (Js.clampIndex s start) s ++ Js.substringFrom s start
  /\ String.length (Js.take (Js.clampIndex s start) s) = Js.clampIndex s start.
Proof.
  unfold Js.substringFrom. split.
  - now rewrite take_drop.
  - rewrite length_take. pose proof (clampIndex_le s start). lia.
Qed.

(** ** Token estimates *)

Section TokenEstimates.

Import TokenManager.

Lemma estimateTokens_div (s : string) :
  estimateTokens s = (Js.len s + 3) / 4.
Proof.
  destruct s as [|c s]; [reflexivity|].
  unfold estimateTokens, Js.ceilDiv, Qceiling, Qfloor, CHARS_PER_TOKEN.
  cbn [Qopp Qnum Qden].
  set (n := Js.len (String c s)).
  pose proof (Z.div_mod (- n) 4 ltac:(lia)) as H1.
  pose proof (Z.mod_pos_bound (- n) 4 ltac:(lia)) as H2.
  pose proof (Z.div_mod (n + 3) 4 ltac:(lia)) as H3.
  pose proof (Z.mod_pos_bound (n + 3) 4 ltac:(lia)) as H4.
  change (Z.pos 4) with 4. lia.
Qed.

Lemma estimateTokens_nonneg (s : string) : 0 <= estimateTokens s.
Proof.
  rewrite estimateTokens_div. apply Z.div_pos; unfold Js.len; lia.
Qed.

(** C9.  For a non-empty text the estimate is the ceiling of a quarter of
    its length: the integer [k] with [k - 1 < len / 4 <= k], taken in the
    rationals; the estimate of the empty text is 0; and two texts of the
    same length have the same estimate. *)
Theorem estimateTokens_is_ceiling_of_quarter_length :
  (forall s : string,
      s <> "" ->
      (inject_Z (estimateTokens s - 1) < Js.len s # 4)%Q
      /\ (Js.len s # 4 <= inject_Z (estimateTokens s))%Q)
  /\ estimateTokens "" = 0
  /\ (forall s1 s2 : string,
         String.length s1 = String.length s2 ->
         estimateTokens s1 = estimateTokens s2).
Proof.
  split; [|split].
  - intros s Hs. destruct s as [|c s]; [congruence|].
    unfold estimateTokens, Js.ceilDiv, CHARS_PER_TOKEN. split.
    + apply Qceiling_lt.
    + apply Qle_ceiling.
  - reflexivity.
  - intros s1 s2 H. rewrite !estimateTokens_div. unfold Js.len. now rewrite H.
Qed.

Lemma estimateTokens_is_ceiling_witness :
  ((inject_Z (estimateTokens "Hello world" - 1) < Js.len "Hello world" # 4)%Q
   /\ (Js.len "Hello world" # 4 <= inject_Z (estimateTokens "Hello world"))%Q)
  /\ estimateTokens "Hello world" = 3
  /\ estimateTokens "abcd" = estimateTokens "wxyz".
Proof.
  split; [|split].
  - apply (proj1 estimateTokens_is_ceiling_of_quarter_length "Hello world").
    discriminate.
  - reflexivity.
  - apply (proj2 (proj2 estimateTokens_is_ceiling_of_quarter_length)).
    reflexivity.
Defined.

End TokenEstimates.

(** ** Prompt optimisation *)

Section PromptOptimisation.

Import TokenManager.

Lemma len_app (a b : string) : Js.len (a ++ b) = Js.len a + Js.len b.
Proof. unfold Js.len. rewrite string_length_app. lia. Qed.

(** The two white-space replacements never lengthen a text, so that the
    count given to [' '.repeat] in [removeNonEssentialContent] is never
    negative. *)
Lemma squeezeBlanksFrom_length (s : string) :
  forall inRun : bool,
    (String.length (squeezeBlanksFrom inRun s) <= String.length s)%nat.
Proof.
  induction s as [|c s IH]; intros inRun; [cbn; lia|].
  cbn [squeezeBlanksFrom]. destruct (isBlank c).
  - destruct inRun; cbn [String.length].
    + specialize (IH true). lia.
    + specialize (IH true). lia.
  - cbn [String.length]. specialize (IH false). lia.
Qed.

Lemma countNewlines_le (run : list ascii) :
  (countNewlines run <= List.length run)%nat.
Proof. unfold countNewlines. apply filter_length_le. Qed.

Lemma afterLastNewline_length (run : list ascii) :
  forall acc : string,
    (String.length (afterLastNewline run acc) + countNewlines run
     <= String.length acc + List.length run)%nat.
Proof.
  induction run as [|c run IH]; intros acc; [cbn; lia|].
  unfold countNewlines in *. cbn [afterLastNewline filter List.length].
  destruct (isNewline c).
  - pose proof (countNewlines_le run). unfold countNewlines in *.
    cbn [List.length]. lia.
  - specialize (IH (String c acc)). cbn [String.length] in IH. lia.
Qed.

Lemma stringOfRev_length (run : list ascii) :
  forall acc : string,
    String.length (stringOfRev run acc)
    = (String.length acc + List.length run)%nat.
Proof.
  induction run as [|c run IH]; intros acc; [cbn; lia|].
  cbn [stringOfRev List.length]. rewrite IH. cbn [String.length]. lia.
Qed.

Lemma flushRun_length (run : list ascii) :
  (String.length (flushRun run) <= S (List.length run))%nat.
Proof.
  unfold flushRun. destruct (Nat.leb_spec 2 (countNewlines run)).
  - pose proof (afterLastNewline_length run ""). cbn [String.length] in *. lia.
  - cbn [String.length]. rewrite stringOfRev_length. cbn [String.length]. lia.
Qed.

Lemma collapseBlankLinesFrom_length (s : string) :
  forall pending : option (list ascii),
    (String.length (collapseBlankLinesFrom pending s)
     <= match pending with
        | Some run => S (List.length run)
        | None => 0
        end + String.length s)%nat.
Proof.
  induction s as [|c s IH]; intros pending.
  - cbn [collapseBlankLinesFrom String.length]. destruct pending as [run|].
    + pose proof (flushRun_length run). lia.
    + cbn. lia.
  - cbn [collapseBlankLinesFrom String.length]. destruct pending as [run|].
    + destruct (Js.isWhiteSpace c).
      * specialize (IH (Some (c :: run))). cbn [List.length] in IH. lia.
      * rewrite string_length_app. cbn [String.length].
        pose proof (flushRun_length run). specialize (IH None).
        cbn beta iota in IH. lia.
    + destruct (isNewline c).
      * specialize (IH (Some [])). cbn [List.length] in IH. lia.
      * cbn [String.length]. specialize (IH None). cbn beta iota in IH. lia.
Qed.

Lemma compressed_whitespace_never_longer (s : string) :
  Js.len (squeezeBlanks (collapseBlankLines s)) <= Js.len s.
Proof.
  unfold Js.len, squeezeBlanks, collapseBlankLines.
  pose proof (squeezeBlanksFrom_length (collapseBlankLinesFrom None s) false).
  pose proof (collapseBlankLinesFrom_length s None) as Hcollapse.
  cbn beta iota in Hcollapse. lia.
Qed.

(** [removeNonEssentialContent] only pushes to the list it is given. *)
Lemma removeNonEssentialContent_extends
  (context : string) (owed : Z) (removedContent : list string) :
  exists more : list string,
    snd (removeNonEssentialContent context owed removedContent)
    = (removedContent ++ more)%list.
Proof.
  unfold removeNonEssentialContent.
  repeat (match goal with
          | |- context [match ?x with _ => _ end] =>
              lazymatch x with
              | context [match _ with _ => _ end] => fail
              | _ => destruct x
              end
          end; cbn beta iota zeta).
  all: cbn [snd]; unfold Js.push; rewrite <- ?app_assoc.
  all: try (eexists; reflexivity).
  all: exists []; now rewrite app_nil_r.
Qed.

Lemma removeLessImportant_extends (r : Reduction) :
  exists more : list string,
    removed (removeLessImportant r) = (removed r ++ more)%list.
Proof.
  unfold removeLessImportant.
  destruct (tokensToSave r >? 0).
  - destruct (removeNonEssentialContent_extends
                (optimizedContext r) (tokensToSave r) (removed r)) as [more H].
    destruct (removeNonEssentialContent _ _ _) as [o rc]. cbn in *.
    now exists more.
  - exists []. now rewrite app_nil_r.
Qed.

(** [optimizePrompt] hands back the prompt it was given. *)
Lemma optimizePrompt_keeps_prompt
  (tm : t) (prompt context : string) (maxTokensArg : option Z) :
  optimizedPrompt (optimizePrompt tm prompt context maxTokensArg) = prompt.
Proof.
  unfold optimizePrompt.
  now destruct (_ <=? _).
Qed.

(** The removal log of [optimizePrompt] opens with what the first strategy
    recorded. *)
Lemma optimizePrompt_log_opens_with_truncation
  (tm : t) (prompt context : string) (maxTokensArg : option Z) :
  Js.orNumber maxTokensArg (maxTokens tm) < estimateTokens (prompt ++ context) ->
  exists more : list string,
    removedContent (optimizePrompt tm prompt context maxTokensArg)
    = (removed (truncateContext
                  {| optimizedContext := context;
                     removed := [];
                     tokensToSave :=
                       estimateTokens (prompt ++ context)
                       - Js.orNumber maxTokensArg (maxTokens tm) |})
         ++ more)%list.
Proof.
  intros Hover. unfold optimizePrompt.
  destruct (Z.leb_spec (estimateTokens (prompt ++ context))
              (Js.orNumber maxTokensArg (maxTokens tm))) as [Hle|_].
  - exfalso. revert Hover Hle.
    generalize (estimateTokens (prompt ++ context))
               (Js.orNumber maxTokensArg (maxTokens tm)).
    intros; lia.
  - cbn [removedContent]. apply removeLessImportant_extends.
Qed.

(** C5, as the code has it.  When prompt and context together exceed the
    target, the first strategy keeps a tail of the context: the context is
    some cut-off head followed by what the strategy leaves.  When the
    estimate of the context exceeds the tokens owed, it records
    [Truncated N characters from context], [N] being the length of that
    head, and lowers the tokens owed by the tokens the cut saved; otherwise
    it changes nothing and records nothing.  What it records opens the
    removal log of [optimizePrompt]. *)
Theorem truncateContext_keeps_tail_and_records :
  forall (tm : t) (prompt context : string) (maxTokensArg : option Z),
    let targetTokens := Js.orNumber maxTokensArg (maxTokens tm) in
    let currentTokens := estimateTokens (prompt ++ context) in
    let owed := currentTokens - targetTokens in
    let start := {| optimizedContext := context;
                    removed := [];
                    tokensToSave := owed |} in
    let r := truncateContext start in
    targetTokens < currentTokens ->
    exists cut : string,
      context = cut ++ optimizedContext r
      /\ (owed < estimateTokens context ->
          removed r =
            ["Truncated " ++ Js.ofZ (Js.len cut) ++ " characters from context"]
          /\ tokensToSave r
             = owed - (estimateTokens context
                       - estimateTokens (optimizedContext r)))
      /\ (estimateTokens context <= owed -> cut = "" /\ r = start)
      /\ exists more : list string,
          removedContent (optimizePrompt tm prompt context maxTokensArg)
          = (removed r ++ more)%list.
Proof.
  intros tm prompt context maxTokensArg targetTokens currentTokens owed start r
         Hover.
  pose proof (optimizePrompt_log_opens_with_truncation
                tm prompt context maxTokensArg Hover) as Hlog.
  fold targetTokens currentTokens owed start r in Hlog.
  revert Hlog. subst r start. unfold truncateContext.
  cbn [tokensToSave optimizedContext removed].
  assert (Hpos : 0 < owed)
    by (subst owed; clearbody targetTokens currentTokens; lia).
  clearbody owed. clear Hover.
  destruct (Z.gtb_spec owed 0) as [_|Hneg]; [|exfalso; lia].
  destruct (estimateTokens context >? owed) eqn:Eguard.
  - apply Z.gtb_lt in Eguard.
    set (cutAt := estimateTokens context
                  - (estimateTokens context - owed) * Z.pos CHARS_PER_TOKEN).
    destruct (substringFrom_suffix context cutAt) as [Hsplit Hlen].
    intros Hlog.
    exists (Js.take (Js.clampIndex context cutAt) context).
    cbn [optimizedContext removed tokensToSave] in *.
    split; [exact Hsplit|]. split; [|split].
    + intros _. split; [|reflexivity].
      unfold Js.push. cbn [List.app].
      do 3 f_equal.
      rewrite Hsplit at 1. rewrite len_app.
      generalize (Js.len (Js.take (Js.clampIndex context cutAt) context))
                 (Js.len (Js.substringFrom context cutAt)).
      clear. intros; f_equal; lia.
    + intros Hle. exfalso. revert Hle Eguard.
      generalize (estimateTokens context). clear. intros; lia.
    + exact Hlog.
  - rewrite Z.gtb_ltb in Eguard. apply Z.ltb_ge in Eguard.
    intros Hlog. exists "". split; [reflexivity|]. split; [|split].
    + intros Hlt. exfalso. revert Hlt Eguard.
      generalize (estimateTokens context). clear. intros; lia.
    + intros _. split; reflexivity.
    + exact Hlog.
Qed.

Lemma truncateContext_keeps_tail_witness :
  exists cut : string,
    tailSampleContext = cut ++ Js.drop 5 tailSampleContext
    /\ removed (truncateContext
                  {| optimizedContext := tailSampleContext;
                     removed := [];
                     tokensToSave := 20 |})
       = ["Truncated " ++ Js.ofZ (Js.len cut) ++ " characters from context"].
Proof.
  destruct (truncateContext_keeps_tail_and_records
              {| maxTokens := 5; contextWindow := 100; maxContextTokens := 70 |}
              "" tailSampleContext None) as [cut [H1 [H2 _]]].
  - vm_compute. reflexivity.
  - exists cut. split.
    + exact H1.
    + apply H2. vm_compute. reflexivity.
Defined.

(** C5 as stated fails where the context is small against the tokens owed:
    a prompt of 100 characters with the context [abcd] is 26 tokens against
    a target of 10, the context's single token does not exceed the 16 owed,
    and the first strategy removes nothing and records nothing; neither
    does the whole of [optimizePrompt]. *)
Lemma truncateContext_skipped_when_context_small :
  let tm := {| maxTokens := 10; contextWindow := 100; maxContextTokens := 70 |} in
  let prompt := Js.repeat "p" 100 in
  let start := {| optimizedContext := "abcd";
                  removed := [];
                  tokensToSave := estimateTokens (prompt ++ "abcd") - 10 |} in
  maxTokens tm < estimateTokens (prompt ++ "abcd")
  /\ tokensToSave start = 16
  /\ truncateContext start = start
  /\ removed (truncateContext start) = []
  /\ removedContent (optimizePrompt tm prompt "abcd" None) = [].
Proof. vm_compute. repeat split; reflexivity. Qed.

End PromptOptimisation.

(** ** Token-limit optimisation of the service *)

Section TokenLimits.

(** C10.  [optimizeForTokenLimits] hands back the prompt and the context it
    was given, whatever [optimizePrompt] removed from its own copy of the
    context: the result of [optimizePrompt] has the fields [optimizedPrompt],
    [removedContent] and [tokensSaved] only, and its [optimizedPrompt] is the
    prompt.  The history is the one part that the optimisation can change:
    it is what [optimizeConversationHistory] returns under the default
    budget. *)
Theorem optimizeForTokenLimits_returns_prompt_and_context_unchanged :
  forall (svc : LLMService.t) (prompt context : string)
         (history : list ChatMessage),
    let result := LLMService.optimizeForTokenLimits svc prompt context history in
    LLMService.optimizedPrompt result = prompt
    /\ LLMService.optimizedContext result = context
    /\ LLMService.optimizedHistory result
       = TokenManager.optimizeConversationHistory
           (LLMService.tokenManager svc) history None
    /\ (forall maxTokensArg : option Z,
           TokenManager.optimizePrompt (LLMService.tokenManager svc)
             prompt context maxTokensArg
           = {| TokenManager.optimizedPrompt := prompt;
                TokenManager.removedContent :=
                  TokenManager.removedContent
                    (TokenManager.optimizePrompt (LLMService.tokenManager svc)
                       prompt context maxTokensArg);
                TokenManager.tokensSaved :=
                  TokenManager.tokensSaved
                    (TokenManager.optimizePrompt (LLMService.tokenManager svc)
                       prompt context maxTokensArg) |}).
Proof.
  intros svc prompt context history result. subst result.
  unfold LLMService.optimizeForTokenLimits.
  cbn [LLMService.optimizedPrompt LLMService.optimizedContext
       LLMService.optimizedHistory].
  split; [apply optimizePrompt_keeps_prompt|].
  split; [reflexivity|]. split; [reflexivity|].
  intros maxTokensArg.
  pose proof (optimizePrompt_keeps_prompt (LLMService.tokenManager svc)
                prompt context maxTokensArg) as H.
  destruct (TokenManager.optimizePrompt _ _ _ _) as [p r s].
  cbn in *. now subst.
Qed.

End TokenLimits.

(** ** History optimisation *)

Section HistoryOptimisation.

Import TokenManager.

Lemma markTruncated_truncated (md : option MessageMetadata) :
  truncated (markTruncated md) = Some true.
Proof. now destruct md. Qed.

Lemma substring_from_zero (s : string) (stop : Z) :
  Js.substring s 0 stop = Js.take (Js.clampIndex s stop) s.
Proof.
  unfold Js.substring.
  assert (H0 : Js.clampIndex s 0 = O).
  { unfold Js.clampIndex, Js.len. lia. }
  rewrite H0. cbn [Nat.min Nat.max Js.drop].
  now rewrite Nat.sub_0_r.
Qed.

Lemma truncateMessage_cases (m copy : ChatMessage) (available : Z) :
  truncateMessage m available = Some copy ->
  copy = m \/ isTruncatedCopy m copy.
Proof.
  unfold truncateMessage.
  destruct (available - 10 <? 20); [discriminate|].
  destruct (Js.len (content m) <=? _).
  - intros [= <-]. now left.
  - intros [= <-]. right. unfold isTruncatedCopy. cbn.
    repeat split; try reflexivity.
    + eexists. split; [reflexivity|]. apply markTruncated_truncated.
    + rewrite substring_from_zero. eexists. reflexivity.
Qed.

(** The loop keeps whole messages from the recent end of [older] and then,
    at most once, puts a truncated copy of the next one in front. *)
Lemma keepRecent_shape (budget : Z) (older : list ChatMessage) :
  forall (total : Z) (acc : list ChatMessage),
  exists kept rest : list ChatMessage,
    older = (kept ++ rest)%list
    /\ (keepRecent budget older total acc = (rev kept ++ acc)%list
        \/ exists (m copy : ChatMessage) (more : list ChatMessage),
            rest = m :: more
            /\ isTruncatedCopy m copy
            /\ keepRecent budget older total acc
               = copy :: (rev kept ++ acc)%list).
Proof.
  induction older as [|m older IH]; intros total acc.
  - exists [], []. split; [reflexivity|]. now left.
  - cbn [keepRecent].
    destruct (total + calculateMessageTokens m <=? budget).
    + destruct (IH (total + calculateMessageTokens m) (m :: acc))
        as [kept [rest [Hsplit Hres]]].
      exists (m :: kept), rest. split; [now rewrite Hsplit|].
      cbn [rev]. rewrite <- app_assoc. cbn [List.app].
      destruct Hres as [Hres|[m' [t [more [Hrest [Hcopy Hres]]]]]].
      * now left.
      * right. now exists m', t, more.
    + destruct (budget - total >? 50).
      * destruct (truncateMessage m (budget - total)) as [t|] eqn:Et.
        -- destruct (truncateMessage_cases _ _ _ Et) as [->|Hcopy].
           ++ exists [m], older. split; [reflexivity|]. now left.
           ++ exists [], (m :: older). split; [reflexivity|].
              right. now exists m, t, older.
        -- exists [], (m :: older). split; [reflexivity|]. now left.
      * exists [], (m :: older). split; [reflexivity|]. now left.
Qed.

Lemma skipn_length_app {A} (l1 l2 : list A) :
  skipn (List.length l1) (l1 ++ l2) = l2.
Proof. induction l1 as [|x l1 IH]; [reflexivity|exact IH]. Qed.

Lemma nth_error_length_app {A} (l1 l2 : list A) (x : A) :
  nth_error (l1 ++ x :: l2) (List.length l1) = Some x.
Proof. induction l1 as [|y l1 IH]; [reflexivity|exact IH]. Qed.

Lemma last_app_singleton {A} (l : list A) (x d : A) :
  last (l ++ [x]) d = x.
Proof.
  induction l as [|y l IH]; [reflexivity|].
  cbn [List.app last]. destruct (l ++ [x])%list eqn:E; [|exact IH].
  now destruct l.
Qed.

(** C6.  On a non-empty list the result ends with the last input message
    itself, is no longer than the input, and is either a suffix of the
    input or a suffix of it preceded by a truncated copy of the message
    just before that suffix: the copy is the oldest message kept, it is
    marked [truncated] and has the identifier of its original. *)
Theorem optimizeConversationHistory_keeps_recent_suffix :
  forall (tm : t) (messages : list ChatMessage) (maxHistoryTokens : option Z),
    messages <> [] ->
    let result := optimizeConversationHistory tm messages maxHistoryTokens in
    (forall d : ChatMessage, last result d = last messages d)
    /\ result <> []
    /\ (List.length result <= List.length messages)%nat
    /\ ((exists k : nat, result = skipn k messages)
        \/ (exists (k : nat) (m copy : ChatMessage),
               nth_error messages k = Some m
               /\ isTruncatedCopy m copy
               /\ (S k < List.length messages)%nat
               /\ result = copy :: skipn (S k) messages)).
Proof.
  intros tm messages maxHistoryTokens Hne result. subst result.
  unfold optimizeConversationHistory.
  destruct (rev messages) as [|lastMessage older] eqn:Erev.
  { apply (f_equal (@rev _)) in Erev. rewrite rev_involutive in Erev.
    now subst. }
  assert (Hmsgs : messages = (rev older ++ [lastMessage])%list).
  { apply (f_equal (@rev _)) in Erev. now rewrite rev_involutive in Erev. }
  destruct (keepRecent_shape
              (Js.orNumber maxHistoryTokens (maxContextTokens tm)) older
              (calculateMessageTokens lastMessage) [lastMessage])
    as [kept [rest [Hsplit Hres]]].
  assert (Hall : messages = (rev rest ++ rev kept ++ [lastMessage])%list).
  { rewrite Hmsgs, Hsplit, rev_app_distr. now rewrite <- app_assoc. }
  destruct Hres as [Hres|[m [t0 [more [Hrest [Hcopy Hres]]]]]]; rewrite Hres.
  - split; [|split; [|split]].
    + intros d. rewrite Hmsgs. now rewrite !last_app_singleton.
    + now destruct (rev kept).
    + rewrite Hall. rewrite !length_app. lia.
    + left. exists (List.length (rev rest)).
      rewrite Hall. now rewrite skipn_length_app.
  - subst rest. cbn [rev] in Hall. rewrite <- app_assoc in Hall.
    cbn [List.app] in Hall.
    split; [|split; [|split]].
    + intros d. rewrite Hmsgs.
      change (t0 :: rev kept ++ [lastMessage])%list
        with ((t0 :: rev kept) ++ [lastMessage])%list.
      now rewrite !last_app_singleton.
    + discriminate.
    + rewrite Hall. cbn [List.length]. rewrite !length_app.
      cbn [List.length]. rewrite !length_app. cbn [List.length]. lia.
    + right. exists (List.length (rev more)), m, t0.
      split; [|split; [exact Hcopy|split]].
      * rewrite Hall. apply nth_error_length_app.
      * rewrite Hall. rewrite !length_app. cbn [List.length].
        rewrite !length_app. cbn [List.length]. lia.
      * f_equal. rewrite Hall.
        change (rev more ++ m :: rev kept ++ [lastMessage])%list
          with (rev more ++ [m] ++ (rev kept ++ [lastMessage]))%list.
        rewrite app_assoc.
        replace (S (List.length (rev more)))
          with (List.length (rev more ++ [m])%list)
          by (rewrite length_app; cbn; lia).
        now rewrite skipn_length_app.
Qed.

Lemma optimizeConversationHistory_keeps_recent_suffix_witness :
  (forall d : ChatMessage,
      last (optimizeConversationHistory sampleManager sampleHistory (Some 100)) d
      = sampleMessage "m3" user "again")
  /\ optimizeConversationHistory sampleManager sampleHistory (Some 100) <> [].
Proof.
  pose proof (optimizeConversationHistory_keeps_recent_suffix
                sampleManager sampleHistory (Some 100)) as H.
  cbv zeta in H.
  destruct H as [Hlast [Hne _]].
  - discriminate.
  - split; [|exact Hne]. intros d. rewrite Hlast. reflexivity.
Defined.

(** A run in which the oldest kept message is a truncated copy: under a
    budget of 100 tokens the two short messages are kept whole and the
    1000 characters of the first are cut to 292 and the mark. *)
Example optimizeConversationHistory_truncates_oldest_kept :
  optimizeConversationHistory sampleManager sampleHistory (Some 100)
  = [ {| id := "m1"; role := user;
         content := Js.take 292 (Js.repeat "0123456789" 100)
                      ++ "... [truncated]";
         timestamp := 0; context := None;
         metadata := Some {| tokenCount := None; processingTime := None;
                             model := None; truncated := Some true |} |};
      sampleMessage "m2" assistant "short";
      sampleMessage "m3" user "again" ].
Proof. vm_compute. reflexivity. Qed.

End HistoryOptimisation.

(** ** The streamed response *)

Section StreamAccumulation.

Import LLMService.

Variable deltaContent : string -> option string.

Lemma splitNewline_free (p : string) :
  newlineFree p -> Js.splitNewline p = [p].
Proof.
  induction p as [|c p IH]; [reflexivity|].
  intros [Hc Hp]. cbn [Js.splitNewline]. rewrite Hc, (IH Hp). reflexivity.
Qed.

Lemma splitNewline_line (l rest : string) :
  newlineFree l ->
  Js.splitNewline (l ++ newline ++ rest) = l :: Js.splitNewline rest.
Proof.
  induction l as [|c l IH]; [reflexivity|].
  intros [Hc Hl]. cbn [String.append Js.splitNewline].
  rewrite Hc, (IH Hl). reflexivity.
Qed.

Lemma splitNewline_joinLines (ls : list string) (p : string) :
  Forall newlineFree ls -> newlineFree p ->
  Js.splitNewline (joinLines ls ++ p) = (ls ++ [p])%list.
Proof.
  intros Hls Hp. induction Hls as [|l ls Hl Hls IH].
  - now apply splitNewline_free.
  - cbn [joinLines List.app]. rewrite !string_app_assoc.
    rewrite (splitNewline_line _ _ Hl). now rewrite IH.
Qed.

Lemma decompose_lines (s : string) :
  exists (ls : list string) (p : string),
    s = joinLines ls ++ p /\ Forall newlineFree ls /\ newlineFree p.
Proof.
  induction s as [|c s (ls & p & Hs & Hls & Hp)].
  - exists [], "". repeat split. constructor.
  - destruct (Ascii.eqb c "010"%char) eqn:Ec.
    + apply Ascii.eqb_eq in Ec. subst c.
      exists ("" :: ls), p. repeat split; [|constructor|]; cbn; auto; congruence.
    + destruct ls as [|l ls].
      * exists [], (String c p). cbn in *. repeat split; auto; congruence.
      * exists (String c l :: ls), p. cbn in *.
        inversion Hls; subst.
        repeat split; auto; constructor; cbn; auto.
Qed.

Lemma completeLines_joinLines (ls : list string) (p : string) :
  Forall newlineFree ls -> newlineFree p ->
  completeLines (joinLines ls ++ p) = ls /\ partialLine (joinLines ls ++ p) = p.
Proof.
  intros Hls Hp. unfold completeLines, partialLine.
  rewrite (splitNewline_joinLines _ _ Hls Hp).
  split; [apply removelast_last|apply last_last].
Qed.

Lemma joinLines_app (l1 l2 : list string) :
  joinLines (l1 ++ l2) = joinLines l1 ++ joinLines l2.
Proof.
  induction l1 as [|l l1 IH]; [reflexivity|].
  cbn [List.app joinLines]. now rewrite IH, !string_app_assoc.
Qed.

Lemma partialLine_free (s : string) : newlineFree (partialLine s).
Proof.
  destruct (decompose_lines s) as (ls & p & -> & Hls & Hp).
  now rewrite (proj2 (completeLines_joinLines ls p Hls Hp)).
Qed.

(** Reading [a] and then [b] takes the lines of [a], then the lines of what
    [a] left followed by [b]. *)
Lemma completeLines_app (a b : string) :
  completeLines (a ++ b)
  = (completeLines a ++ completeLines (partialLine a ++ b))%list
  /\ partialLine (a ++ b) = partialLine (partialLine a ++ b).
Proof.
  destruct (decompose_lines a) as (la & pa & -> & Hla & Hpa).
  destruct (completeLines_joinLines la pa Hla Hpa) as [-> ->].
  destruct (decompose_lines (pa ++ b)) as (lb & pb & Hb & Hlb & Hpb).
  rewrite string_app_assoc, Hb.
  destruct (completeLines_joinLines lb pb Hlb Hpb) as [-> ->].
  rewrite <- string_app_assoc, <- joinLines_app.
  apply completeLines_joinLines; [|exact Hpb].
  apply Forall_app. now split.
Qed.

Lemma completeLines_free (p : string) :
  newlineFree p -> completeLines p = [] /\ partialLine p = p.
Proof.
  intros Hp. unfold completeLines, partialLine.
  now rewrite (splitNewline_free _ Hp).
Qed.

Lemma processLines_app (l1 l2 : list string) :
  processLines deltaContent (l1 ++ l2)
  = if snd (processLines deltaContent l1)
    then (fst (processLines deltaContent l1), true)
    else ((fst (processLines deltaContent l1)
             ++ fst (processLines deltaContent l2))%list,
          snd (processLines deltaContent l2)).
Proof.
  induction l1 as [|line l1 IH].
  - cbn. now destruct (processLines deltaContent l2).
  - cbn [List.app processLines].
    destruct (Js.trimIsEmpty line); [exact IH|].
    destruct (Js.startsWith "data: " line); [|exact IH].
    destruct (String.eqb (Js.sliceFrom line 6) "[DONE]"); [reflexivity|].
    rewrite IH.
    destruct (processLines deltaContent l1) as [f1 d1].
    destruct (processLines deltaContent l2) as [f2 d2].
    cbn [fst snd].
    now destruct d1, (deltaContent (Js.sliceFrom line 6)).
Qed.

(** The loop over a run of chunks sees exactly the lines of their
    concatenation: it stops when these reach the sentinel, and otherwise
    goes on to the later reads with the text after the last newline. *)
Lemma readLoop_chunks (chunks : list string) :
  forall (later : list Read) (buffer : string),
    newlineFree buffer ->
    readLoop deltaContent (map Chunk chunks ++ later) buffer
    = if reachesDone deltaContent (buffer ++ concatChunks chunks)
      then (fragmentsOf deltaContent (buffer ++ concatChunks chunks), None)
      else ((fragmentsOf deltaContent (buffer ++ concatChunks chunks)
               ++ fst (readLoop deltaContent later
                         (partialLine (buffer ++ concatChunks chunks))))%list,
            snd (readLoop deltaContent later
                   (partialLine (buffer ++ concatChunks chunks)))).
Proof.
  induction chunks as [|value chunks IH]; intros later buffer Hfree.
  - cbn [map List.app concatChunks]. rewrite string_app_nil_r.
    unfold reachesDone, fragmentsOf.
    destruct (completeLines_free _ Hfree) as [-> ->]. cbn.
    now destruct (readLoop deltaContent later buffer).
  - cbn [map List.app concatChunks readLoop].
    fold (completeLines (buffer ++ value)) (partialLine (buffer ++ value)).
    rewrite (IH later _ (partialLine_free (buffer ++ value))).
    unfold reachesDone, fragmentsOf.
    rewrite <- (string_app_assoc buffer value).
    destruct (completeLines_app (buffer ++ value) (concatChunks chunks))
      as [-> ->].
    rewrite processLines_app.
    destruct (processLines deltaContent (completeLines (buffer ++ value)))
      as [f1 d1].
    cbn [fst snd]. destruct d1; [reflexivity|].
    destruct (processLines deltaContent
                (completeLines (partialLine (buffer ++ value)
                                  ++ concatChunks chunks))) as [f2 d2].
    cbn [fst snd]. destruct d2; [reflexivity|].
    now rewrite app_assoc.
Qed.

Lemma splitNewline_not_nil (s : string) : Js.splitNewline s <> [].
Proof.
  induction s as [|c s IH]; [discriminate|].
  cbn [Js.splitNewline]. destruct (Ascii.eqb c "010"%char); [discriminate|].
  now destruct (Js.splitNewline s).
Qed.

Lemma partialLine_after_newline (head : string) :
  partialLine (head ++ newline) = "".
Proof.
  rewrite (proj2 (completeLines_app head newline)).
  pose proof (partialLine_free head) as Hfree.
  revert Hfree. generalize (partialLine head). intros p Hfree.
  unfold partialLine.
  change (p ++ newline) with (p ++ newline ++ "").
  now rewrite (splitNewline_line _ _ Hfree).
Qed.

Lemma newlineFree_done : newlineFree "data: [DONE]".
Proof. cbn. repeat split. Qed.

(** The lines of a payload whose sentinel line starts a line. *)
Lemma completeLines_with_done (before after : string) :
  before = "" \/ (exists head : string, before = head ++ newline) ->
  completeLines (before ++ "data: [DONE]" ++ newline ++ after)
  = (completeLines before ++ "data: [DONE]" :: completeLines after)%list.
Proof.
  intros Hbefore.
  assert (Hpartial : partialLine before = "").
  { destruct Hbefore as [->|[head ->]]; [reflexivity|].
    apply partialLine_after_newline. }
  rewrite (proj1 (completeLines_app before _)), Hpartial.
  cbn [String.append]. f_equal.
  unfold completeLines.
  change (String "d" (String "a" (String "t" (String "a" (String ":"
            (String " " (String "[" (String "D" (String "O" (String "N"
            (String "E" (String "]" (newline ++ after)))))))))))))
    with ("data: [DONE]" ++ newline ++ after).
  rewrite (splitNewline_line _ _ newlineFree_done).
  pose proof (splitNewline_not_nil after).
  cbn [removelast]. now destruct (Js.splitNewline after).
Qed.

Lemma reaches_done (before after : string) :
  before = "" \/ (exists head : string, before = head ++ newline) ->
  reachesDone deltaContent (before ++ "data: [DONE]" ++ newline ++ after) = true
  /\ fragmentsOf deltaContent (before ++ "data: [DONE]" ++ newline ++ after)
     = fragmentsOf deltaContent before.
Proof.
  intros Hbefore. unfold reachesDone, fragmentsOf.
  rewrite (completeLines_with_done _ _ Hbefore), processLines_app.
  destruct (processLines deltaContent (completeLines before)) as [f d].
  cbn [fst snd]. destruct d; [now split|].
  cbn. now rewrite app_nil_r.
Qed.

(** C3.  The generator yields the same fragments, in the same order, and
    ends the same way whether a payload arrives cut into any sequence of
    reads or in one read.  And when the sentinel line [data: [DONE]] starts
    a line of what has been read, the generator ends there, without
    failure and with the reader released: the fragments are those of the
    text before the sentinel, whatever text follows it in the reads and
    whatever the later reads would have delivered. *)
Theorem generateResponse_reassembles_across_reads :
  forall (chunks : list string) (code : Z) (text : string),
    let respond (reads : list Read) : Outcome Response :=
      Returned {| ok := true; status := code; statusText := text;
                  body := Some reads |} in
    generateResponse deltaContent (respond (map Chunk chunks))
    = generateResponse deltaContent (respond [Chunk (concatChunks chunks)])
    /\ forall (before after : string) (later : list Read),
        before = "" \/ (exists head : string, before = head ++ newline) ->
        concatChunks chunks = before ++ "data: [DONE]" ++ newline ++ after ->
        generateResponse deltaContent
          (respond (map Chunk chunks ++ later)%list)
        = {| yielded :=
               yielded (generateResponse deltaContent (respond [Chunk before]));
             failure := None;
             released := 1 |}.
Proof.
  intros chunks code text respond. subst respond.
  unfold generateResponse. cbn [ok negb body].
  split.
  - rewrite <- (app_nil_r (map Chunk chunks)).
    change [Chunk (concatChunks chunks)]
      with (map Chunk [concatChunks chunks] ++ [])%list.
    rewrite !(readLoop_chunks _ [] "" I).
    cbn [concatChunks]. now rewrite string_app_nil_r.
  - intros before after later Hbefore Hpayload.
    change [Chunk before] with (map Chunk [before] ++ [])%list.
    rewrite !(readLoop_chunks _ _ "" I).
    cbn [concatChunks String.append]. rewrite string_app_nil_r, Hpayload.
    destruct (reaches_done before after Hbefore) as [-> ->].
    cbn [readLoop fst snd option_map yielded].
    destruct (reachesDone deltaContent before); cbn [yielded]; [reflexivity|].
    now rewrite app_nil_r.
Qed.

End StreamAccumulation.

Lemma generateResponse_reassembles_witness :
  LLMService.generateResponse (fun data => Some data)
    (Returned {| LLMService.ok := true; LLMService.status := 200;
                 LLMService.statusText := "OK";
                 LLMService.body :=
                   Some [LLMService.Chunk ("data: a" ++ newline ++ "da");
                         LLMService.Chunk ("ta: [DONE]" ++ newline ++ "rest");
                         LLMService.ReadError NotAnError] |})
  = {| LLMService.yielded := ["a"];
       LLMService.failure := None;
       LLMService.released := 1 |}.
Proof.
  exact (proj2 (generateResponse_reassembles_across_reads
                  (fun data => Some data)
                  ["data: a" ++ newline ++ "da";
                   "ta: [DONE]" ++ newline ++ "rest"] 200 "OK")
               ("data: a" ++ newline) "rest" [LLMService.ReadError NotAnError]
               (or_intror (ex_intro _ "data: a" eq_refl)) eq_refl).
Defined.

(** ** Failing requests *)

Section FailFast.

Import LLMService.

Variable deltaContent : string -> option string.

(** A response that is not [ok] makes the generator fail before any read:
    nothing is yielded and no reader is taken. *)
Lemma generateResponse_fails_before_yielding (response : Response) :
  ok response = false ->
  generateResponse deltaContent (Returned response)
  = {| yielded := [];
       failure := Some (createLLMError (newError
         ("HTTP " ++ Js.ofZ (status response) ++ ": " ++ statusText response)));
       released := 0 |}.
Proof. intros H. unfold generateResponse. now rewrite H. Qed.

(** The error carries the status line when none of the three numbers that
    [createLLMError] looks for occurs in it. *)
Lemma generateResponse_surfaces_other_statuses (response : Response) :
  ok response = false ->
  let line :=
    "HTTP " ++ Js.ofZ (status response) ++ ": " ++ statusText response in
  Js.includes "401" line = false ->
  Js.includes "429" line = false ->
  Js.includes "500" line = false ->
  generateResponse deltaContent (Returned response)
  = {| yielded := []; failure := Some (newError line); released := 0 |}.
Proof.
  intros Hok line H401 H429 H500.
  rewrite (generateResponse_fails_before_yielding _ Hok).
  fold line. unfold createLLMError, newError.
  now rewrite H401, H429, H500.
Qed.

(** C4 at the status 401.  The generator fails without yielding, but the
    error it surfaces is the fixed text that [createLLMError] substitutes,
    in which the status does not occur; the same holds at 429 and 500,
    while a status such as 404 is surfaced with its number. *)
Theorem generateResponse_unauthorized_error_drops_status :
  forall reads : option (list Read),
    generateResponse deltaContent
      (Returned {| ok := false; status := 401; statusText := "Unauthorized";
                   body := reads |})
    = {| yielded := [];
         failure := Some (newError
           "Authentication failed - please check your API key");
         released := 0 |}
    /\ Js.includes "401"
         "Authentication failed - please check your API key" = false
    /\ failure (generateResponse deltaContent
         (Returned {| ok := false; status := 429;
                      statusText := "Too Many Requests"; body := reads |}))
       = Some (newError "Rate limit exceeded - please try again later")
    /\ failure (generateResponse deltaContent
         (Returned {| ok := false; status := 500;
                      statusText := "Internal Server Error"; body := reads |}))
       = Some (newError "LLM service is temporarily unavailable")
    /\ failure (generateResponse deltaContent
         (Returned {| ok := false; status := 404;
                      statusText := "Not Found"; body := reads |}))
       = Some (newError "HTTP 404: Not Found").
Proof. intros reads. repeat split. Qed.

End FailFast.

(** ** Actions *)

Section Actions.

Import ChatManager.







Lemma pushCodeBlocks_map (blocks : list CodeBlock) :
  forall acc : list ChatAction,
    pushCodeBlocks blocks acc
    = (acc ++ map fileActionOf (filter isSubstantial blocks))%list.
Proof.
  induction blocks as [|b blocks IH]; intros acc.
  - cbn. now rewrite app_nil_r.
  - cbn [pushCodeBlocks filter]. rewrite IH.
    unfold isSubstantial at 2.
    destruct (language b) as [lang|] eqn:Elang; [|reflexivity].
    destruct ((Js.len (code b) >? 50) && negb (String.eqb lang "")).
    + unfold Js.push. cbn [map]. unfold fileActionOf at 2.
      rewrite Elang. cbn [languageText]. now rewrite <- app_assoc.
    + reflexivity.
Qed.

Lemma execAll_skips_plain_text (plain s : string) :
  backquoteFree plain ->
  forall pos : nat,
    execAll 0 pos (plain ++ s) = execAll 0 (pos + String.length plain) s.
Proof.
  induction plain as [|c plain IH]; intros Hfree pos.
  - cbn. now rewrite Nat.add_0_r.
  - destruct Hfree as [Hc Hfree].
    cbn [String.append execAll String.length].
    unfold matchAt. cbn [Js.startsWith]. rewrite Ascii.eqb_sym, Hc.
    cbn [andb]. rewrite (IH Hfree). f_equal. lia.
Qed.

Lemma execAll_skips_the_match (matched s : string) :
  forall pos : nat,
    execAll (String.length matched) pos (matched ++ s)
    = execAll 0 (pos + String.length matched) s.
Proof.
  induction matched as [|c matched IH]; intros pos.
  - cbn. now rewrite Nat.add_0_r.
  - cbn [String.append execAll String.length]. rewrite IH. f_equal. lia.
Qed.

Lemma spanWord_language (lang rest : string) :
  wordOnly lang ->
  spanWord (lang ++ newline ++ rest) = (lang, newline ++ rest).
Proof.
  induction lang as [|c lang IH]; intros Hword; [reflexivity|].
  destruct Hword as [Hc Hword].
  cbn [String.append spanWord]. rewrite Hc.
  change (lang ++ String "010"%char rest) with (lang ++ newline ++ rest).
  now rewrite (IH Hword).
Qed.

Lemma untilFence_code (block rest : string) :
  backquoteFree block ->
  untilFence (block ++ "```" ++ rest) = Some block.
Proof.
  induction block as [|c block IH]; intros Hfree; [reflexivity|].
  destruct Hfree as [Hc Hfree].
  cbn [String.append untilFence Js.startsWith].
  rewrite Ascii.eqb_sym, Hc. cbn [andb].
  change (block ++ String "`" (String "`" (String "`" rest)))
    with (block ++ "```" ++ rest).
  now rewrite (IH Hfree).
Qed.

Lemma matchAt_fenced (lang block rest : string) :
  wordOnly lang -> lang <> "" -> backquoteFree block ->
  matchAt (fenced lang block ++ rest)
  = Some (Some lang, block, String.length (fenced lang block)).
Proof.
  intros Hword Hlang Hfree. unfold matchAt, fenced.
  rewrite !string_app_assoc.
  cbn [String.append Js.startsWith Ascii.eqb Bool.eqb andb Js.drop].
  rewrite (spanWord_language _ _ Hword).
  cbn [newline String.append Ascii.eqb Bool.eqb andb].
  change (block ++ String "`" (String "`" (String "`" rest)))
    with (block ++ "```" ++ rest).
  rewrite (untilFence_code _ _ Hfree).
  destruct (String.eqb_spec lang "") as [->|_]; [congruence|].
  do 2 f_equal.
  cbn [String.length]. rewrite string_length_app. cbn [String.length].
  rewrite string_length_app. cbn [String.length]. lia.
Qed.

(** A fenced block that follows text without backquotes, and whose language
    is made of word characters and whose code has no backquote, is the
    first match of the scan, at its position; the scan goes on behind its
    closing fence. *)
Lemma execAll_finds_fenced_block (plain lang block rest : string) :
  backquoteFree plain -> wordOnly lang -> lang <> "" -> backquoteFree block ->
  execAll 0 0 (plain ++ fenced lang block ++ rest)
  = {| index := String.length plain; language := Some lang; code := block |}
      :: execAll 0 (String.length plain + String.length (fenced lang block))
           rest.
Proof.
  intros Hplain Hword Hlang Hfree.
  rewrite (execAll_skips_plain_text _ _ Hplain). cbn [Nat.add].
  pose proof (matchAt_fenced lang block rest Hword Hlang Hfree) as Hmatch.
  remember (fenced lang block) as matched eqn:Ematched.
  destruct matched as [|c matched].
  { unfold fenced in Ematched. discriminate. }
  cbn [String.append execAll]. cbn [String.append] in Hmatch.
  rewrite Hmatch. f_equal. cbn [String.length].
  rewrite Nat.sub_succ, Nat.sub_0_r.
  rewrite execAll_skips_the_match. f_equal. lia.
Qed.



(** Such a block with more than 50 characters of code yields the first
    action. *)
Lemma extractActions_first_file_action
  (plain lang block rest : string) (assistantMessage : ChatMessage) :
  backquoteFree plain -> wordOnly lang -> lang <> "" -> backquoteFree block ->
  50 < Js.len block ->
  content assistantMessage = plain ++ fenced lang block ++ rest ->
  exists others : list ChatAction,
    extractActions assistantMessage
    = createFileAction lang block :: others.
Proof.
  intros Hplain Hword Hlang Hfree Hlong Hcontent.
  unfold extractActions. rewrite Hcontent.
  rewrite (execAll_finds_fenced_block _ _ _ _ Hplain Hword Hlang Hfree).
  rewrite pushCodeBlocks_map. cbn [filter List.app].
  assert (Hsubstantial :
            isSubstantial {| index := String.length plain;
                             language := Some lang;
                             code := block |} = true).
  { unfold isSubstantial. cbn [language code].
    apply Z.ltb_lt in Hlong. rewrite Z.gtb_ltb, Hlong.
    now destruct (String.eqb_spec lang "") as [->|_]. }
  rewrite Hsubstantial. cbn [map]. unfold fileActionOf at 1.
  cbn [language code languageText].
  destruct (_ && _); eexists; reflexivity.
Qed.

(** The pattern takes a language of word characters that a newline follows
    at once: a fence such as the one below, whose language has other
    characters, is no match, and yields no action. *)
Example extractActions_skips_other_fences :
  extractActions
    (sampleMessage "a2" assistant
       ("```c++" ++ newline ++ Js.repeat "x" 51 ++ "```"))
  = [].
Proof. vm_compute. reflexivity. Qed.

End Actions.

(** ** The gate *)

Section Gate.

Import ChatManager.

Variable env : Env.
Variable config : ChatManagerConfig.

(** An error response: an assistant message that carries the apology, the
    error record, and no suggestions or actions.  Building it reads the
    clock three times and changes nothing else. *)
Lemma createErrorResponse_run (msg : string) (ty : ErrorType) (w : World) :
  exists resp : ChatResponse,
    createErrorResponse env msg ty w = (Returned resp, tick (tick (tick w)))
    /\ role (responseMessage resp) = assistant
    /\ content (responseMessage resp) = apology msg
    /\ error resp = Some (errorInfo ty msg)
    /\ suggestions resp = None
    /\ actions resp = None.
Proof. eexists. repeat split. Qed.

(** C1, as the code has it.  A call made while the flag is set returns at
    once an error response: an assistant message with the apology, and an
    error of type [system], hence marked retryable, that says another
    message is being processed.  The world it leaves is the one it found
    but for three readings of the clock (the identifier and the time of
    the message): the flag stays set, and the conversation, the delays and
    the generation calls are as they were, so that nothing of the request
    in flight is touched. *)
Theorem sendMessage_rejects_while_processing :
  forall (text : string) (ctx : option ChatContext) (w : World),
    isProcessing w = true ->
    exists (resp : ChatResponse) (w' : World),
      sendMessage env config text ctx w = (Returned resp, w')
      /\ error resp
         = Some {| type := system;
                   message := "Another message is currently being processed";
                   errorCode := None;
                   retryable := true |}
      /\ role (responseMessage resp) = assistant
      /\ content (responseMessage resp)
         = apology "Another message is currently being processed"
      /\ w' = tick (tick (tick w))
      /\ isProcessing w' = true
      /\ currentConversation w' = currentConversation w
      /\ sleeps w' = sleeps w
      /\ llmCalls w' = llmCalls w.
Proof.
  intros text ctx w Hbusy.
  destruct (createErrorResponse_run
              "Another message is currently being processed" system w)
    as (resp & Hrun & Hrole & Hcontent & Herror & _).
  exists resp, (tick (tick (tick w))).
  split.
  - unfold sendMessage, bind, gets. now rewrite Hbusy.
  - repeat split; auto.
Qed.

End Gate.

Lemma sendMessage_rejects_while_processing_witness :
  exists (resp : ChatResponse) (w' : World),
    ChatManager.sendMessage (scriptedEnv alwaysFail) ChatManager.defaultConfig
      "Second message" None busyWorld = (Returned resp, w')
    /\ error resp
       = Some {| type := system;
                 message := "Another message is currently being processed";
                 errorCode := None;
                 retryable := true |}
    /\ currentConversation w' = currentConversation busyWorld.
Proof.
  destruct (sendMessage_rejects_while_processing
              (scriptedEnv alwaysFail) ChatManager.defaultConfig
              "Second message" None busyWorld eq_refl)
    as (resp & w' & Hrun & Herror & _ & _ & _ & _ & Hconv & _).
  exists resp, w'. repeat split; assumption.
Defined.

(** C1 as stated fails on the class of the error: the rejection of a second
    request is of type [system], not [validation], and it is marked
    retryable. *)
Lemma sendMessage_busy_error_is_system_and_retryable :
  exists (resp : ChatResponse) (w' : World),
    ChatManager.sendMessage (scriptedEnv alwaysFail) ChatManager.defaultConfig
      "Second message" None busyWorld = (Returned resp, w')
    /\ option_map type (error resp) = Some system
    /\ option_map type (error resp) <> Some validation
    /\ option_map retryable (error resp) = Some true
    /\ option_map retryable (error resp) <> Some false.
Proof.
  eexists. eexists. split; [reflexivity|].
  cbn. repeat split; discriminate.
Qed.

(** ** The retry loop *)

Section Retry.

Import ChatManager.

Variable config : ChatManagerConfig.

Lemma delaysFrom_seq (count : nat) :
  forall k : nat,
    delaysFrom config (Z.of_nat k) count
    = map (fun i => retryDelay config * Z.of_nat i) (seq k count).
Proof.
  induction count as [|c IH]; intros k; [reflexivity|].
  cbn [delaysFrom seq map]. f_equal.
  replace (Z.of_nat k + 1) with (Z.of_nat (S k)) by lia. apply IH.
Qed.

Section Operation.

Context {A : Type}.
Variable operation : M A.

Lemma retryFrom_success (remaining : nat) (attempt : Z)
  (lastError : option Thrown) (w w' : World) (a : A) :
  operation w = (Returned a, w') ->
  retryFrom config operation (S remaining) attempt lastError w
  = (Returned a, w').
Proof. intros H. cbn [retryFrom]. unfold tryCatch. now rewrite H. Qed.

Lemma retryFrom_failure (remaining : nat) (attempt : Z)
  (lastError : option Thrown) (w w' : World) (e : Thrown) :
  operation w = (Threw e, w') ->
  retryFrom config operation (S remaining) attempt lastError w
  = retryFrom config operation remaining (attempt + 1) (Some (asError e))
      (if attempt <? retryAttempts config
       then addSleep (retryDelay config * attempt) w'
       else w').
Proof.
  intros H. cbn [retryFrom]. unfold tryCatch. rewrite H.
  unfold bind, delay, modify, ret, asError.
  now destruct (attempt <? retryAttempts config), e.
Qed.

(** The loop when every run of the operation fails, counts itself in
    [llmCalls], throws the error [errorAt] gives for its number, and awaits
    nothing by itself. *)
Lemma retryFrom_always_failing (errorAt : nat -> Thrown) :
  (forall w : World,
      exists w' : World,
        operation w = (Threw (errorAt (llmCalls w)), w')
        /\ llmCalls w' = S (llmCalls w)
        /\ sleeps w' = sleeps w) ->
  forall (remaining : nat) (attempt : Z) (lastError : option Thrown)
         (w : World),
    attempt + Z.of_nat remaining = retryAttempts config ->
    exists w' : World,
      retryFrom config operation (S remaining) attempt lastError w
      = (Threw (asError (errorAt (llmCalls w + remaining)%nat)), w')
      /\ llmCalls w' = (llmCalls w + S remaining)%nat
      /\ sleeps w' = (sleeps w ++ delaysFrom config attempt remaining)%list.
Proof.
  intros Hop remaining.
  induction remaining as [|n IH]; intros attempt lastError w Hattempt.
  - destruct (Hop w) as (w1 & Hrun & Hcalls & Hsleeps).
    rewrite (retryFrom_failure _ _ _ _ _ _ Hrun).
    destruct (Z.ltb_spec attempt (retryAttempts config)) as [Hlt|_]; [lia|].
    exists w1. cbn [retryFrom delaysFrom]. unfold throw.
    rewrite Nat.add_0_r, app_nil_r. repeat split; auto; lia.
  - destruct (Hop w) as (w1 & Hrun & Hcalls & Hsleeps).
    rewrite (retryFrom_failure _ _ _ _ _ _ Hrun).
    destruct (Z.ltb_spec attempt (retryAttempts config)) as [_|Hge]; [|lia].
    destruct (IH (attempt + 1) (Some (asError (errorAt (llmCalls w))))
                 (addSleep (retryDelay config * attempt) w1) ltac:(lia))
      as (w' & Hrest & Hcalls' & Hsleeps').
    exists w'. rewrite Hrest.
    cbn [llmCalls sleeps addSleep] in *.
    rewrite Hcalls', Hsleeps', Hcalls, Hsleeps. unfold Js.push.
    cbn [delaysFrom]. rewrite <- app_assoc.
    replace (S (llmCalls w) + n)%nat with (llmCalls w + S n)%nat by lia.
    repeat split; auto; lia.
Qed.

(** The loop never runs an operation that counts itself more often than
    there are iterations left. *)
Lemma retryFrom_bounded :
  (forall w : World, llmCalls (snd (operation w)) = S (llmCalls w)) ->
  forall (remaining : nat) (attempt : Z) (lastError : option Thrown)
         (w : World),
    (llmCalls (snd (retryFrom config operation remaining attempt lastError w))
     <= llmCalls w + remaining)%nat.
Proof.
  intros Hop remaining.
  induction remaining as [|n IH]; intros attempt lastError w.
  - cbn. lia.
  - pose proof (Hop w) as Hcalls.
    destruct (operation w) as [[a|e] w1] eqn:Hrun; cbn [snd] in Hcalls.
    + rewrite (retryFrom_success _ _ _ _ _ _ Hrun). cbn [snd]. lia.
    + rewrite (retryFrom_failure _ _ _ _ _ _ Hrun).
      etransitivity; [apply IH|].
      destruct (attempt <? retryAttempts config); cbn [llmCalls addSleep]; lia.
Qed.

(** C7.  With three attempts, an operation that fails, fails again after
    the first delay and succeeds after the second, the delays being the
    base delay times 1 and times 2, makes the loop return that success.
    An operation that fails at every run makes the loop run it exactly as
    many times as there are attempts, await the base delay times the
    attempt number after each failed attempt but the last, and throw the
    error of the last run (an [Error] object as it is).  The loop never
    runs the operation more often than the configured number of attempts,
    and with no attempt configured it runs nothing. *)
Theorem withRetry_linear_backoff :
  let attempts := Z.to_nat (retryAttempts config) in
  (retryAttempts config = 3 ->
   forall (w0 w1 w2 w3 : World) (e1 e2 : Thrown) (a : A),
     operation w0 = (Threw e1, w1) ->
     operation (addSleep (retryDelay config * 1) w1) = (Threw e2, w2) ->
     operation (addSleep (retryDelay config * 2) w2) = (Returned a, w3) ->
     withRetry config operation w0 = (Returned a, w3))
  /\ (forall errorAt : nat -> Thrown,
         (forall w : World,
             exists w' : World,
               operation w = (Threw (errorAt (llmCalls w)), w')
               /\ llmCalls w' = S (llmCalls w)
               /\ sleeps w' = sleeps w) ->
         1 <= retryAttempts config ->
         forall w0 : World,
           exists w' : World,
             withRetry config operation w0
             = (Threw (asError (errorAt (llmCalls w0 + attempts - 1)%nat)), w')
             /\ llmCalls w' = (llmCalls w0 + attempts)%nat
             /\ sleeps w'
                = (sleeps w0
                     ++ map (fun i => retryDelay config * Z.of_nat i)
                          (seq 1 (attempts - 1)))%list
             /\ (forall name msg : string,
                    errorAt (llmCalls w0 + attempts - 1)%nat = ErrorObj name msg ->
                    withRetry config operation w0 = (Threw (ErrorObj name msg), w')))
  /\ ((forall w : World, llmCalls (snd (operation w)) = S (llmCalls w)) ->
      forall w0 : World,
        (llmCalls (snd (withRetry config operation w0))
         <= llmCalls w0 + attempts)%nat)
  /\ (retryAttempts config <= 0 ->
      forall w0 : World,
        withRetry config operation w0
        = (Threw (newError "All retry attempts failed"), w0)).
Proof.
  intros attempts. split; [|split; [|split]].
  - intros H3 w0 w1 w2 w3 e1 e2 a Hrun1 Hrun2 Hrun3.
    unfold withRetry. rewrite H3.
    change (Z.to_nat 3) with 3%nat.
    rewrite (retryFrom_failure _ _ _ _ _ _ Hrun1), H3.
    change (1 <? 3) with true. cbv iota.
    rewrite (retryFrom_failure _ _ _ _ _ _ Hrun2), H3.
    change (1 + 1 <? 3) with true. cbv iota.
    change (1 + 1) with 2.
    apply (retryFrom_success _ _ _ _ _ _ Hrun3).
  - intros errorAt Hop Hpos w0.
    unfold withRetry.
    replace (Z.to_nat (retryAttempts config)) with (S (attempts - 1))
      by (subst attempts; lia).
    destruct (retryFrom_always_failing errorAt Hop (attempts - 1) 1 None w0
                ltac:(subst attempts; lia))
      as (w' & Hrun & Hcalls & Hsleeps).
    exists w'.
    replace (llmCalls w0 + attempts - 1)%nat
      with (llmCalls w0 + (attempts - 1))%nat by lia.
    split; [exact Hrun|]. split; [lia|]. split.
    + rewrite Hsleeps. f_equal. apply (delaysFrom_seq (attempts - 1) 1).
    + intros name msg Herr. rewrite Hrun, Herr. reflexivity.
  - intros Hop w0. unfold withRetry. apply (retryFrom_bounded Hop).
  - intros Hnone w0. unfold withRetry.
    replace (Z.to_nat (retryAttempts config)) with 0%nat by lia.
    reflexivity.
Qed.

End Operation.

End Retry.

Lemma withRetry_linear_backoff_witness :
  ChatManager.withRetry ChatManager.defaultConfig thirdTimeLucky idleWorld
  = (Returned "Success after retry",
     {| isProcessing := false;
        currentConversation := Some emptyConversation;
        clock := 0;
        sleeps := [1000; 2000];
        llmCalls := 3 |})
  /\ exists w' : World,
      ChatManager.withRetry ChatManager.defaultConfig countingFailure idleWorld
      = (Threw (newError "failure 2"), w')
      /\ llmCalls w' = 3%nat
      /\ sleeps w' = [1000; 2000].
Proof.
  split.
  - apply (proj1 (withRetry_linear_backoff
                    ChatManager.defaultConfig thirdTimeLucky) eq_refl
             idleWorld (countLlmCall idleWorld)
             (countLlmCall (addSleep 1000 (countLlmCall idleWorld)))
             _ (newError "Network error") (newError "Network error"));
      reflexivity.
  - destruct (proj1 (proj2 (withRetry_linear_backoff
                              ChatManager.defaultConfig countingFailure))
                (fun k => newError ("failure " ++ Js.ofZ (Z.of_nat k))))
      with (w0 := idleWorld) as (w' & Hrun & Hcalls & Hsleeps & _).
    + intros w. exists (countLlmCall w). repeat split.
    + cbn. lia.
    + exists w'. repeat split; assumption.
Defined.

(** ** The responses of the pipeline are well formed *)

Section Propagation.

Import ChatManager.

Variable env : Env.
Variable config : ChatManagerConfig.

Lemma yields_ret {A} (a : A) (P : A -> Prop) : P a -> yields (ret a) P.
Proof. intros H w w' b [= <- _]. exact H. Qed.

Lemma yields_throw {A} (e : Thrown) (P : A -> Prop) : yields (throw e) P.
Proof. intros w w' b. discriminate. Qed.

Lemma yields_bind {A B} (c : M A) (k : A -> M B)
  (P : A -> Prop) (Q : B -> Prop) :
  yields c P -> (forall a, P a -> yields (k a) Q) -> yields (bind c k) Q.
Proof.
  intros Hc Hk w w' b. unfold bind.
  destruct (c w) as [[a|e] w1] eqn:Hrun; [|discriminate].
  apply (Hk a (Hc _ _ _ Hrun)).
Qed.

Lemma yields_any {A} (c : M A) : yields c (fun _ => True).
Proof. intros w w' a _. exact I. Qed.

Lemma yields_tryCatch {A} (body : M A) (handler : Thrown -> M A)
  (P : A -> Prop) :
  yields body P -> (forall e, yields (handler e) P) ->
  yields (tryCatch body handler) P.
Proof.
  intros Hbody Hhandler w w' a. unfold tryCatch.
  destruct (body w) as [[b|e] w1] eqn:Hrun.
  - intros [= <- <-]. apply (Hbody _ _ _ Hrun).
  - apply Hhandler.
Qed.

Lemma createMessage_yields (r : Role) (text : string) :
  yields (createMessage env r text)
         (fun m => role m = r /\ content m = text).
Proof.
  intros w w' m H.
  unfold createMessage, generateMessageId, bind, observe, ret in H.
  injection H as <- _. now split.
Qed.

Lemma generateResponse_yields (userMessage : ChatMessage) :
  yields (ChatManager.generateResponse env config userMessage)
         (fun m => role m = assistant).
Proof.
  unfold ChatManager.generateResponse.
  do 7 (eapply yields_bind; [apply yields_any|]; intros ? _).
  eapply yields_bind; [apply createMessage_yields|].
  intros m [Hrole _].
  eapply yields_bind; [apply yields_any|]. intros tokens _.
  now apply yields_ret.
Qed.

Lemma retryFrom_yields {A} (operation : M A) (P : A -> Prop) :
  yields operation P ->
  forall (remaining : nat) (attempt : Z) (lastError : option Thrown),
    yields (retryFrom config operation remaining attempt lastError) P.
Proof.
  intros Hop remaining.
  induction remaining as [|n IH]; intros attempt lastError.
  - apply yields_throw.
  - cbn [retryFrom]. apply yields_tryCatch; [exact Hop|].
    intros e. eapply yields_bind; [apply yields_any|].
    intros _ _. apply IH.
Qed.

Lemma createErrorResponse_yields (msg : string) (ty : ErrorType) :
  ty = validation \/ ty = system ->
  yields (createErrorResponse env msg ty) wellFormed.
Proof.
  intros Hty w w' resp H.
  destruct (createErrorResponse_run env msg ty w)
    as (resp' & Hrun & Hrole & Hcontent & Herror & Hsugg & Hact).
  rewrite Hrun in H. injection H as <- _.
  unfold wellFormed. rewrite Herror. cbn [errorInfo message type retryable].
  repeat split; auto.
Qed.

Lemma sendMessageTry_yields (text : string) (ctx : option ChatContext) :
  yields (sendMessageTry env config text ctx) wellFormed.
Proof.
  unfold sendMessageTry.
  eapply yields_bind; [apply yields_any|]. intros checked _.
  destruct (negb (isValid checked)).
  - apply createErrorResponse_yields. now left.
  - do 3 (eapply yields_bind; [apply yields_any|]; intros ? _).
    eapply yields_bind.
    { unfold generateResponseWithRetry, withRetry.
      apply retryFrom_yields, generateResponse_yields. }
    intros assistantMessage Hrole.
    do 2 (eapply yields_bind; [apply yields_any|]; intros ? _).
    apply yields_ret. unfold wellFormed. cbn. auto.
Qed.

End Propagation.

(** ** Runs of the pipeline *)

(** The generator yields two fragments: the reply is their concatenation,
    without error, and the history holds the two turns. *)
Example sendMessage_joins_the_fragments :
  observed (ChatManager.sendMessage
              (scriptedEnv (fun _ => (["Hello "; "world!"], None)))
              ChatManager.defaultConfig "Hello, how are you?" None idleWorld)
  = Some ("Hello world!", None, [], 1%nat, false, 2%nat).
Proof. vm_compute. reflexivity. Qed.

(** Two failed generations, then a success, under three attempts. *)
Example sendMessage_succeeds_after_two_failures :
  observed (ChatManager.sendMessage (scriptedEnv failTwiceThenSucceed)
              ChatManager.defaultConfig "Test message" None idleWorld)
  = Some ("Success after retry", None, [1000; 2000], 3%nat, false, 2%nat).
Proof. vm_compute. reflexivity. Qed.

(** A generation that fails at every attempt: a [system] error after
    three calls, and the flag released. *)
Example sendMessage_reports_exhausted_retries :
  observed (ChatManager.sendMessage (scriptedEnv alwaysFail)
              ChatManager.defaultConfig "Test message" None idleWorld)
  = Some ("I apologize, but I encountered an error: "
            ++ "LLM generation failed: Persistent error",
          Some (system, "LLM generation failed: Persistent error"),
          [1000; 2000], 3%nat, false, 1%nat).
Proof. vm_compute. reflexivity. Qed.

(** A rejected request: a [validation] error, and no generation call. *)
Example sendMessage_blocks_a_rejected_request :
  observed (ChatManager.sendMessage rejectingEnv
              ChatManager.defaultConfig "rm -rf /" None idleWorld)
  = Some ("I apologize, but I encountered an error: "
            ++ "Message blocked: Dangerous content detected",
          Some (validation, "Message blocked: Dangerous content detected"),
          [], 0%nat, false, 0%nat).
Proof. vm_compute. reflexivity. Qed.

(** Without a current conversation the append throws, and the throw is
    turned into a [system] error. *)
Example sendMessage_reports_a_missing_conversation :
  observed (ChatManager.sendMessage (scriptedEnv alwaysFail)
              ChatManager.defaultConfig "Test message" None
              (setConversation None idleWorld))
  = Some ("I apologize, but I encountered an error: No active conversation",
          Some (system, "No active conversation"),
          [], 0%nat, false, 0%nat).
Proof. vm_compute. reflexivity. Qed.

(** The truncation that [optimizePrompt] records is not in what
    [optimizeForTokenLimits] returns: the context comes back whole. *)
Example optimizeForTokenLimits_discards_the_truncation :
  let svc := {| LLMService.tokenManager :=
                  {| TokenManager.maxTokens := 5;
                     TokenManager.contextWindow := 100;
                     TokenManager.maxContextTokens := 70 |} |} in
  TokenManager.removedContent
    (TokenManager.optimizePrompt (LLMService.tokenManager svc)
       "" tailSampleContext None)
  = ["Truncated 5 characters from context"]
  /\ LLMService.optimizedContext
       (LLMService.optimizeForTokenLimits svc "" tailSampleContext [])
     = tailSampleContext.
Proof. vm_compute. split; reflexivity. Qed.

(** ** Rejections and exhausted retries in the pipeline *)

Section PipelineFailures.

Variable env : Env.
Variable config : ChatManager.ChatManagerConfig.

(** A request that the validator rejects is answered by a [validation]
    error that lists the validator's errors; the conversation is not
    touched and no generation call is made. *)
Lemma sendMessage_blocks_invalid_request
  (text : string) (ctx : option ChatContext) (w : World)
  (checked : ValidationResult) :
  isProcessing w = false ->
  ChatManager.enableSafetyFilter config = true ->
  validateRequest env text (clock w) = Returned checked ->
  isValid checked = false ->
  exists (resp : ChatResponse) (w' : World),
    ChatManager.sendMessage env config text ctx w = (Returned resp, w')
    /\ error resp
       = Some {| type := validation;
                 message := "Message blocked: "
                              ++ Js.join ", " (errors checked);
                 errorCode := None;
                 retryable := false |}
    /\ isProcessing w' = false
    /\ currentConversation w' = currentConversation w
    /\ llmCalls w' = llmCalls w.
Proof.
  intros Hidle Hfilter Hcheck Hinvalid.
  unfold ChatManager.sendMessage, bind at 1, gets. rewrite Hidle.
  unfold bind at 1, modify at 1, tryFinally, tryCatch,
    ChatManager.sendMessageTry.
  rewrite Hfilter. unfold bind at 1, call at 1.
  cbn [clock setProcessing]. rewrite Hcheck, Hinvalid. cbn [negb].
  destruct (createErrorResponse_run env
              ("Message blocked: " ++ Js.join ", " (errors checked))
              validation (tick (setProcessing true w)))
    as (resp & Hrun & _ & _ & Herror & _).
  rewrite Hrun. eexists. eexists. split; [reflexivity|].
  repeat split. exact Herror.
Qed.

Lemma bind_returned {A B} (c : M A) (k : A -> M B) (w w' : World) (a : A) :
  c w = (Returned a, w') -> bind c k w = k a w'.
Proof. intros H. unfold bind. now rewrite H. Qed.

Lemma bind_threw {A B} (c : M A) (k : A -> M B) (w w' : World) (e : Thrown) :
  c w = (Threw e, w') -> bind c k w = (Threw e, w').
Proof. intros H. unfold bind. now rewrite H. Qed.

(** Building the context string never throws and changes nothing but the
    clock. *)
Lemma buildContextString_run (userMessage : ChatMessage) (w : World) :
  exists (contextString : string) (w' : World),
    ChatManager.buildContextString env userMessage w
    = (Returned contextString, w')
    /\ isProcessing w' = isProcessing w
    /\ currentConversation w' = currentConversation w
    /\ sleeps w' = sleeps w
    /\ llmCalls w' = llmCalls w.
Proof.
  unfold ChatManager.buildContextString, bind, tryCatch, call,
    ChatManager.getRecentHistory, ConversationStateManager.getMessages,
    gets, ret.
  destruct (getRelevantContext env (content userMessage) (clock w));
    eexists; eexists; (split; [reflexivity|]); repeat split.
Qed.

(** One run of [generateResponse] when the token optimisation answers and
    the generation call fails: the run throws the wrapped error of that
    call and counts one generation call. *)
Lemma generateResponse_failing_run (failAt : nat -> Thrown)
  (userMessage : ChatMessage) :
  (forall (prompt ctx : string) (history : list ChatMessage) (time : nat),
      exists o : LLMService.Optimized,
        optimizeForTokenLimits env prompt ctx history time = Returned o) ->
  (forall (k : nat) (prompt ctx : string),
      exists chunks : list string,
        generateResponse env k prompt ctx = (chunks, Some (failAt k))) ->
  forall w : World,
    exists w' : World,
      ChatManager.generateResponse env config userMessage w
      = (Threw (newError
                  ("LLM generation failed: "
                     ++ ChatManager.messageOr "Unknown error"
                          (failAt (llmCalls w)))),
         w')
      /\ llmCalls w' = S (llmCalls w)
      /\ sleeps w' = sleeps w.
Proof.
  intros Hopt Hfail w.
  unfold ChatManager.generateResponse.
  destruct (buildContextString_run userMessage w)
    as (contextString & w1 & Hbuild & _ & _ & Hsleeps1 & Hcalls1).
  rewrite (bind_returned _ _ _ _ _ Hbuild).
  erewrite bind_returned by reflexivity.
  match goal with
  | |- context [call (optimizeForTokenLimits env ?p ?c ?h)] =>
      destruct (Hopt p c h (clock w1)) as [o Ho]
  end.
  erewrite bind_returned by (unfold call; rewrite Ho; reflexivity).
  erewrite bind_returned by reflexivity.
  destruct (Hfail (llmCalls w1) (LLMService.optimizedPrompt o)
              (LLMService.optimizedContext o)) as [chunks Hgen].
  erewrite bind_threw.
  2:{ unfold tryCatch, ChatManager.collectChunks. cbn [llmCalls tick].
      rewrite Hgen. reflexivity. }
  eexists. split; [rewrite Hcalls1; reflexivity|].
  cbn [llmCalls sleeps countLlmCall tick]. split; congruence.
Qed.

(** The retry loop of the pipeline under a generation that fails at every
    call: it makes exactly [retryAttempts] generation calls, awaits
    [retryDelay] times the attempt number after each attempt but the last,
    and throws the wrapped error of the last call. *)
Lemma generateResponseWithRetry_exhausts_attempts (failAt : nat -> Thrown)
  (userMessage : ChatMessage) :
  (forall (prompt ctx : string) (history : list ChatMessage) (time : nat),
      exists o : LLMService.Optimized,
        optimizeForTokenLimits env prompt ctx history time = Returned o) ->
  (forall (k : nat) (prompt ctx : string),
      exists chunks : list string,
        generateResponse env k prompt ctx = (chunks, Some (failAt k))) ->
  1 <= ChatManager.retryAttempts config ->
  forall w : World,
    let attempts := Z.to_nat (ChatManager.retryAttempts config) in
    exists w' : World,
      ChatManager.generateResponseWithRetry env config userMessage w
      = (Threw (newError
                  ("LLM generation failed: "
                     ++ ChatManager.messageOr "Unknown error"
                          (failAt (llmCalls w + (attempts - 1))%nat))),
         w')
      /\ llmCalls w' = (llmCalls w + attempts)%nat
      /\ sleeps w'
         = (sleeps w
              ++ map (fun i => ChatManager.retryDelay config * Z.of_nat i)
                   (seq 1 (attempts - 1)))%list.
Proof.
  intros Hopt Hfail Hpos w attempts.
  unfold ChatManager.generateResponseWithRetry, ChatManager.withRetry.
  replace (Z.to_nat (ChatManager.retryAttempts config))
    with (S (attempts - 1)) by (subst attempts; lia).
  destruct (retryFrom_always_failing config
              (ChatManager.generateResponse env config userMessage)
              (fun k => newError
                 ("LLM generation failed: "
                    ++ ChatManager.messageOr "Unknown error" (failAt k)))
              (generateResponse_failing_run failAt userMessage Hopt Hfail)
              (attempts - 1) 1 None w ltac:(subst attempts; lia))
    as (w' & Hrun & Hcalls & Hsleeps).
  exists w'. split; [exact Hrun|]. split; [lia|].
  rewrite Hsleeps. f_equal. apply (delaysFrom_seq config (attempts - 1) 1).
Qed.

End PipelineFailures.

(** * Further properties *)

(** ** Token estimates of concatenations, and savings of the prompt optimiser *)

Section TokenSavings.

Import TokenManager.

Lemma estimateTokens_monotone (a b : string) :
  Js.len a <= Js.len b -> estimateTokens a <= estimateTokens b.
Proof.
  intros H. rewrite !estimateTokens_div. apply Z.div_le_mono; lia.
Qed.

(** The estimate of a concatenation is at least the estimate of each part
    and at most the sum of the two: estimating a prompt and a context
    together never costs more than estimating them apart, and may cost
    less. *)
Theorem estimateTokens_of_concatenation :
  forall a b : string,
    estimateTokens a <= estimateTokens (a ++ b)
    /\ estimateTokens b <= estimateTokens (a ++ b)
    /\ estimateTokens (a ++ b) <= estimateTokens a + estimateTokens b
    /\ estimateTokens a + estimateTokens b <= estimateTokens (a ++ b) + 1.
Proof.
  intros a b.
  assert (Ha : 0 <= Js.len a) by (unfold Js.len; lia).
  assert (Hb : 0 <= Js.len b) by (unfold Js.len; lia).
  rewrite !estimateTokens_div, len_app.
  revert Ha Hb. generalize (Js.len a) (Js.len b). intros x y Hx Hy.
  Z.div_mod_to_equations. lia.
Qed.

Lemma length_drop_le (n : nat) (s : string) :
  (String.length (Js.drop n s) <= String.length s)%nat.
Proof.
  revert s; induction n as [|n IH]; intros [|c s]; cbn; try lia.
  specialize (IH s). lia.
Qed.

Lemma unlines_linesOf (s : string) : unlines (linesOf s) = s.
Proof.
  induction s as [|c s IH]; [reflexivity|].
  cbn [linesOf]. destruct (Js.isLineTerminator c).
  - cbn [unlines String.append]. now rewrite IH.
  - destruct (linesOf s) as [|[l [e|]] ls]; cbn [unlines String.append] in *;
      now rewrite IH.
Qed.

Lemma unlines_blanked_length (isMatch : string -> bool)
  (ls : list (string * option ascii)) :
  (String.length
     (unlines (map (fun le => if isMatch (fst le) then ("", snd le) else le)
                   ls))
   <= String.length (unlines ls))%nat.
Proof.
  induction ls as [|[l e] ls IH]; [cbn; lia|].
  cbn [map fst snd]. destruct (isMatch l), e;
    cbn [unlines]; rewrite ?string_length_app; cbn [String.length String.append];
    lia.
Qed.

Lemma removeLines_length (isMatch : string -> bool) (s : string) :
  Js.len (removeLines isMatch s) <= Js.len s.
Proof.
  unfold removeLines, Js.len.
  pose proof (unlines_blanked_length isMatch (linesOf s)) as H.
  rewrite (unlines_linesOf s) in H. lia.
Qed.

Lemma removeNonEssentialContent_length
  (context : string) (owed : Z) (removedContent : list string) :
  Js.len (fst (removeNonEssentialContent context owed removedContent))
  <= Js.len context.
Proof.
  unfold removeNonEssentialContent.
  pose proof (removeLines_length isCommentLine context) as Hcomments.
  pose proof (compressed_whitespace_never_longer context) as Hspace0.
  pose proof (compressed_whitespace_never_longer
                (removeLines isCommentLine context)) as Hspace1.
  repeat (match goal with
          | |- context [match ?x with _ => _ end] =>
              lazymatch x with
              | context [match _ with _ => _ end] => fail
              | _ => destruct x
              end
          end; cbn beta iota zeta).
  all: cbn [fst].
  all: try match goal with
           | |- Js.len (removeLines isImportLine ?t) <= _ =>
               pose proof (removeLines_length isImportLine t)
           end.
  all: lia.
Qed.

(** [removeNonEssentialContent] hands back a text that is no longer than
    the one it was given, and a removal log that is the given one with
    entries added at its end: no strategy of it adds characters to the
    context, and none rewrites what was recorded before. *)
Theorem removeNonEssentialContent_never_lengthens :
  forall (context : string) (owed : Z) (removedContent : list string),
    Js.len (fst (removeNonEssentialContent context owed removedContent))
    <= Js.len context
    /\ estimateTokens (fst (removeNonEssentialContent context owed removedContent))
       <= estimateTokens context
    /\ exists more : list string,
        snd (removeNonEssentialContent context owed removedContent)
        = (removedContent ++ more)%list.
Proof.
  intros context owed removedContent.
  pose proof (removeNonEssentialContent_length context owed removedContent).
  split; [assumption|]. split.
  - now apply estimateTokens_monotone.
  - apply removeNonEssentialContent_extends.
Qed.

Lemma truncateContext_length (r : Reduction) :
  Js.len (optimizedContext (truncateContext r)) <= Js.len (optimizedContext r).
Proof.
  unfold truncateContext.
  destruct (tokensToSave r >? 0); [|lia].
  destruct (estimateTokens (optimizedContext r) >? tokensToSave r); [|lia].
  cbn [optimizedContext]. unfold Js.substringFrom, Js.len.
  pose proof (length_drop_le
                (Js.clampIndex (optimizedContext r)
                   (estimateTokens (optimizedContext r)
                    - (estimateTokens (optimizedContext r) - tokensToSave r)
                      * Z.pos CHARS_PER_TOKEN))
                (optimizedContext r)).
  lia.
Qed.

Lemma removeLessImportant_length (r : Reduction) :
  Js.len (optimizedContext (removeLessImportant r))
  <= Js.len (optimizedContext r).
Proof.
  unfold removeLessImportant.
  destruct (tokensToSave r >? 0); [|lia].
  pose proof (removeNonEssentialContent_length
                (optimizedContext r) (tokensToSave r) (removed r)) as H.
  destruct (removeNonEssentialContent _ _ _) as [o rc]. exact H.
Qed.

(** [optimizePrompt] never reports negative savings, and never more than
    the estimate it started from.  Within the target it is a no-op: the
    prompt, an empty removal log and zero tokens saved.  A prompt that
    alone exceeds the target is handed back as it is: the prompt is never
    cut. *)
Theorem optimizePrompt_savings_are_sound :
  forall (tm : t) (prompt context : string) (maxTokensArg : option Z),
    let result := optimizePrompt tm prompt context maxTokensArg in
    0 <= tokensSaved result <= estimateTokens (prompt ++ context)
    /\ (estimateTokens (prompt ++ context)
        <= Js.orNumber maxTokensArg (maxTokens tm) ->
        result = {| optimizedPrompt := prompt;
                    removedContent := [];
                    tokensSaved := 0 |})
    /\ optimizedPrompt result = prompt.
Proof.
  intros tm prompt context maxTokensArg result. subst result.
  pose proof (estimateTokens_nonneg (prompt ++ context)) as Hnonneg.
  split; [|split].
  - unfold optimizePrompt.
    destruct (estimateTokens (prompt ++ context)
              <=? Js.orNumber maxTokensArg (maxTokens tm)).
    + cbn [tokensSaved]. lia.
    + cbn [tokensSaved].
      set (start := {| optimizedContext := context;
                       removed := [];
                       tokensToSave :=
                         estimateTokens (prompt ++ context)
                         - Js.orNumber maxTokensArg (maxTokens tm) |}).
      pose proof (truncateContext_length start) as H1.
      pose proof (removeLessImportant_length (truncateContext start)) as H2.
      change (optimizedContext start) with context in H1.
      clearbody start.
      assert (Hlen : Js.len (prompt
                               ++ optimizedContext
                                    (removeLessImportant (truncateContext start)))
                     <= Js.len (prompt ++ context))
        by (rewrite !len_app; lia).
      pose proof (estimateTokens_monotone _ _ Hlen) as Hfinal.
      pose proof (estimateTokens_nonneg
                    (prompt ++ optimizedContext
                                 (removeLessImportant (truncateContext start)))).
      lia.
  - intros Hwithin. unfold optimizePrompt.
    apply Z.leb_le in Hwithin. now rewrite Hwithin.
  - apply optimizePrompt_keeps_prompt.
Qed.

End TokenSavings.

(** ** Token accounting of the history optimiser *)

Section HistoryAccounting.

Import TokenManager.

Lemma fold_tokens_from (msgs : list ChatMessage) :
  forall start : Z,
    fold_left (fun sum msg => sum + calculateMessageTokens msg) msgs start
    = start + tokensOf msgs.
Proof.
  unfold tokensOf. induction msgs as [|m msgs IH]; intros start; cbn [fold_left].
  - lia.
  - rewrite IH, (IH (0 + _)). lia.
Qed.

Lemma tokensOf_cons (m : ChatMessage) (msgs : list ChatMessage) :
  tokensOf (m :: msgs) = calculateMessageTokens m + tokensOf msgs.
Proof. unfold tokensOf at 1. cbn [fold_left]. rewrite fold_tokens_from. lia. Qed.

Lemma tokensOf_app (l1 l2 : list ChatMessage) :
  tokensOf (l1 ++ l2) = tokensOf l1 + tokensOf l2.
Proof.
  induction l1 as [|m l1 IH]; [reflexivity|].
  cbn [List.app]. rewrite !tokensOf_cons, IH. lia.
Qed.

Lemma tokensOf_rev (l : list ChatMessage) : tokensOf (rev l) = tokensOf l.
Proof.
  induction l as [|m l IH]; [reflexivity|].
  cbn [rev]. rewrite tokensOf_app, !tokensOf_cons, IH. unfold tokensOf at 2.
  cbn. lia.
Qed.

Lemma sumTokens_from (texts : list string) :
  forall start : Z,
    0 <= start ->
    0 <= fold_left (fun sum file => sum + estimateTokens file) texts start.
Proof.
  induction texts as [|x texts IH]; intros start Hstart; cbn [fold_left].
  - exact Hstart.
  - apply IH. pose proof (estimateTokens_nonneg x). lia.
Qed.

Lemma contextTokens_nonneg (c : option ChatContext) : 0 <= contextTokens c.
Proof.
  unfold contextTokens. destruct c as [ctx|]; [|lia].
  assert (H1 : 0 <= match activeFile ctx with
                    | Some f => estimateTokens f
                    | None => 0
                    end)
    by (destruct (activeFile ctx); [apply estimateTokens_nonneg|lia]).
  assert (H2 : 0 <= match selectedText ctx with
                    | Some text => estimateTokens text
                    | None => 0
                    end)
    by (destruct (selectedText ctx); [apply estimateTokens_nonneg|lia]).
  assert (H3 : 0 <= match workspaceFiles ctx with
                    | Some files => sumTokens files
                    | None => 0
                    end)
    by (destruct (workspaceFiles ctx);
        [apply sumTokens_from; lia|lia]).
  revert H1 H2 H3.
  generalize (match activeFile ctx with
              | Some f => estimateTokens f
              | None => 0
              end)
             (match selectedText ctx with
              | Some text => estimateTokens text
              | None => 0
              end)
             (match workspaceFiles ctx with
              | Some files => sumTokens files
              | None => 0
              end).
  intros; lia.
Qed.

(** A message costs the 4 tokens of its structure, the estimate of its
    content and the tokens of its context. *)
Lemma calculateMessageTokens_split (m : ChatMessage) :
  calculateMessageTokens m
  = 4 + estimateTokens (content m) + contextTokens (context m).
Proof.
  unfold calculateMessageTokens, contextTokens, sumTokens.
  destruct (context m) as [ctx|]; [|lia].
  destruct (activeFile ctx) as [f|]; destruct (selectedText ctx) as [text|];
    destruct (workspaceFiles ctx) as [files|];
    repeat match goal with
           | |- context [String.eqb ?x ""] =>
               destruct (String.eqb_spec x ""); [subst|]
           end;
    cbn [estimateTokens]; lia.
Qed.

Lemma calculateMessageTokens_min (m : ChatMessage) :
  4 <= calculateMessageTokens m.
Proof.
  rewrite calculateMessageTokens_split.
  pose proof (estimateTokens_nonneg (content m)).
  pose proof (contextTokens_nonneg (context m)). lia.
Qed.

Lemma tokensOf_nonneg (msgs : list ChatMessage) : 0 <= tokensOf msgs.
Proof.
  induction msgs as [|m msgs IH]; [unfold tokensOf; cbn; lia|].
  rewrite tokensOf_cons. pose proof (calculateMessageTokens_min m). lia.
Qed.

Lemma truncated_content_length (text : string) (maxContentLength : Z) :
  20 <= maxContentLength ->
  maxContentLength < Js.len text ->
  Js.len (Js.substring text 0 (maxContentLength - 20) ++ "... [truncated]")
  = maxContentLength - 5.
Proof.
  intros Hmin Hlong. rewrite substring_from_zero, len_app.
  unfold Js.len at 1. rewrite length_take.
  unfold Js.clampIndex. unfold Js.len in *. cbn [String.length]. lia.
Qed.

(** A copy that [truncateMessage] returns costs no more tokens than its
    original. *)
Lemma truncateMessage_no_more_tokens (m copy : ChatMessage) (available : Z) :
  truncateMessage m available = Some copy ->
  calculateMessageTokens copy <= calculateMessageTokens m.
Proof.
  unfold truncateMessage.
  destruct (Z.ltb_spec (available - 10) 20) as [|Hroom]; [discriminate|].
  destruct (Z.leb_spec (Js.len (content m))
              ((available - 10) * Z.pos CHARS_PER_TOKEN)) as [|Hlong].
  - intros [= <-]. lia.
  - intros [= <-]. rewrite !calculateMessageTokens_split.
    cbn [content context].
    assert (Hlen : Js.len (Js.substring (content m) 0
                             ((available - 10) * Z.pos CHARS_PER_TOKEN - 20)
                           ++ "... [truncated]")
                   <= Js.len (content m)).
    { rewrite truncated_content_length; unfold CHARS_PER_TOKEN in *; lia. }
    pose proof (estimateTokens_monotone _ _ Hlen). lia.
Qed.

(** Without context, such a copy fits in the tokens it was given. *)
Lemma truncateMessage_fits (m copy : ChatMessage) (available : Z) :
  context m = None ->
  truncateMessage m available = Some copy ->
  calculateMessageTokens copy <= available.
Proof.
  intros Hcontext. unfold truncateMessage.
  destruct (Z.ltb_spec (available - 10) 20) as [|Hroom]; [discriminate|].
  destruct (Z.leb_spec (Js.len (content m))
              ((available - 10) * Z.pos CHARS_PER_TOKEN)) as [Hshort|Hlong].
  - intros [= <-]. rewrite calculateMessageTokens_split, Hcontext.
    cbn [contextTokens]. rewrite estimateTokens_div.
    unfold CHARS_PER_TOKEN in *.
    revert Hshort. generalize (Js.len (content m)). intros n Hshort.
    Z.div_mod_to_equations. lia.
  - intros [= <-]. rewrite calculateMessageTokens_split.
    cbn [content context]. rewrite Hcontext. cbn [contextTokens].
    rewrite estimateTokens_div, truncated_content_length;
      unfold CHARS_PER_TOKEN in *; try lia.
    clear Hlong. Z.div_mod_to_equations. lia.
Qed.

Lemma keepRecent_all_fit (budget : Z) (older : list ChatMessage) :
  forall (total : Z) (acc : list ChatMessage),
    total + tokensOf older <= budget ->
    keepRecent budget older total acc = (rev older ++ acc)%list.
Proof.
  induction older as [|m older IH]; intros total acc Hfit; [reflexivity|].
  rewrite tokensOf_cons in Hfit. pose proof (tokensOf_nonneg older).
  cbn [keepRecent].
  destruct (Z.leb_spec (total + calculateMessageTokens m) budget) as [_|Hover];
    [|lia].
  rewrite IH by lia. cbn [rev]. now rewrite <- app_assoc.
Qed.

Lemma keepRecent_no_more_tokens (budget : Z) (older : list ChatMessage) :
  forall (total : Z) (acc : list ChatMessage),
    tokensOf (keepRecent budget older total acc)
    <= tokensOf older + tokensOf acc.
Proof.
  induction older as [|m older IH]; intros total acc.
  - cbn [keepRecent]. unfold tokensOf at 2. cbn. lia.
  - pose proof (tokensOf_nonneg older). pose proof (calculateMessageTokens_min m).
    cbn [keepRecent]. rewrite (tokensOf_cons m older).
    destruct (total + calculateMessageTokens m <=? budget).
    + specialize (IH (total + calculateMessageTokens m) (m :: acc)).
      rewrite tokensOf_cons in IH. lia.
    + destruct (budget - total >? 50); [|lia].
      destruct (truncateMessage m (budget - total)) as [copy|] eqn:Ecopy; [|lia].
      rewrite tokensOf_cons.
      pose proof (truncateMessage_no_more_tokens _ _ _ Ecopy). lia.
Qed.

Lemma keepRecent_within_budget (budget : Z) (older : list ChatMessage) :
  forall (total : Z) (acc : list ChatMessage),
    Forall (fun m => context m = None) older ->
    tokensOf acc = total ->
    total <= budget ->
    tokensOf (keepRecent budget older total acc) <= budget.
Proof.
  induction older as [|m older IH]; intros total acc Hplain Hacc Hfit.
  - cbn [keepRecent]. lia.
  - inversion Hplain as [|? ? Hm Holder]; subst.
    cbn [keepRecent].
    destruct (Z.leb_spec (tokensOf acc + calculateMessageTokens m) budget)
      as [Hle|Hover].
    + apply IH; [assumption| |assumption]. rewrite tokensOf_cons. lia.
    + destruct (budget - tokensOf acc >? 50); [|lia].
      destruct (truncateMessage m (budget - tokensOf acc)) as [copy|] eqn:Ecopy;
        [|lia].
      rewrite tokensOf_cons.
      pose proof (truncateMessage_fits _ _ _ Hm Ecopy). lia.
Qed.

(** A history whose messages together fit in the budget comes back as it
    is: nothing is dropped and nothing is truncated. *)
Theorem optimizeConversationHistory_keeps_a_history_that_fits :
  forall (tm : t) (messages : list ChatMessage) (maxHistoryTokens : option Z),
    tokensOf messages <= Js.orNumber maxHistoryTokens (maxContextTokens tm) ->
    optimizeConversationHistory tm messages maxHistoryTokens = messages.
Proof.
  intros tm messages maxHistoryTokens Hfit.
  unfold optimizeConversationHistory.
  destruct (rev messages) as [|lastMessage older] eqn:Erev; [reflexivity|].
  assert (Hmsgs : messages = (rev older ++ [lastMessage])%list).
  { apply (f_equal (@rev _)) in Erev. now rewrite rev_involutive in Erev. }
  rewrite keepRecent_all_fit; [now rewrite Hmsgs|].
  rewrite Hmsgs, tokensOf_app, tokensOf_rev, tokensOf_cons in Hfit.
  unfold tokensOf at 2 in Hfit. cbn [fold_left] in Hfit. lia.
Qed.

Lemma optimizeConversationHistory_keeps_a_history_that_fits_witness :
  optimizeConversationHistory sampleManager sampleHistory (Some 1000)
  = sampleHistory.
Proof.
  apply optimizeConversationHistory_keeps_a_history_that_fits.
  vm_compute. discriminate.
Defined.

(** When no message carries a context and the last message alone fits in
    the budget, the optimised history fits in the budget, a truncated copy
    included, and optimising it again changes nothing. *)
Theorem optimizeConversationHistory_stays_within_budget :
  forall (tm : t) (front : list ChatMessage) (lastMessage : ChatMessage)
         (maxHistoryTokens : option Z),
    Forall (fun m => context m = None) front ->
    calculateMessageTokens lastMessage
    <= Js.orNumber maxHistoryTokens (maxContextTokens tm) ->
    let optimized :=
      optimizeConversationHistory tm (front ++ [lastMessage])
        maxHistoryTokens in
    tokensOf optimized <= Js.orNumber maxHistoryTokens (maxContextTokens tm)
    /\ optimizeConversationHistory tm optimized maxHistoryTokens = optimized.
Proof.
  intros tm front lastMessage maxHistoryTokens Hplain Hlast optimized.
  assert (Hfits : tokensOf optimized
                  <= Js.orNumber maxHistoryTokens (maxContextTokens tm)).
  { subst optimized. unfold optimizeConversationHistory.
    rewrite rev_app_distr. cbn [rev List.app].
    apply keepRecent_within_budget.
    - apply Forall_rev. exact Hplain.
    - rewrite tokensOf_cons. unfold tokensOf. cbn. lia.
    - exact Hlast. }
  split; [exact Hfits|].
  clearbody optimized. unfold optimizeConversationHistory.
  destruct (rev optimized) as [|newest older] eqn:Erev; [reflexivity|].
  assert (Hshape : optimized = (rev older ++ [newest])%list).
  { apply (f_equal (@rev _)) in Erev. now rewrite rev_involutive in Erev. }
  rewrite keepRecent_all_fit; [now rewrite Hshape|].
  rewrite Hshape, tokensOf_app, tokensOf_rev, tokensOf_cons in Hfits.
  unfold tokensOf at 2 in Hfits. cbn [fold_left] in Hfits. lia.
Qed.

Lemma optimizeConversationHistory_stays_within_budget_witness :
  tokensOf (optimizeConversationHistory sampleManager sampleHistory (Some 100))
  <= 100
  /\ optimizeConversationHistory sampleManager
       (optimizeConversationHistory sampleManager sampleHistory (Some 100))
       (Some 100)
     = optimizeConversationHistory sampleManager sampleHistory (Some 100).
Proof.
  apply (optimizeConversationHistory_stays_within_budget sampleManager
           [sampleMessage "m1" user (Js.repeat "0123456789" 100);
            sampleMessage "m2" assistant "short"]
           (sampleMessage "m3" user "again") (Some 100)).
  - repeat constructor.
  - vm_compute. discriminate.
Defined.

(** The optimised history never costs more tokens than the history it was
    made from, whatever the messages and the budget. *)
Lemma optimizeConversationHistory_no_more_tokens
  (tm : t) (messages : list ChatMessage) (maxHistoryTokens : option Z) :
  tokensOf (optimizeConversationHistory tm messages maxHistoryTokens)
  <= tokensOf messages.
Proof.
  unfold optimizeConversationHistory.
  destruct (rev messages) as [|lastMessage older] eqn:Erev; [lia|].
  assert (Hmsgs : messages = (rev older ++ [lastMessage])%list).
  { apply (f_equal (@rev _)) in Erev. now rewrite rev_involutive in Erev. }
  pose proof (keepRecent_no_more_tokens
                (Js.orNumber maxHistoryTokens (maxContextTokens tm)) older
                (calculateMessageTokens lastMessage) [lastMessage]) as H.
  rewrite Hmsgs. rewrite tokensOf_app, tokensOf_rev. exact H.
Qed.

(** The token report of [optimizeForTokenLimits]: the tokens it says it
    saved are those of the history that the optimisation dropped or cut,
    and nothing else, since prompt and context come back whole; the saving
    is never negative, and it is the difference of the two totals. *)
Theorem optimizeForTokenLimits_reports_history_savings :
  forall (svc : LLMService.t) (prompt context : string)
         (history : list ChatMessage),
    let result := LLMService.optimizeForTokenLimits svc prompt context history in
    let info := LLMService.tokenInfo result in
    LLMService.saved info
    = tokensOf history - tokensOf (LLMService.optimizedHistory result)
    /\ 0 <= LLMService.saved info
    /\ LLMService.optimized info <= LLMService.original info
    /\ LLMService.original info
       = estimateTokens (prompt ++ context) + tokensOf history.
Proof.
  intros svc prompt context history result info. subst info result.
  unfold LLMService.optimizeForTokenLimits.
  cbn [LLMService.tokenInfo LLMService.saved LLMService.optimized
       LLMService.original LLMService.optimizedHistory].
  rewrite optimizePrompt_keeps_prompt.
  unfold LLMService.historyTokens. fold (tokensOf history).
  fold (tokensOf (optimizeConversationHistory
                    (LLMService.tokenManager svc) history None)).
  pose proof (optimizeConversationHistory_no_more_tokens
                (LLMService.tokenManager svc) history None) as Hle.
  revert Hle.
  generalize (tokensOf (optimizeConversationHistory
                          (LLMService.tokenManager svc) history None))
             (tokensOf history) (estimateTokens (prompt ++ context)).
  intros; lia.
Qed.

(** [truncateMessage] gives nothing exactly when fewer than 30 tokens are
    available.  Otherwise the content it returns has at most
    [(available - 10) * 4] characters: a message within that length comes
    back itself, and a longer one as a truncated copy whose content, mark
    included, is 5 characters short of that length; either way it costs no
    more tokens than the message. *)
Theorem truncateMessage_cuts_to_the_available_length :
  forall (m : ChatMessage) (available : Z),
    match truncateMessage m available with
    | None => available < 30
    | Some copy =>
        30 <= available
        /\ Js.len (content copy) <= (available - 10) * 4
        /\ (Js.len (content m) <= (available - 10) * 4 -> copy = m)
        /\ ((available - 10) * 4 < Js.len (content m) ->
            isTruncatedCopy m copy
            /\ Js.len (content copy) = (available - 10) * 4 - 5)
        /\ calculateMessageTokens copy <= calculateMessageTokens m
    end.
Proof.
  intros m available.
  destruct (truncateMessage m available) as [copy|] eqn:Hcopy.
  - pose proof (truncateMessage_no_more_tokens _ _ _ Hcopy) as Htokens.
    pose proof (truncateMessage_cases _ _ _ Hcopy) as Hcases.
    revert Hcopy Hcases. unfold truncateMessage.
    destruct (Z.ltb_spec (available - 10) 20) as [|Hroom]; [discriminate|].
    change (Z.pos CHARS_PER_TOKEN) with 4.
    destruct (Z.leb_spec (Js.len (content m)) ((available - 10) * 4))
      as [Hshort|Hlong]; intros [= <-] Hcases.
    + repeat split; lia.
    + cbn [content].
      rewrite truncated_content_length by lia.
      split; [lia|]. split; [lia|]. split; [lia|].
      split; [|exact Htokens]. intros _. split; [|reflexivity].
      destruct Hcases as [Hsame|Hcut]; [|exact Hcut].
      apply (f_equal (fun x => Js.len (content x))) in Hsame.
      cbn [content] in Hsame.
      rewrite truncated_content_length in Hsame; lia.
  - revert Hcopy. unfold truncateMessage.
    destruct (Z.ltb_spec (available - 10) 20) as [Hsmall|]; [lia|].
    now destruct (Js.len (content m) <=? _).
Qed.

End HistoryAccounting.

(** ** Edges of the streamed response *)

Section StreamEdges.

Import LLMService.

Variable deltaContent : string -> option string.

Lemma newlineFree_app (a b : string) :
  newlineFree a -> newlineFree b -> newlineFree (a ++ b).
Proof.
  induction a as [|c a IH]; [now intros|].
  intros [Hc Ha] Hb. cbn. split; [exact Hc|now apply IH].
Qed.

(** What the loop makes of reads that are all chunks: the fragments of the
    lines of their concatenation, and no failure. *)
Lemma readLoop_all_chunks (chunks : list string) :
  readLoop deltaContent (map Chunk chunks) ""
  = (fragmentsOf deltaContent (concatChunks chunks), None).
Proof.
  rewrite <- (app_nil_r (map Chunk chunks)).
  rewrite (readLoop_chunks deltaContent chunks [] "" I).
  cbn [String.append readLoop fst snd].
  destruct (reachesDone deltaContent (concatChunks chunks)); [reflexivity|].
  now rewrite app_nil_r.
Qed.

Lemma completeLines_after_lines (before rest : string) :
  before = "" \/ (exists head : string, before = head ++ newline) ->
  completeLines (before ++ rest)
  = (completeLines before ++ completeLines rest)%list.
Proof.
  intros Hbefore.
  assert (Hpartial : partialLine before = "").
  { destruct Hbefore as [->|[head ->]]; [reflexivity|].
    apply partialLine_after_newline. }
  now rewrite (proj1 (completeLines_app before rest)), Hpartial.
Qed.

Lemma completeLines_line (line rest : string) :
  newlineFree line ->
  completeLines (line ++ newline ++ rest) = line :: completeLines rest.
Proof.
  intros Hline. unfold completeLines.
  rewrite (splitNewline_line _ _ Hline).
  pose proof (splitNewline_not_nil rest).
  cbn [removelast]. now destruct (Js.splitNewline rest).
Qed.

Lemma processLines_skipped (line : string) (rest : list string) :
  skipped deltaContent line = true ->
  processLines deltaContent (line :: rest) = processLines deltaContent rest.
Proof.
  unfold skipped. intros Hskip. cbn [processLines].
  destruct (Js.trimIsEmpty line); [reflexivity|].
  destruct (Js.startsWith "data: " line); [|reflexivity].
  cbn [negb orb] in Hskip.
  destruct (String.eqb (Js.sliceFrom line 6) "[DONE]"); [discriminate|].
  destruct (deltaContent (Js.sliceFrom line 6)); [discriminate|].
  now destruct (processLines deltaContent rest).
Qed.

(** A read that fails after some chunks: the fragments of the lines read
    so far have been yielded, in order; the generator fails with the error
    that [createLLMError] makes of the rejection; the reader is released;
    and the reads after the failing one play no part.  The chunks alone
    never make the generator fail. *)
Theorem generateResponse_read_failure_after_fragments :
  forall (response : Response) (chunks : list string) (e : Thrown)
         (later : list Read),
    ok response = true ->
    reachesDone deltaContent (concatChunks chunks) = false ->
    generateResponse deltaContent
      (Returned (withBody response
                   (map Chunk chunks ++ ReadError e :: later)%list))
    = {| yielded :=
           yielded (generateResponse deltaContent
                      (Returned (withBody response (map Chunk chunks))));
         failure := Some (createLLMError e);
         released := 1 |}
    /\ failure (generateResponse deltaContent
                  (Returned (withBody response (map Chunk chunks)))) = None.
Proof.
  intros response chunks e later Hok Hopen.
  unfold generateResponse, withBody. cbn [ok body]. rewrite Hok. cbn [negb].
  rewrite readLoop_all_chunks.
  rewrite (readLoop_chunks deltaContent chunks _ "" I).
  cbn [String.append]. rewrite Hopen.
  cbn [readLoop fst snd option_map yielded failure].
  now rewrite app_nil_r.
Qed.

(** Text after the last line feed is never parsed: a last read without a
    line feed changes nothing, so that a data line which the stream ends
    without terminating is lost, and a body made of one such read gives no
    fragment and no failure. *)
Theorem generateResponse_drops_unterminated_last_line :
  forall (response : Response) (chunks : list string) (tail : string),
    newlineFree tail ->
    generateResponse deltaContent
      (Returned (withBody response (map Chunk (chunks ++ [tail]))))
    = generateResponse deltaContent
        (Returned (withBody response (map Chunk chunks)))
    /\ (ok response = true ->
        generateResponse deltaContent
          (Returned (withBody response [Chunk tail]))
        = {| yielded := []; failure := None; released := 1 |}).
Proof.
  intros response chunks tail Hfree.
  assert (Hsame : forall front : list string,
             readLoop deltaContent (map Chunk (front ++ [tail])) ""
             = readLoop deltaContent (map Chunk front) "").
  { intros front. rewrite !readLoop_all_chunks. f_equal.
    unfold fragmentsOf. f_equal. f_equal.
    assert (Hcat : concatChunks (front ++ [tail]) = concatChunks front ++ tail).
    { induction front as [|c front IH]; cbn [List.app concatChunks].
      - now rewrite string_app_nil_r.
      - now rewrite IH, string_app_assoc. }
    rewrite Hcat, (proj1 (completeLines_app _ _)).
    rewrite (proj1 (completeLines_free _
               (newlineFree_app _ _ (partialLine_free _) Hfree))).
    now rewrite app_nil_r. }
  unfold generateResponse, withBody. cbn [ok body].
  split.
  - now rewrite Hsame.
  - intros ->. cbn [negb].
    change [Chunk tail] with (map Chunk ([] ++ [tail])).
    rewrite Hsame. reflexivity.
Qed.

(** A line that the loop passes over leaves no trace: with or without it
    in the payload, and however the two payloads are cut into reads, the
    generator yields the same fragments and ends the same way.  Such a line
    is blank, or lacks the data prefix, or carries data that is not the
    sentinel and has no content. *)
Theorem generateResponse_ignores_skipped_lines :
  forall (response : Response) (chunks chunks' : list string)
         (before line after : string),
    newlineFree line ->
    skipped deltaContent line = true ->
    before = "" \/ (exists head : string, before = head ++ newline) ->
    concatChunks chunks = before ++ line ++ newline ++ after ->
    concatChunks chunks' = before ++ after ->
    generateResponse deltaContent
      (Returned (withBody response (map Chunk chunks)))
    = generateResponse deltaContent
        (Returned (withBody response (map Chunk chunks'))).
Proof.
  intros response chunks chunks' before line after Hfree Hskip Hbefore Hwith
    Hwithout.
  unfold generateResponse, withBody. cbn [ok body].
  rewrite !readLoop_all_chunks, Hwith, Hwithout.
  unfold fragmentsOf.
  rewrite !(completeLines_after_lines _ _ Hbefore).
  rewrite (completeLines_line _ _ Hfree).
  rewrite !processLines_app, (processLines_skipped _ _ Hskip).
  reflexivity.
Qed.

Lemma processLines_dataLines (ds : list string) (rest : list string) :
  Forall (fun d => d <> "[DONE]") ds ->
  processLines deltaContent (map dataLine ds ++ rest)
  = ((contentsOf deltaContent ds
        ++ fst (processLines deltaContent rest))%list,
     snd (processLines deltaContent rest)).
Proof.
  induction 1 as [|d ds Hd Hds IH].
  - cbn. now destruct (processLines deltaContent rest).
  - cbn [map List.app processLines].
    change (Js.trimIsEmpty (dataLine d)) with false.
    change (Js.startsWith "data: " (dataLine d)) with true.
    change (Js.sliceFrom (dataLine d) 6) with d.
    cbv iota.
    destruct (String.eqb_spec d "[DONE]") as [Heq|_]; [contradiction|].
    rewrite IH. unfold contentsOf. cbn [flat_map].
    now destruct (deltaContent d).
Qed.

Lemma joinLines_ends (ls : list string) :
  joinLines ls = "" \/ exists head : string, joinLines ls = head ++ newline.
Proof.
  induction ls as [|l ls [Hempty|[head Hhead]]]; [now left| |];
    right; cbn [joinLines].
  - exists l. now rewrite Hempty.
  - exists (l ++ newline ++ head). rewrite Hhead.
    now rewrite !string_app_assoc.
Qed.

Lemma fragmentsOf_dataLines (ds : list string) :
  Forall newlineFree ds ->
  Forall (fun d => d <> "[DONE]") ds ->
  fragmentsOf deltaContent (joinLines (map dataLine ds))
  = contentsOf deltaContent ds
  /\ reachesDone deltaContent (joinLines (map dataLine ds)) = false.
Proof.
  intros Hfree Hdata. unfold fragmentsOf, reachesDone.
  assert (Hlines : Forall newlineFree (map dataLine ds)).
  { apply Forall_map. eapply Forall_impl; [|exact Hfree].
    intros d Hd. cbn. repeat split. exact Hd. }
  pose proof (completeLines_joinLines (map dataLine ds) "" Hlines I) as [Hl _].
  rewrite string_app_nil_r in Hl. rewrite Hl.
  rewrite <- (app_nil_r (map dataLine ds)).
  rewrite (processLines_dataLines _ _ Hdata). cbn [processLines fst snd].
  now rewrite app_nil_r.
Qed.

(** What the generator yields for a well-formed stream: when the payload
    is a sequence of data lines, each ended by a line feed, the fragments
    are the contents of the data that have one, in the order of the lines,
    however the payload is cut into reads.  This holds when the stream
    ends after the lines, and when a sentinel line follows them, whatever
    comes after the sentinel; the generator then ends without failure and
    releases the reader. *)
Theorem generateResponse_yields_the_contents_in_order :
  forall (response : Response) (ds : list string),
    ok response = true ->
    Forall newlineFree ds ->
    Forall (fun d => d <> "[DONE]") ds ->
    let finished :=
      {| yielded := contentsOf deltaContent ds;
         failure := None;
         released := 1 |} in
    (forall chunks : list string,
        concatChunks chunks = joinLines (map dataLine ds) ->
        generateResponse deltaContent
          (Returned (withBody response (map Chunk chunks)))
        = finished)
    /\ (forall (chunks : list string) (tail : string) (later : list Read),
           concatChunks chunks
           = joinLines (map dataLine ds) ++ dataLine "[DONE]" ++ newline ++ tail ->
           generateResponse deltaContent
             (Returned (withBody response (map Chunk chunks ++ later)%list))
           = finished).
Proof.
  intros response ds Hok Hfree Hdata finished. subst finished.
  destruct (fragmentsOf_dataLines ds Hfree Hdata) as [Hfragments Hopen].
  unfold generateResponse, withBody. cbn [ok body]. rewrite Hok. cbn [negb].
  split.
  - intros chunks Hpayload.
    now rewrite readLoop_all_chunks, Hpayload, Hfragments.
  - intros chunks tail later Hpayload.
    rewrite (readLoop_chunks deltaContent chunks later "" I).
    cbn [String.append]. rewrite Hpayload.
    destruct (reaches_done deltaContent (joinLines (map dataLine ds)) tail
                (joinLines_ends _)) as [Hdone Hsame].
    change (dataLine "[DONE]") with "data: [DONE]".
    now rewrite Hdone, Hsame, Hfragments.
Qed.

End StreamEdges.

Section StreamEdgeRuns.

Import LLMService.

Lemma generateResponse_read_failure_after_fragments_witness :
  generateResponse bracedContent
    (Returned (withBody
       {| ok := true; status := 200; statusText := "OK"; body := None |}
       [Chunk ("data: {a}" ++ newline ++ "data: {");
        Chunk ("b}" ++ newline ++ "data: {c}");
        ReadError (ErrorObj "TypeError" "network error");
        Chunk ("data: {d}" ++ newline)]))
  = {| yielded := ["{a}"; "{b}"];
       failure := Some (ErrorObj "TypeError" "network error");
       released := 1 |}.
Proof.
  exact (proj1 (generateResponse_read_failure_after_fragments
                  bracedContent
                  {| ok := true; status := 200; statusText := "OK";
                     body := None |}
                  ["data: {a}" ++ newline ++ "data: {";
                   "b}" ++ newline ++ "data: {c}"]
                  (ErrorObj "TypeError" "network error")
                  [Chunk ("data: {d}" ++ newline)]
                  eq_refl eq_refl)).
Defined.

Lemma generateResponse_drops_unterminated_last_line_witness :
  generateResponse bracedContent
    (Returned (withBody
       {| ok := true; status := 200; statusText := "OK"; body := None |}
       [Chunk ("data: {a}" ++ newline); Chunk "data: {b}"]))
  = generateResponse bracedContent
      (Returned (withBody
         {| ok := true; status := 200; statusText := "OK"; body := None |}
         [Chunk ("data: {a}" ++ newline)])).
Proof.
  refine (proj1 (generateResponse_drops_unterminated_last_line
                   bracedContent
                   {| ok := true; status := 200; statusText := "OK";
                      body := None |}
                   ["data: {a}" ++ newline] "data: {b}" _)).
  cbn. repeat split.
Defined.

Lemma generateResponse_ignores_skipped_lines_witness :
  generateResponse bracedContent
    (Returned (withBody
       {| ok := true; status := 200; statusText := "OK"; body := None |}
       [Chunk ("data: {a}" ++ newline ++ "data: [DO");
        Chunk ("NE]" ++ carriageReturn ++ newline ++ "data: {b}" ++ newline)]))
  = generateResponse bracedContent
      (Returned (withBody
         {| ok := true; status := 200; statusText := "OK"; body := None |}
         [Chunk ("data: {a}" ++ newline ++ "data: {b}" ++ newline)])).
Proof.
  refine (generateResponse_ignores_skipped_lines
            bracedContent
            {| ok := true; status := 200; statusText := "OK"; body := None |}
            ["data: {a}" ++ newline ++ "data: [DO";
             "NE]" ++ carriageReturn ++ newline ++ "data: {b}" ++ newline]
            ["data: {a}" ++ newline ++ "data: {b}" ++ newline]
            ("data: {a}" ++ newline) ("data: [DONE]" ++ carriageReturn)
            ("data: {b}" ++ newline) _ eq_refl
            (or_intror (ex_intro _ "data: {a}" eq_refl)) eq_refl eq_refl).
  cbn. repeat split.
Defined.

Lemma generateResponse_yields_the_contents_in_order_witness :
  generateResponse bracedContent
    (Returned (withBody
       {| ok := true; status := 200; statusText := "OK"; body := None |}
       [Chunk ("data: {a}" ++ newline ++ "data: ");
        Chunk ("ping" ++ newline ++ "data: {b}" ++ newline ++ "data: [DONE]"
                 ++ newline);
        ReadError NotAnError]))
  = {| yielded := ["{a}"; "{b}"]; failure := None; released := 1 |}.
Proof.
  refine (proj2 (generateResponse_yields_the_contents_in_order
                   bracedContent
                   {| ok := true; status := 200; statusText := "OK";
                      body := None |}
                   ["{a}"; "ping"; "{b}"] eq_refl _ _)
            ["data: {a}" ++ newline ++ "data: ";
             "ping" ++ newline ++ "data: {b}" ++ newline ++ "data: [DONE]"
               ++ newline]
            "" [ReadError NotAnError] eq_refl).
  - repeat constructor.
  - repeat constructor; discriminate.
Defined.

End StreamEdgeRuns.

(** ** Errors of the service *)

Section ServiceErrors.

Import LLMService.

(** What [createLLMError] returns is always an error object; it is never
    an abort error and its message never holds one of the three numbers the
    function looks for, so that mapping it again changes nothing. *)
Theorem createLLMError_is_a_normal_form :
  forall e : Thrown,
    createLLMError (createLLMError e) = createLLMError e
    /\ exists name msg : string,
         createLLMError e = ErrorObj name msg
         /\ String.eqb name "AbortError" = false
         /\ Js.includes "401" msg = false
         /\ Js.includes "429" msg = false
         /\ Js.includes "500" msg = false.
Proof.
  intros e.
  assert (Hform : exists name msg : string,
             createLLMError e = ErrorObj name msg
             /\ String.eqb name "AbortError" = false
             /\ Js.includes "401" msg = false
             /\ Js.includes "429" msg = false
             /\ Js.includes "500" msg = false).
  { destruct e as [name msg|]; unfold createLLMError, newError.
    - destruct (String.eqb name "AbortError") eqn:Ename;
        [eexists; eexists; split; [reflexivity|]; repeat split|].
      destruct (Js.includes "401" msg) eqn:E401;
        [eexists; eexists; split; [reflexivity|]; repeat split|].
      destruct (Js.includes "429" msg) eqn:E429;
        [eexists; eexists; split; [reflexivity|]; repeat split|].
      destruct (Js.includes "500" msg) eqn:E500;
        [eexists; eexists; split; [reflexivity|]; repeat split|].
      exists name, msg. repeat split; assumption.
    - eexists; eexists; split; [reflexivity|]; repeat split. }
  split; [|exact Hform].
  destruct Hform as (name & msg & -> & Hname & H401 & H429 & H500).
  unfold createLLMError. now rewrite Hname, H401, H429, H500.
Qed.

End ServiceErrors.

(** ** Suggestions *)

Section Suggestions.

Import ChatManager.

(** The suggestions are always three, and they are those of one group: of
    the first group of words that the lower-cased content mentions, in the
    order code, error, spec, and the generic ones only when it mentions
    none. *)
Theorem generateSuggestions_shows_first_matching_group :
  forall assistantMessage : ChatMessage,
    let text := Js.toLowerCase (content assistantMessage) in
    generateSuggestions assistantMessage
    = (if Js.includes "code" text || Js.includes "function" text then
         ["Explain this code"; "Add error handling"; "Write tests for this"]
       else if Js.includes "error" text || Js.includes "bug" text then
         ["How can I debug this?"; "Show me the stack trace";
          "What are common causes?"]
       else if Js.includes "spec" text || Js.includes "requirements" text then
         ["Create a new spec"; "Update the design"; "Generate tasks"]
       else
         ["Can you elaborate?"; "Show me an example";
          "What are the alternatives?"])
    /\ List.length (generateSuggestions assistantMessage) = 3%nat.
Proof.
  intros assistantMessage text. unfold generateSuggestions. fold text.
  destruct (Js.includes "code" text || Js.includes "function" text),
    (Js.includes "error" text || Js.includes "bug" text),
    (Js.includes "spec" text || Js.includes "requirements" text);
    split; reflexivity.
Qed.

End Suggestions.

(** ** The conversation store *)

Section ConversationStore.

Variable env : Env.

Lemma arraySliceFrom_last {A} (l : list A) (count : Z) :
  1 <= count ->
  Js.arraySliceFrom l (- count) = lastMessages (Z.to_nat count) l.
Proof.
  intros Hcount. unfold Js.arraySliceFrom, lastMessages.
  destruct (Z.ltb_spec (- count) 0) as [_|]; [|lia]. f_equal. lia.
Qed.

Lemma arraySliceFrom_zero {A} (l : list A) : Js.arraySliceFrom l (- 0) = l.
Proof.
  unfold Js.arraySliceFrom. cbn [Z.opp Z.ltb Z.compare].
  now rewrite Z.min_l by lia.
Qed.

Lemma lastMessages_length {A} (l : list A) (count : nat) :
  List.length (lastMessages count l) = Nat.min count (List.length l).
Proof. unfold lastMessages. rewrite length_skipn. lia. Qed.

Lemma lastMessages_suffix {A} (l : list A) (count : nat) :
  l = (firstn (List.length l - count) l ++ lastMessages count l)%list.
Proof. unfold lastMessages. now rewrite firstn_skipn. Qed.

Lemma lastMessages_all {A} (l : list A) (count : nat) :
  (List.length l <= count)%nat -> lastMessages count l = l.
Proof.
  intros H. unfold lastMessages.
  replace (List.length l - count)%nat with 0%nat by lia. reflexivity.
Qed.

(** [getLastMessages] never changes anything and always returns an end of
    the history: for a count of at least one its last [count] messages, all
    of them when there are fewer; for a count of zero the whole history,
    since the slice then starts at index 0. *)
Theorem getLastMessages_returns_an_end_of_the_history :
  forall (count : Z) (w : World),
    exists (older recent : list ChatMessage),
      ChatManager.getLastMessages count w = (Returned recent, w)
      /\ historyOf w = (older ++ recent)%list
      /\ (1 <= count ->
          recent = lastMessages (Z.to_nat count) (historyOf w)
          /\ Z.of_nat (List.length recent)
             = Z.min count (Z.of_nat (List.length (historyOf w))))
      /\ (count = 0 -> recent = historyOf w).
Proof.
  intros count w.
  unfold ChatManager.getLastMessages, ConversationStateManager.getMessages,
    bind, gets, ret.
  fold (historyOf w).
  exists (firstn (List.length (historyOf w)
                  - List.length (Js.arraySliceFrom (historyOf w) (- count)))
            (historyOf w)),
    (Js.arraySliceFrom (historyOf w) (- count)).
  split; [reflexivity|]. split; [|split].
  - unfold Js.arraySliceFrom. rewrite length_skipn.
    set (k := Z.to_nat _).
    replace (List.length (historyOf w) - (List.length (historyOf w) - k))%nat
      with (Nat.min k (List.length (historyOf w))) by lia.
    destruct (Nat.le_ge_cases k (List.length (historyOf w))) as [Hk|Hk].
    + rewrite Nat.min_l by exact Hk. now rewrite firstn_skipn.
    + rewrite Nat.min_r by exact Hk.
      rewrite firstn_all, skipn_all2 by exact Hk. now rewrite app_nil_r.
  - intros Hcount. rewrite (arraySliceFrom_last _ _ Hcount).
    split; [reflexivity|]. rewrite lastMessages_length. lia.
  - intros ->. apply arraySliceFrom_zero.
Qed.

(** [getRecentHistory] leaves out the last message of the history, the
    one being answered, and returns the last [count] of those before it. *)
Theorem getRecentHistory_leaves_out_the_current_message :
  forall (count : Z) (w : World) (front : list ChatMessage)
         (current : ChatMessage),
    1 <= count ->
    historyOf w = (front ++ [current])%list ->
    ChatManager.getRecentHistory count w
    = (Returned (lastMessages (Z.to_nat count) front), w)
    /\ Z.of_nat (List.length (lastMessages (Z.to_nat count) front)) <= count
    /\ exists older : list ChatMessage,
         historyOf w
         = (older ++ lastMessages (Z.to_nat count) front ++ [current])%list.
Proof.
  intros count w front current Hcount Hhistory.
  unfold ChatManager.getRecentHistory, ConversationStateManager.getMessages,
    bind, gets, ret.
  fold (historyOf w). rewrite Hhistory.
  unfold Js.arrayInit. rewrite removelast_last.
  rewrite (arraySliceFrom_last _ _ Hcount).
  split; [reflexivity|]. split.
  - rewrite lastMessages_length. lia.
  - exists (firstn (List.length front - Z.to_nat count) front).
    rewrite app_assoc. now rewrite <- lastMessages_suffix.
Qed.

Lemma getRecentHistory_leaves_out_the_current_message_witness :
  ChatManager.getRecentHistory 1 sampleWorld
  = (Returned [sampleMessage "m2" assistant "short"], sampleWorld).
Proof.
  refine (proj1 (getRecentHistory_leaves_out_the_current_message
                   1 sampleWorld
                   [sampleMessage "m1" user (Js.repeat "0123456789" 100);
                    sampleMessage "m2" assistant "short"]
                   (sampleMessage "m3" user "again") _ eq_refl)).
  lia.
Defined.

(** One run of the state manager's [addMessage] on a conversation: it
    returns, whether the automatic save succeeds or not. *)
Lemma stateAddMessage_run (m : ChatMessage) (w : World) (c : ConversationState) :
  currentConversation w = Some c ->
  exists w' : World,
    ConversationStateManager.addMessage env m w = (Returned tt, w')
    /\ currentConversation w'
       = Some {| messages := messages c ++ [m];
                 lastModified := dateNow env (clock w);
                 messageCount := Z.of_nat (List.length (messages c ++ [m]));
                 totalTokens := totalTokens c + countedTokens m |}
    /\ isProcessing w' = isProcessing w
    /\ sleeps w' = sleeps w
    /\ llmCalls w' = llmCalls w.
Proof.
  intros Hconv.
  unfold ConversationStateManager.addMessage, bind at 1, gets at 1.
  rewrite Hconv.
  unfold ConversationStateManager.saveConversation.
  unfold bind, observe, modify, tryCatch, gets, ret, throw, Js.push.
  cbn [currentConversation setConversation tick clock].
  assert (Htokens :
            match metadata m with
            | Some md =>
                match tokenCount md with
                | Some n => totalTokens c + n
                | None => totalTokens c
                end
            | None => totalTokens c
            end = totalTokens c + countedTokens m).
  { unfold countedTokens. destruct (metadata m) as [md|]; [|lia].
    destruct (tokenCount md); lia. }
  rewrite Htokens.
  destruct (storageSave env (S (clock w)));
    eexists; (split; [reflexivity|]); repeat split.
Qed.

(** [addMessage] needs a conversation: without one it throws and changes
    nothing; with one it never throws, even when the automatic save fails,
    and then the history is the old one followed by the message, the
    message count is one more than the old length, and the token total
    grows by the count the message carries, if any. *)
Theorem addMessage_appends_to_the_history :
  forall (m : ChatMessage) (w : World),
    match currentConversation w with
    | None =>
        ChatManager.addMessage env m w
        = (Threw (newError "No active conversation"), w)
    | Some c =>
        exists (w' : World) (c' : ConversationState),
          ChatManager.addMessage env m w = (Returned tt, w')
          /\ ChatManager.getHistory w' = (Returned (messages c ++ [m])%list, w')
          /\ currentConversation w' = Some c'
          /\ messageCount c' = Z.of_nat (List.length (messages c)) + 1
          /\ totalTokens c' = totalTokens c + countedTokens m
    end.
Proof.
  intros m w. destruct (currentConversation w) as [c|] eqn:Hconv.
  - destruct (stateAddMessage_run m w c Hconv) as (w' & Hrun & Hc' & _).
    eexists. eexists.
    unfold ChatManager.addMessage, ChatManager.stateAddMessage.
    split; [exact Hrun|].
    unfold ChatManager.getHistory, ConversationStateManager.getMessages,
      bind, gets, ret.
    rewrite Hc'. cbn [messages].
    split; [reflexivity|]. split; [reflexivity|].
    cbn [messageCount totalTokens]. split; [|reflexivity].
    rewrite length_app. cbn [List.length]. lia.
  - unfold ChatManager.addMessage, ChatManager.stateAddMessage,
      ConversationStateManager.addMessage, bind, gets, throw.
    now rewrite Hconv.
Qed.

(** [clearHistory] never throws.  Afterwards the history is empty, whatever
    number of last messages is asked for; a conversation keeps existing,
    with both its counts at zero, so that a message added next is the whole
    history; and without a conversation nothing changes. *)
Theorem clearHistory_empties_the_history :
  forall w : World,
    exists w' : World,
      ChatManager.clearHistory env w = (Returned tt, w')
      /\ historyOf w' = []
      /\ (forall count : Z,
             ChatManager.getLastMessages count w' = (Returned [], w'))
      /\ match currentConversation w with
         | None => w' = w
         | Some _ =>
             currentConversation w'
             = Some {| messages := [];
                       lastModified := dateNow env (clock w);
                       messageCount := 0;
                       totalTokens := 0 |}
             /\ forall m : ChatMessage,
                  exists w'' : World,
                    ChatManager.addMessage env m w' = (Returned tt, w'')
                    /\ historyOf w'' = [m]
         end.
Proof.
  intros w.
  unfold ChatManager.clearHistory,
    ConversationStateManager.clearCurrentConversation, bind at 1, gets at 1.
  destruct (currentConversation w) as [c|] eqn:Hconv.
  - unfold bind, observe, modify.
    eexists. split; [reflexivity|].
    split; [reflexivity|]. split; [|split; [reflexivity|]].
    + intros count.
      unfold ChatManager.getLastMessages,
        ConversationStateManager.getMessages, bind, gets, ret.
      cbn [currentConversation setConversation messages].
      unfold Js.arraySliceFrom. now rewrite skipn_nil.
    + intros m.
      match goal with
      | |- context [ChatManager.addMessage env m ?w1] =>
          destruct (stateAddMessage_run m w1 _ eq_refl)
            as (w'' & Hrun & Hc'' & _)
      end.
      exists w''. split; [exact Hrun|].
      unfold historyOf. now rewrite Hc''.
  - exists w. split; [reflexivity|].
    unfold historyOf. rewrite Hconv.
    split; [reflexivity|]. split; [|reflexivity].
    intros count.
    unfold ChatManager.getLastMessages,
      ConversationStateManager.getMessages, bind, gets, ret.
    rewrite Hconv. unfold Js.arraySliceFrom. now rewrite skipn_nil.
Qed.

(** One run of [trimConversationHistory] on a conversation. *)
Lemma trimConversationHistory_run (limit : Z) (w : World)
  (c : ConversationState) :
  currentConversation w = Some c ->
  ConversationStateManager.trimConversationHistory env limit w
  = if Z.of_nat (List.length (messages c)) <=? limit then (Returned tt, w)
    else
      (if storageSave env (S (clock w)) then Returned tt
       else Threw (newError "Failed to save conversation"),
       tick (setConversation
               (Some {| messages := Js.arraySliceFrom (messages c) (- limit);
                        lastModified := dateNow env (clock w);
                        messageCount :=
                          Z.of_nat (List.length
                                      (Js.arraySliceFrom (messages c) (- limit)));
                        totalTokens := totalTokens c |})
               (tick w))).
Proof.
  intros Hconv.
  unfold ConversationStateManager.trimConversationHistory, bind at 1, gets at 1.
  rewrite Hconv.
  destruct (Z.of_nat (List.length (messages c)) <=? limit); [reflexivity|].
  unfold ConversationStateManager.saveConversation.
  unfold bind, observe, modify, gets, ret, throw.
  cbn [currentConversation setConversation tick clock].
  now destruct (storageSave env (S (clock w))).
Qed.

(** Trimming with a limit of at least one leaves the last [limit] messages
    of the history, all of them when there are no more than that.  A
    history within the limit is left as it is, without a save.  A longer
    one is cut in memory before the save, so that the cut stays when the
    save fails and the call throws; the message count follows the cut, the
    token total does not. *)
Theorem trimConversationHistory_keeps_most_recent :
  forall (limit : Z) (w : World) (c : ConversationState),
    1 <= limit ->
    currentConversation w = Some c ->
    exists (o : Outcome unit) (w' : World),
      ConversationStateManager.trimConversationHistory env limit w = (o, w')
      /\ historyOf w' = lastMessages (Z.to_nat limit) (messages c)
      /\ Z.of_nat (List.length (historyOf w'))
         = Z.min limit (Z.of_nat (List.length (messages c)))
      /\ (Z.of_nat (List.length (messages c)) <= limit ->
          o = Returned tt /\ w' = w)
      /\ (limit < Z.of_nat (List.length (messages c)) ->
          o = (if storageSave env (S (clock w)) then Returned tt
               else Threw (newError "Failed to save conversation"))
          /\ exists c' : ConversationState,
               currentConversation w' = Some c'
               /\ messageCount c' = limit
               /\ totalTokens c' = totalTokens c).
Proof.
  intros limit w c Hlimit Hconv.
  rewrite (trimConversationHistory_run limit w c Hconv).
  destruct (Z.leb_spec (Z.of_nat (List.length (messages c))) limit)
    as [Hshort|Hlong].
  - exists (Returned tt), w. split; [reflexivity|].
    unfold historyOf. rewrite Hconv.
    rewrite lastMessages_all by lia.
    split; [reflexivity|]. split; [lia|]. split; [now intros|lia].
  - eexists. eexists. split; [reflexivity|].
    unfold historyOf.
    cbn [currentConversation setConversation tick messages].
    rewrite (arraySliceFrom_last _ _ Hlimit).
    split; [reflexivity|]. rewrite lastMessages_length.
    split; [lia|]. split; [lia|]. intros _.
    split; [reflexivity|]. eexists. split; [reflexivity|].
    cbn [messageCount totalTokens]. split; [lia|reflexivity].
Qed.

(** A limit of zero never trims: the length of a history that is not empty
    exceeds it, but the slice that should keep the last zero messages
    starts at index 0 and keeps them all. *)
Theorem trimConversationHistory_with_zero_limit_keeps_all :
  forall w : World,
    exists (o : Outcome unit) (w' : World),
      ConversationStateManager.trimConversationHistory env 0 w = (o, w')
      /\ historyOf w' = historyOf w.
Proof.
  intros w. destruct (currentConversation w) as [c|] eqn:Hconv.
  - rewrite (trimConversationHistory_run 0 w c Hconv).
    destruct (Z.of_nat (List.length (messages c)) <=? 0);
      eexists; eexists; (split; [reflexivity|]); [reflexivity|].
    unfold historyOf. rewrite Hconv.
    cbn [currentConversation setConversation tick messages].
    apply arraySliceFrom_zero.
  - exists (Returned tt), w.
    unfold ConversationStateManager.trimConversationHistory, bind, gets, ret.
    now rewrite Hconv.
Qed.

End ConversationStore.

Lemma trimConversationHistory_keeps_most_recent_witness :
  exists (o : Outcome unit) (w' : World),
    ConversationStateManager.trimConversationHistory (scriptedEnv alwaysFail) 2
      sampleWorld = (o, w')
    /\ historyOf w'
       = [sampleMessage "m2" assistant "short";
          sampleMessage "m3" user "again"].
Proof.
  destruct (trimConversationHistory_keeps_most_recent (scriptedEnv alwaysFail) 2
              sampleWorld
              {| messages := sampleHistory; lastModified := 0;
                 messageCount := 3; totalTokens := 0 |}
              ltac:(lia) eq_refl)
    as (o & w' & Hrun & Hhistory & _).
  exists o, w'. split; [exact Hrun|exact Hhistory].
Defined.

(** ** Runs of the pipeline *)

Lemma generateResponse_surfaces_other_statuses_witness :
  LLMService.generateResponse (fun _ => None)
    (Returned {| LLMService.ok := false; LLMService.status := 404;
                 LLMService.statusText := "Not Found";
                 LLMService.body := None |})
  = {| LLMService.yielded := [];
       LLMService.failure := Some (newError "HTTP 404: Not Found");
       LLMService.released := 0 |}.
Proof.
  exact (generateResponse_surfaces_other_statuses (fun _ => None)
           {| LLMService.ok := false; LLMService.status := 404;
              LLMService.statusText := "Not Found";
              LLMService.body := None |}
           eq_refl eq_refl eq_refl eq_refl).
Defined.

Lemma sendMessage_blocks_invalid_request_witness :
  exists (resp : ChatResponse) (w' : World),
    ChatManager.sendMessage rejectingEnv ChatManager.defaultConfig
      "Delete everything" None idleWorld
    = (Returned resp, w')
    /\ error resp
       = Some {| type := validation;
                 message := "Message blocked: Dangerous content detected";
                 errorCode := None;
                 retryable := false |}
    /\ isProcessing w' = false
    /\ currentConversation w' = Some emptyConversation
    /\ llmCalls w' = 0%nat.
Proof.
  exact (sendMessage_blocks_invalid_request rejectingEnv
           ChatManager.defaultConfig "Delete everything" None idleWorld
           {| isValid := false; errors := ["Dangerous content detected"];
              warnings := [] |}
           eq_refl eq_refl eq_refl eq_refl).
Defined.

Lemma generateResponseWithRetry_exhausts_attempts_witness :
  exists w' : World,
    ChatManager.generateResponseWithRetry (scriptedEnv alwaysFail)
      ChatManager.defaultConfig (sampleMessage "u1" user "Hello") idleWorld
    = (Threw (newError "LLM generation failed: Persistent error"), w')
    /\ llmCalls w' = 3%nat
    /\ sleeps w' = [1000; 2000].
Proof.
  refine (generateResponseWithRetry_exhausts_attempts (scriptedEnv alwaysFail)
            ChatManager.defaultConfig (fun _ => newError "Persistent error")
            (sampleMessage "u1" user "Hello")
            (fun prompt ctx history time => ex_intro _ _ eq_refl)
            (fun k prompt ctx => ex_intro _ [] eq_refl)
            _ idleWorld).
  cbn. discriminate.
Defined.

Section MissingConversation.

Variable env : Env.
Variable config : ChatManager.ChatManagerConfig.

(** Without a conversation no request gets as far as the generation: a
    manager at rest answers every message by an error response, makes no
    generation call, awaits nothing and stays at rest without a
    conversation.  When the validator accepts the message, or is switched
    off, the error is the system error of the state manager. *)
Theorem sendMessage_without_conversation_stops_before_generation :
  forall (text : string) (ctx : option ChatContext) (w : World),
    isProcessing w = false ->
    currentConversation w = None ->
    exists (resp : ChatResponse) (w' : World) (e : ErrorInfo),
      ChatManager.sendMessage env config text ctx w = (Returned resp, w')
      /\ error resp = Some e
      /\ isProcessing w' = false
      /\ currentConversation w' = None
      /\ llmCalls w' = llmCalls w
      /\ sleeps w' = sleeps w
      /\ ((ChatManager.enableSafetyFilter config = false
           \/ exists checked : ValidationResult,
                validateRequest env text (clock w) = Returned checked
                /\ isValid checked = true) ->
          e = {| type := system;
                 message := "No active conversation";
                 errorCode := None;
                 retryable := true |}).
Proof.
  intros text ctx [processing conv time slept calls] Hidle Hconv.
  cbn [isProcessing currentConversation] in Hidle, Hconv. subst.
  cbv beta iota zeta delta
    [ChatManager.sendMessage ChatManager.sendMessageTry
     ChatManager.createErrorResponse ChatManager.stateAddMessage
     ConversationStateManager.addMessage createUserMessage
     createAssistantMessage createMessage generateMessageId
     bind tryFinally tryCatch gets modify call observe ret throw
     isProcessing currentConversation clock sleeps llmCalls setProcessing
     tick ChatManager.messageOr newError].
  destruct (ChatManager.enableSafetyFilter config) eqn:Hfilter.
  - destruct (validateRequest env text time) as [checked|thrown] eqn:Hcheck.
    + destruct (isValid checked) eqn:Hvalid; cbn [negb].
      * destruct (ChatManager.enableContextGathering config);
          [destruct (getCurrentContext env (S (S (S (S time)))))|];
          do 3 eexists; (split; [reflexivity|]); repeat split.
      * do 3 eexists. split; [reflexivity|]. repeat split.
        intros [Hoff|(checked' & Hcheck' & Hvalid')]; [discriminate|].
        congruence.
    + do 3 eexists. split; [reflexivity|]. repeat split.
      intros [Hoff|(checked' & Hcheck' & _)]; [discriminate|congruence].
  - cbn [negb isValid].
    destruct (ChatManager.enableContextGathering config);
      [destruct (getCurrentContext env (S (S (S time))))|];
      do 3 eexists; (split; [reflexivity|]); repeat split.
Qed.

End MissingConversation.

Lemma sendMessage_without_conversation_stops_before_generation_witness :
  exists (resp : ChatResponse) (w' : World),
    ChatManager.sendMessage (scriptedEnv alwaysFail) ChatManager.defaultConfig
      "Hello" None worldWithoutConversation
    = (Returned resp, w')
    /\ error resp
       = Some {| type := system;
                 message := "No active conversation";
                 errorCode := None;
                 retryable := true |}
    /\ llmCalls w' = 0%nat.
Proof.
  destruct (sendMessage_without_conversation_stops_before_generation
              (scriptedEnv alwaysFail) ChatManager.defaultConfig
              "Hello" None worldWithoutConversation eq_refl eq_refl)
    as (resp & w' & e & Hrun & Herror & _ & _ & Hcalls & _ & Hsystem).
  exists resp, w'. split; [exact Hrun|]. split; [|exact Hcalls].
  rewrite Herror. f_equal. apply Hsystem. right.
  eexists. split; reflexivity.
Defined.

(** ** What the generation leaves untouched *)

Section Frames.

Variable env : Env.
Variable config : ChatManager.ChatManagerConfig.

Context {X : Type}.

(** A part of the world that neither the clock nor the count of the
    generation calls belongs to. *)
Variable f : World -> X.
Hypothesis f_tick : forall w : World, f (tick w) = f w.
Hypothesis f_count : forall w : World, f (countLlmCall w) = f w.

Lemma preserves_ret {A} (a : A) : preserves f (ret a).
Proof. intros w o w' [= <- <-]. reflexivity. Qed.

Lemma preserves_throw {A} (e : Thrown) : preserves f (@throw A e).
Proof. intros w o w' [= <- <-]. reflexivity. Qed.

Lemma preserves_gets {A} (g : World -> A) : preserves f (gets g).
Proof. intros w o w' [= <- <-]. reflexivity. Qed.

Lemma preserves_call {A} (g : nat -> Outcome A) : preserves f (call g).
Proof. intros w o w' [= <- <-]. apply f_tick. Qed.

Lemma preserves_observe {A} (g : nat -> A) : preserves f (observe g).
Proof. intros w o w' [= <- <-]. apply f_tick. Qed.

Lemma preserves_collectChunks (prompt ctx : string) :
  preserves f (ChatManager.collectChunks env prompt ctx).
Proof.
  intros w o w'. unfold ChatManager.collectChunks.
  destruct (generateResponse env (llmCalls w) prompt ctx) as [chunks [e|]];
    intros [= <- <-]; apply f_count.
Qed.

Lemma preserves_bind {A B} (c : M A) (k : A -> M B) :
  preserves f c -> (forall a : A, preserves f (k a)) -> preserves f (bind c k).
Proof.
  intros Hc Hk w o w'. unfold bind.
  destruct (c w) as [[a|e] w1] eqn:Hrun; intros Hrest.
  - rewrite (Hk a _ _ _ Hrest). exact (Hc _ _ _ Hrun).
  - injection Hrest as <- <-. exact (Hc _ _ _ Hrun).
Qed.

Lemma preserves_tryCatch {A} (body : M A) (handler : Thrown -> M A) :
  preserves f body -> (forall e : Thrown, preserves f (handler e)) ->
  preserves f (tryCatch body handler).
Proof.
  intros Hbody Hhandler w o w'. unfold tryCatch.
  destruct (body w) as [[a|e] w1] eqn:Hrun; intros Hrest.
  - injection Hrest as <- <-. exact (Hbody _ _ _ Hrun).
  - rewrite (Hhandler e _ _ _ Hrest). exact (Hbody _ _ _ Hrun).
Qed.

Ltac headOf c :=
  lazymatch c with
  | ?g _ => headOf g
  | _ => c
  end.

Ltac preservesStep :=
  lazymatch goal with
  | |- preserves _ (bind _ _) => apply preserves_bind; [|intros ?; cbv beta]
  | |- preserves _ (tryCatch _ _) =>
      apply preserves_tryCatch; [|intros ?; cbv beta]
  | |- preserves _ (ret _) => apply preserves_ret
  | |- preserves _ (throw _) => apply preserves_throw
  | |- preserves _ (gets _) => apply preserves_gets
  | |- preserves _ (call _) => apply preserves_call
  | |- preserves _ (observe _) => apply preserves_observe
  | |- preserves _ (ChatManager.collectChunks _ _ _) =>
      apply preserves_collectChunks
  | |- preserves _ (if ?b then _ else _) => destruct b
  | |- preserves _ (let _ := _ in _) => cbv zeta
  | |- preserves _ ?c => let h := headOf c in unfold h
  end.

(** The validation of a request. *)
Lemma preserves_validation (text : string) :
  preserves f
    (if ChatManager.enableSafetyFilter config
     then call (validateRequest env text)
     else ret {| isValid := true; errors := []; warnings := [] |}).
Proof. repeat preservesStep. Qed.

(** One generation, whatever its collaborators answer or throw. *)
Lemma preserves_generateResponse (userMessage : ChatMessage) :
  preserves f (ChatManager.generateResponse env config userMessage).
Proof. repeat preservesStep. Qed.

(** The retry loop, for a part of the world that the delays do not belong
    to either. *)
Lemma preserves_retryFrom {A} (operation : M A) (remaining : nat) :
  (forall (ms : Z) (w : World), f (addSleep ms w) = f w) ->
  preserves f operation ->
  forall (attempt : Z) (lastError : option Thrown),
    preserves f
      (ChatManager.retryFrom config operation remaining attempt lastError).
Proof.
  intros Hsleep Hop.
  induction remaining as [|remaining IH]; intros attempt lastError.
  - apply preserves_throw.
  - cbn [ChatManager.retryFrom]. apply preserves_tryCatch; [exact Hop|].
    intros e. apply preserves_bind; [|intros _; apply IH].
    destruct (attempt <? ChatManager.retryAttempts config);
      [|apply preserves_ret].
    intros w o w' [= <- <-]. apply Hsleep.
Qed.

End Frames.

(** ** The delays of the retry loop *)

Section Backoff.

Variable env : Env.
Variable config : ChatManager.ChatManagerConfig.



End Backoff.


(** ** The history after an exchange *)

Section Exchange.

Variable env : Env.
Variable config : ChatManager.ChatManagerConfig.

Lemma keeps_generateResponseWithRetry (userMessage : ChatMessage) :
  preserves currentConversation
    (ChatManager.generateResponseWithRetry env config userMessage).
Proof.
  unfold ChatManager.generateResponseWithRetry, ChatManager.withRetry.
  apply preserves_retryFrom; [intros; reflexivity|].
  apply preserves_generateResponse; intros; reflexivity.
Qed.

Lemma ensures_bind {A B} (c : M A) (k : A -> M B) (w : World)
  (Q : Outcome B -> World -> Prop) :
  ensures c w (fun o w1 =>
                 match o with
                 | Returned a => ensures (k a) w1 Q
                 | Threw e => Q (Threw e) w1
                 end) ->
  ensures (bind c k) w Q.
Proof.
  intros H o w' Hrun. unfold bind in Hrun.
  destruct (c w) as [[a|e] w1] eqn:Hc; specialize (H _ _ Hc);
    cbv beta iota in H.
  - exact (H _ _ Hrun).
  - injection Hrun as <- <-. exact H.
Qed.

Lemma ensures_run {A} (c : M A) (w w' : World) (o : Outcome A)
  (Q : Outcome A -> World -> Prop) :
  c w = (o, w') -> Q o w' -> ensures c w Q.
Proof. intros Hrun HQ o' w'' Hrun'. rewrite Hrun in Hrun'. now injection Hrun' as <- <-. Qed.

Lemma ensures_keeps {A} (c : M A) (w : World)
  (Q : Outcome A -> World -> Prop) :
  preserves currentConversation c ->
  (forall (o : Outcome A) (w' : World),
      currentConversation w' = currentConversation w -> Q o w') ->
  ensures c w Q.
Proof. intros Hc HQ o w' Hrun. apply HQ. exact (Hc _ _ _ Hrun). Qed.

(** The context gathering of [sendMessage] never throws and leaves the
    role and the content of the user message, and the conversation, as they
    are. *)
Lemma gatherContext_run (userMessage : ChatMessage) (w : World) :
  exists (gathered : ChatMessage) (w' : World),
    (if ChatManager.enableContextGathering config then
       tryCatch
         (currentContext <- call (getCurrentContext env) ;;
          ret (ChatManager.withContext userMessage
                 (Some (ChatManager.mergeContext currentContext
                          (context userMessage)))))
         (fun _ => ret userMessage)
     else ret userMessage) w
    = (Returned gathered, w')
    /\ role gathered = role userMessage
    /\ content gathered = content userMessage
    /\ currentConversation w' = currentConversation w.
Proof.
  destruct (ChatManager.enableContextGathering config).
  - unfold tryCatch, bind, call, ret.
    destruct (getCurrentContext env (clock w));
      eexists; eexists; (split; [reflexivity|]); repeat split.
  - eexists. eexists. split; [reflexivity|]. repeat split.
Qed.

(** The [try] block of [sendMessage] on a conversation. *)
Lemma sendMessageTry_stores (text : string) (ctx : option ChatContext)
  (w : World) (c : ConversationState) :
  currentConversation w = Some c ->
  1 <= ChatManager.maxHistoryLength config ->
  ensures (ChatManager.sendMessageTry env config text ctx) w
    (fun o w' =>
       match o with
       | Returned resp =>
           exchangeStored text (ChatManager.maxHistoryLength config)
             (messages c) resp (historyOf w')
       | Threw e =>
           partialExchange text (ChatManager.maxHistoryLength config)
             (messages c)
             (ChatManager.messageOr "Unknown error occurred" e)
             (historyOf w')
       end).
Proof.
  intros Hconv Hlimit. unfold ChatManager.sendMessageTry.
  (* the validation *)
  apply ensures_bind.
  apply ensures_keeps;
    [apply (preserves_validation env config); intros; reflexivity|].
  intros [checked|e] w1 Hc1;
    [|left; unfold historyOf; now rewrite Hc1, Hconv].
  destruct (negb (isValid checked)).
  { destruct (createErrorResponse_run env
                ("Message blocked: " ++ Js.join ", " (errors checked))
                validation w1) as (resp & Hrun & _ & _ & Herror & _).
    eapply ensures_run; [exact Hrun|].
    unfold exchangeStored. rewrite Herror. left.
    unfold historyOf. cbn [currentConversation tick]. now rewrite Hc1, Hconv. }
  (* the user message *)
  apply ensures_bind. eapply ensures_run; [reflexivity|]. cbv beta iota zeta.
  match goal with
  | |- context [fun _ : Thrown => ret ?created] =>
      set (userMessage := created)
  end.
  assert (Huser : isUserTurn text userMessage)
    by (subst userMessage; destruct ctx; split; reflexivity).
  clearbody userMessage.
  apply ensures_bind.
  destruct (gatherContext_run userMessage (tick (tick (tick w1))))
    as (gathered & w2 & Hgather & Hrole & Hcontent & Hc2).
  eapply ensures_run; [exact Hgather|].
  assert (Hturn : isUserTurn text gathered)
    by (destruct Huser; split; congruence).
  cbn [currentConversation tick] in Hc2. rewrite Hc1, Hconv in Hc2.
  (* the user message is stored *)
  apply ensures_bind.
  destruct (stateAddMessage_run env gathered w2 c Hc2)
    as (w3 & Hadd & Hc3 & _).
  eapply ensures_run; [exact Hadd|].
  (* the generation *)
  apply ensures_bind.
  apply ensures_keeps; [apply keeps_generateResponseWithRetry|].
  intros [assistantMessage|e] w4 Hc4;
    [|right; left; exists gathered; split; [exact Hturn|];
      unfold historyOf; now rewrite Hc4, Hc3].
  rewrite Hc3 in Hc4.
  (* the reply is stored *)
  apply ensures_bind.
  destruct (stateAddMessage_run env assistantMessage w4 _ Hc4)
    as (w5 & Hadd' & Hc5 & _).
  eapply ensures_run; [exact Hadd'|].
  cbn [messages] in Hc5. rewrite <- app_assoc in Hc5. cbn [List.app] in Hc5.
  (* the trimming *)
  apply ensures_bind.
  pose proof (trimConversationHistory_run env
                (ChatManager.maxHistoryLength config) w5 _ Hc5) as Htrim.
  cbn [messages totalTokens] in Htrim.
  destruct (Z.leb_spec
              (Z.of_nat (List.length (messages c ++ [gathered; assistantMessage])))
              (ChatManager.maxHistoryLength config)) as [Hshort|Hlong].
  - eapply ensures_run; [exact Htrim|].
    eapply ensures_run; [reflexivity|].
    unfold exchangeStored. cbn [error responseMessage].
    exists gathered. split; [exact Hturn|].
    unfold historyOf. rewrite Hc5. cbn [messages].
    symmetry. apply lastMessages_all. lia.
  - eapply ensures_run; [exact Htrim|].
    rewrite (arraySliceFrom_last _ _ Hlimit).
    destruct (storageSave env (S (clock w5))).
    + eapply ensures_run; [reflexivity|].
      unfold exchangeStored. cbn [error responseMessage].
      exists gathered. split; [exact Hturn|]. reflexivity.
    + right. right. exists gathered, assistantMessage.
      split; [exact Hturn|]. split; reflexivity.
Qed.

(** What an exchange leaves in the history of a manager at rest, for a
    limit of at least one message.  A response without error means that
    the history is the old one followed by a user message with the text
    sent and by the very message returned, cut to its last
    [maxHistoryLength] messages.  A response with an error means that
    nothing was stored, or that the user message was stored without a
    reply, or that both were stored and the save of the trimmed history
    failed. *)
Theorem sendMessage_stores_the_exchange :
  forall (text : string) (ctx : option ChatContext) (w : World)
         (c : ConversationState),
    isProcessing w = false ->
    currentConversation w = Some c ->
    1 <= ChatManager.maxHistoryLength config ->
    exists (resp : ChatResponse) (w' : World),
      ChatManager.sendMessage env config text ctx w = (Returned resp, w')
      /\ exchangeStored text (ChatManager.maxHistoryLength config)
           (messages c) resp (historyOf w').
Proof.
  intros text ctx w c Hidle Hconv Hlimit.
  unfold ChatManager.sendMessage, bind at 1, gets. rewrite Hidle.
  unfold bind at 1, modify at 1, tryFinally, tryCatch.
  destruct (ChatManager.sendMessageTry env config text ctx
              (setProcessing true w)) as [[resp|e] w1] eqn:Htry;
    pose proof (sendMessageTry_stores text ctx (setProcessing true w) c
                  Hconv Hlimit _ _ Htry) as Hstored;
    cbv beta iota in Hstored.
  - eexists. eexists. split; [reflexivity|]. exact Hstored.
  - destruct (createErrorResponse_run env
                (ChatManager.messageOr "Unknown error occurred" e)
                system w1) as (resp & Hrun & _ & _ & Herror & _).
    rewrite Hrun. eexists. eexists. split; [reflexivity|].
    unfold exchangeStored. rewrite Herror. exact Hstored.
Qed.

End Exchange.

Lemma sendMessage_stores_the_exchange_witness :
  exists (resp : ChatResponse) (w' : World),
    ChatManager.sendMessage greetingEnv ChatManager.defaultConfig
      "Hello, how are you?" None idleWorld
    = (Returned resp, w')
    /\ exchangeStored "Hello, how are you?" 50 [] resp (historyOf w').
Proof.
  refine (sendMessage_stores_the_exchange greetingEnv ChatManager.defaultConfig
            "Hello, how are you?" None idleWorld emptyConversation
            eq_refl eq_refl _).
  cbn. discriminate.
Defined.

(** ** A generation that succeeds *)

Section PipelineSuccess.

Variable env : Env.
Variable config : ChatManager.ChatManagerConfig.

(** When the token optimisation, the filter and the token estimate answer,
    and the generation call completes, the first attempt of
    [generateResponseWithRetry] returns: the reply is an assistant message
    without context whose content is the fragments of that call joined
    without separator, passed through the filter when it is switched on;
    its metadata hold the estimate of that content and the model name; one
    generation call has been made, nothing has been awaited and the
    conversation is as it was. *)
Theorem generateResponseWithRetry_returns_the_joined_fragments :
  forall (fragmentsAt : nat -> list string) (sanitize : string -> string)
         (estimate : string -> Z) (userMessage : ChatMessage),
    (forall (prompt ctx : string) (history : list ChatMessage) (time : nat),
        exists o : LLMService.Optimized,
          optimizeForTokenLimits env prompt ctx history time = Returned o) ->
    (forall (k : nat) (prompt ctx : string),
        generateResponse env k prompt ctx = (fragmentsAt k, None)) ->
    (forall (text : string) (time : nat),
        sanitizeResponse env text time = Returned (sanitize text)) ->
    (forall (text : string) (time : nat),
        estimateTokens env text time = Returned (estimate text)) ->
    1 <= ChatManager.retryAttempts config ->
    forall w : World,
      let joined := Js.join "" (fragmentsAt (llmCalls w)) in
      let reply :=
        if ChatManager.enableSafetyFilter config then sanitize joined
        else joined in
      exists (assistantMessage : ChatMessage) (w' : World) (elapsed : Z),
        ChatManager.generateResponseWithRetry env config userMessage w
        = (Returned assistantMessage, w')
        /\ role assistantMessage = assistant
        /\ content assistantMessage = reply
        /\ context assistantMessage = None
        /\ metadata assistantMessage
           = Some {| tokenCount := Some (estimate reply);
                     processingTime := Some elapsed;
                     model := Some "llm-service";
                     truncated := None |}
        /\ llmCalls w' = S (llmCalls w)
        /\ sleeps w' = sleeps w
        /\ currentConversation w' = currentConversation w.
Proof.
  intros fragmentsAt sanitize estimate userMessage Hopt Hgen Hsan Hest Hpos w
    joined reply.
  unfold ChatManager.generateResponseWithRetry, ChatManager.withRetry.
  replace (Z.to_nat (ChatManager.retryAttempts config))
    with (S (Z.to_nat (ChatManager.retryAttempts config) - 1)) by lia.
  enough (Hrun : exists (assistantMessage : ChatMessage) (w' : World)
                        (elapsed : Z),
             ChatManager.generateResponse env config userMessage w
             = (Returned assistantMessage, w')
             /\ role assistantMessage = assistant
             /\ content assistantMessage = reply
             /\ context assistantMessage = None
             /\ metadata assistantMessage
                = Some {| tokenCount := Some (estimate reply);
                          processingTime := Some elapsed;
                          model := Some "llm-service";
                          truncated := None |}
             /\ llmCalls w' = S (llmCalls w)
             /\ sleeps w' = sleeps w
             /\ currentConversation w' = currentConversation w).
  { destruct Hrun as (a & w' & elapsed & Hrun & Hrest).
    exists a, w', elapsed. split; [|exact Hrest].
    now apply retryFrom_success. }
  unfold ChatManager.generateResponse.
  destruct (buildContextString_run env userMessage w)
    as (contextString & w1 & Hbuild & _ & Hconv1 & Hsleeps1 & Hcalls1).
  rewrite (bind_returned _ _ _ _ _ Hbuild).
  erewrite bind_returned by reflexivity.
  match goal with
  | |- context [call (optimizeForTokenLimits env ?p ?c ?h)] =>
      destruct (Hopt p c h (clock w1)) as [o Ho]
  end.
  erewrite bind_returned by (unfold call; rewrite Ho; reflexivity).
  erewrite bind_returned by reflexivity.
  erewrite bind_returned.
  2:{ unfold tryCatch, ChatManager.collectChunks. rewrite Hgen. reflexivity. }
  erewrite bind_returned by reflexivity.
  cbn [llmCalls tick]. rewrite Hcalls1. fold joined.
  subst reply. destruct (ChatManager.enableSafetyFilter config).
  - erewrite bind_returned by (unfold call; rewrite Hsan; reflexivity).
    erewrite bind_returned by reflexivity.
    erewrite bind_returned by (unfold call; rewrite Hest; reflexivity).
    eexists. eexists. eexists. split; [reflexivity|].
    cbn [role content context metadata llmCalls sleeps currentConversation
         tick countLlmCall].
    repeat split; congruence.
  - erewrite bind_returned by reflexivity.
    erewrite bind_returned by reflexivity.
    erewrite bind_returned by (unfold call; rewrite Hest; reflexivity).
    eexists. eexists. eexists. split; [reflexivity|].
    cbn [role content context metadata llmCalls sleeps currentConversation
         tick countLlmCall].
    repeat split; congruence.
Qed.

End PipelineSuccess.

Lemma generateResponseWithRetry_returns_the_joined_fragments_witness :
  exists (assistantMessage : ChatMessage) (w' : World),
    ChatManager.generateResponseWithRetry greetingEnv ChatManager.defaultConfig
      (sampleMessage "u1" user "Hello, how are you?") idleWorld
    = (Returned assistantMessage, w')
    /\ content assistantMessage = "Hello world!"
    /\ llmCalls w' = 1%nat
    /\ sleeps w' = [].
Proof.
  destruct (generateResponseWithRetry_returns_the_joined_fragments
              greetingEnv ChatManager.defaultConfig
              (fun _ => ["Hello "; "world!"]) (fun text => text)
              TokenManager.estimateTokens
              (sampleMessage "u1" user "Hello, how are you?")
              (fun prompt ctx history time => ex_intro _ _ eq_refl)
              (fun k prompt ctx => eq_refl)
              (fun text time => eq_refl)
              (fun text time => eq_refl)
              ltac:(cbn; discriminate) idleWorld)
    as (a & w' & elapsed & Hrun & _ & Hcontent & _ & _ & Hcalls & Hsleeps & _).
  exists a, w'. repeat split; assumption.
Defined.

(** ** The context string *)

Section ContextString.

Variable env : Env.

(** [buildContextString] never throws, whatever the spec context provider
    does, and the string it returns always opens with the two system
    lines.  With nothing to add (a message without context, a provider
    that throws or answers a blank text, and no message in the history
    before the current one) the string is those two lines and nothing
    else. *)
Theorem buildContextString_opens_with_the_system_lines :
  forall (userMessage : ChatMessage) (w : World),
    exists (rest : string) (w' : World),
      ChatManager.buildContextString env userMessage w
      = (Returned (systemLines ++ rest), w')
      /\ currentConversation w' = currentConversation w
      /\ (context userMessage = None ->
          noUse (getRelevantContext env (content userMessage) (clock w)) ->
          (List.length (historyOf w) <= 1)%nat ->
          rest = "").
Proof.
  intros userMessage w.
  assert (Hbare : (List.length (historyOf w) <= 1)%nat ->
                  Js.arraySliceFrom (Js.arrayInit (historyOf w)) (Z.opp 5) = []).
  { destruct (historyOf w) as [|m [|m' l]]; cbn [List.length]; try lia;
      intros _; reflexivity. }
  unfold ChatManager.buildContextString, ChatManager.getRecentHistory,
    ConversationStateManager.getMessages.
  unfold bind, tryCatch, call, gets, ret.
  destruct (getRelevantContext env (content userMessage) (clock w))
    as [text|thrown] eqn:Hrelevant;
    [destruct (Js.trimNonEmpty text) eqn:Htext|];
    cbv beta iota;
    change (currentConversation (tick w)) with (currentConversation w);
    fold (historyOf w);
    revert Hbare;
    generalize (Js.arraySliceFrom (Js.arrayInit (historyOf w)) (Z.opp 5));
    intros recent Hbare;
    (destruct (context userMessage) as [ctx|];
     [destruct (ChatManager.truthyString (activeFile ctx)),
        (ChatManager.truthyString (selectedText ctx)), (gitStatus ctx)|]);
    destruct recent;
    eexists; eexists; (split; [reflexivity|]); (split; [reflexivity|]);
    intros Hctx Huse Hshort; try discriminate;
    cbn [noUse] in Huse; try congruence; try reflexivity;
    specialize (Hbare Hshort); discriminate.
Qed.

End ContextString.

(** ** The pipeline never throws, and reports every failure *)

Section Reporting.

Variable env : Env.
Variable config : ChatManager.ChatManagerConfig.

Lemma stagesReported_weaken
  (failed failed' : Thrown -> Prop)
  (blocked blocked' : ValidationResult -> Prop)
  (answered answered' : ChatMessage -> Prop) (text : string) (w : World) :
  (forall e : Thrown, failed e -> failed' e) ->
  (forall checked : ValidationResult, blocked checked -> blocked' checked) ->
  (forall a : ChatMessage, answered a -> answered' a) ->
  stagesReported env config failed blocked answered text w ->
  stagesReported env config failed' blocked' answered' text w.
Proof.
  unfold stagesReported. intros Hfailed Hblocked Hanswered [Hcheck Hstages].
  split.
  - intros Hon. specialize (Hcheck Hon).
    destruct (validateRequest env text (clock w)); auto.
  - intros Haccepts.
    destruct (Hstages Haccepts) as (u & wB & Hturn & Hconv & Hadd & Hnext).
    exists u, wB. split; [exact Hturn|]. split; [exact Hconv|].
    split; [eauto|]. intros wC HC.
    destruct (Hnext wC HC) as [Hgen Hnext'].
    split; [eauto|]. intros a wD HD.
    destruct (Hnext' a wD HD) as [Hadd' Hnext''].
    split; [eauto|]. intros wE HE.
    destruct (Hnext'' wE HE) as [Htrim Hdone].
    split; eauto.
Qed.

(** The block from the creation of the user message on, past a
    validation that accepted the request. *)
Lemma sendMessageTry_accepted (text : string) (ctx : option ChatContext)
  (w wA w' : World) (checked : ValidationResult) (o : Outcome ChatResponse) :
  (if ChatManager.enableSafetyFilter config
   then call (validateRequest env text)
   else ret {| isValid := true; errors := []; warnings := [] |}) w
  = (Returned checked, wA) ->
  isValid checked = true ->
  currentConversation wA = currentConversation w ->
  ChatManager.sendMessageTry env config text ctx w = (o, w') ->
  exists (u : ChatMessage) (wB : World),
    isUserTurn text u
    /\ currentConversation wB = currentConversation w
    /\ (forall (e : Thrown) (wC : World),
           ChatManager.stateAddMessage env u wB = (Threw e, wC) ->
           o = Threw e)
    /\ (forall wC : World,
           ChatManager.stateAddMessage env u wB = (Returned tt, wC) ->
           (forall (e : Thrown) (wD : World),
               ChatManager.generateResponseWithRetry env config u wC
               = (Threw e, wD) ->
               o = Threw e)
           /\ (forall (a : ChatMessage) (wD : World),
                  ChatManager.generateResponseWithRetry env config u wC
                  = (Returned a, wD) ->
                  (forall (e : Thrown) (wE : World),
                      ChatManager.stateAddMessage env a wD = (Threw e, wE) ->
                      o = Threw e)
                  /\ (forall wE : World,
                         ChatManager.stateAddMessage env a wD
                         = (Returned tt, wE) ->
                         (forall (e : Thrown) (wF : World),
                             ChatManager.stateTrimConversationHistory
                               env config wE = (Threw e, wF) ->
                             o = Threw e)
                         /\ (forall wF : World,
                                ChatManager.stateTrimConversationHistory
                                  env config wE = (Returned tt, wF) ->
                                exists r : ChatResponse,
                                  o = Returned r
                                  /\ error r = None
                                  /\ responseMessage r = a)))).
Proof.
  intros Hcheck Hvalid HconvA Hrun.
  unfold ChatManager.sendMessageTry in Hrun.
  rewrite (bind_returned _ _ _ _ _ Hcheck) in Hrun.
  rewrite Hvalid in Hrun. cbn [negb] in Hrun.
  erewrite bind_returned in Hrun by reflexivity.
  cbv beta iota zeta in Hrun.
  match type of Hrun with
  | context [fun _ : Thrown => ret ?created] =>
      set (userMessage := created) in Hrun
  end.
  assert (Huser : isUserTurn text userMessage)
    by (subst userMessage; destruct ctx; split; reflexivity).
  clearbody userMessage.
  destruct (gatherContext_run env config userMessage (tick (tick (tick wA))))
    as (u & wB & Hgather & Hrole & Hcontent & HconvB).
  rewrite (bind_returned _ _ _ _ _ Hgather) in Hrun.
  exists u, wB.
  split; [destruct Huser; split; congruence|].
  split; [rewrite HconvB; exact HconvA|].
  (* the append of the user message *)
  destruct (ChatManager.stateAddMessage env u wB) as [[[]|eC] wC] eqn:HC;
    [rewrite (bind_returned _ _ _ _ _ HC) in Hrun
    |rewrite (bind_threw _ _ _ _ _ HC) in Hrun; injection Hrun as <- <-;
     split; [intros e wC' [= <- _]; reflexivity|intros; discriminate]].
  split; [intros; discriminate|]. intros wC' [= <-].
  (* the generation *)
  destruct (ChatManager.generateResponseWithRetry env config u wC)
    as [[a|eD] wD] eqn:HD;
    [rewrite (bind_returned _ _ _ _ _ HD) in Hrun
    |rewrite (bind_threw _ _ _ _ _ HD) in Hrun; injection Hrun as <- <-;
     split; [intros e wD' [= <- _]; reflexivity|intros; discriminate]].
  split; [intros; discriminate|]. intros a' wD' [= <- <-].
  (* the append of the reply *)
  destruct (ChatManager.stateAddMessage env a wD) as [[[]|eE] wE] eqn:HE;
    [rewrite (bind_returned _ _ _ _ _ HE) in Hrun
    |rewrite (bind_threw _ _ _ _ _ HE) in Hrun; injection Hrun as <- <-;
     split; [intros e wE' [= <- _]; reflexivity|intros; discriminate]].
  split; [intros; discriminate|]. intros wE' [= <-].
  (* the trimming *)
  destruct (ChatManager.stateTrimConversationHistory env config wE)
    as [[[]|eF] wF] eqn:HF;
    [rewrite (bind_returned _ _ _ _ _ HF) in Hrun
    |rewrite (bind_threw _ _ _ _ _ HF) in Hrun; injection Hrun as <- <-;
     split; [intros e wF' [= <- _]; reflexivity|intros; discriminate]].
  unfold ret in Hrun. injection Hrun as <- <-.
  split; [intros; discriminate|]. intros wF' _.
  eexists. split; [reflexivity|]. split; reflexivity.
Qed.

(** Every end of the [try] block is the one its stages decide. *)
Lemma sendMessageTry_stages (text : string) (ctx : option ChatContext)
  (w w' : World) (o : Outcome ChatResponse) :
  ChatManager.sendMessageTry env config text ctx w = (o, w') ->
  stagesReported env config
    (fun e => o = Threw e)
    (fun checked =>
       exists r : ChatResponse,
         o = Returned r /\ error r = blockedError checked)
    (fun a =>
       exists r : ChatResponse,
         o = Returned r /\ error r = None /\ responseMessage r = a)
    text w.
Proof.
  intros Hrun. unfold stagesReported, accepts.
  pose proof (fun checked wA => sendMessageTry_accepted text ctx w wA w'
                                  checked o) as Haccepted.
  destruct (ChatManager.enableSafetyFilter config) eqn:Hfilter.
  - destruct (validateRequest env text (clock w)) as [checked|e] eqn:Hcheck.
    + destruct (isValid checked) eqn:Hvalid.
      * split; [intros _ Hinvalid; discriminate|]. intros _.
        apply (Haccepted checked (tick w)); try assumption; try reflexivity.
        unfold call. now rewrite Hcheck.
      * unfold ChatManager.sendMessageTry in Hrun. rewrite Hfilter in Hrun.
        rewrite (bind_returned _ _ w (tick w) checked) in Hrun
          by (unfold call; rewrite Hcheck; reflexivity).
        rewrite Hvalid in Hrun. cbn [negb] in Hrun.
        destruct (createErrorResponse_run env
                    ("Message blocked: " ++ Js.join ", " (errors checked))
                    validation (tick w))
          as (resp & Hresp & _ & _ & Herror & _).
        rewrite Hresp in Hrun. injection Hrun as <- <-.
        split; [intros _ _; exists resp; split; [reflexivity|exact Herror]|].
        intros [Hoff|(checked' & Hchecked' & Hvalid')]; [discriminate|].
        injection Hchecked' as <-. congruence.
    + unfold ChatManager.sendMessageTry in Hrun. rewrite Hfilter in Hrun.
      rewrite (bind_threw _ _ w (tick w) e) in Hrun
        by (unfold call; rewrite Hcheck; reflexivity).
      injection Hrun as <- <-.
      split; [intros _; reflexivity|].
      intros [Hoff|(checked' & Hchecked' & _)]; discriminate.
  - split; [intros Hon; discriminate|]. intros _.
    apply (Haccepted {| isValid := true; errors := []; warnings := [] |} w);
      try assumption; reflexivity.
Qed.

(** C2.  Whatever the collaborators answer or throw, and whatever the state
    of the manager, [sendMessage] returns a response and throws nothing.
    The response holds an assistant message.  When it carries an error,
    the error is of type [validation] or [system], and the message is the
    apology for it; when it carries none, it carries the suggestions and
    actions drawn from the message.  A call that found the flag clear
    leaves it clear.

    Every failure is reported, and nothing else is.  For a call that found
    the flag clear: a [try] block that throws gives the system error with
    the message of what was thrown, and one that returns gives the response
    it returned.  With the filter on, a validator that throws gives the
    system error with its message, and one that rejects gives the
    validation error that lists its errors.  Past the validation, whatever
    the context gathering does, the first stage that throws among the
    append of the user message, the generation with all its retries, the
    append of the reply and the trimming gives the system error with the
    message of what that stage threw; the response carries no error only
    when all four return, and its message is then the reply generated.  In
    particular, without a conversation the append throws and the response
    carries the system error of the state manager. *)
Theorem sendMessage_always_returns_a_response :
  forall (text : string) (ctx : option ChatContext) (w : World),
    exists (resp : ChatResponse) (w' : World),
      ChatManager.sendMessage env config text ctx w = (Returned resp, w')
      /\ role (responseMessage resp) = assistant
      /\ match error resp with
         | Some e =>
             content (responseMessage resp)
             = "I apologize, but I encountered an error: " ++ message e
             /\ (type e = validation \/ type e = system)
             /\ suggestions resp = None
             /\ actions resp = None
         | None =>
             suggestions resp
             = Some (ChatManager.generateSuggestions (responseMessage resp))
             /\ actions resp
                = Some (ChatManager.extractActions (responseMessage resp))
         end
      /\ (isProcessing w = false -> isProcessing w' = false)
      /\ (isProcessing w = false ->
          (forall (e : Thrown) (w1 : World),
              ChatManager.sendMessageTry env config text ctx
                (setProcessing true w) = (Threw e, w1) ->
              error resp = systemError e)
          /\ (forall (r : ChatResponse) (w1 : World),
                 ChatManager.sendMessageTry env config text ctx
                   (setProcessing true w) = (Returned r, w1) ->
                 resp = r)
          /\ stagesReported env config
               (fun e => error resp = systemError e)
               (fun checked => error resp = blockedError checked)
               (fun a => error resp = None /\ responseMessage resp = a)
               text (setProcessing true w)
          /\ (accepts env config text w ->
              currentConversation w = None ->
              error resp
              = Some {| type := system;
                        message := "No active conversation";
                        errorCode := None;
                        retryable := true |})).
Proof.
  intros text ctx w.
  assert (Hshape : forall resp : ChatResponse,
             wellFormed resp ->
             role (responseMessage resp) = assistant
             /\ match error resp with
                | Some e =>
                    content (responseMessage resp)
                    = "I apologize, but I encountered an error: " ++ message e
                    /\ (type e = validation \/ type e = system)
                    /\ suggestions resp = None
                    /\ actions resp = None
                | None =>
                    suggestions resp
                    = Some (ChatManager.generateSuggestions
                              (responseMessage resp))
                    /\ actions resp
                       = Some (ChatManager.extractActions
                                 (responseMessage resp))
                end).
  { intros resp [Hrole Hrest]. split; [exact Hrole|].
    destruct (error resp); [|exact Hrest]. tauto. }
  assert (Hmissing : forall (resp : ChatResponse),
             stagesReported env config
               (fun e => error resp = systemError e)
               (fun checked => error resp = blockedError checked)
               (fun a => error resp = None /\ responseMessage resp = a)
               text (setProcessing true w) ->
             accepts env config text w ->
             currentConversation w = None ->
             error resp
             = Some {| type := system;
                       message := "No active conversation";
                       errorCode := None;
                       retryable := true |}).
  { intros resp [_ Hstages] Haccepts Hnone.
    destruct (Hstages Haccepts) as (u & wB & _ & Hconv & Hadd & _).
    cbn [currentConversation setProcessing] in Hconv. rewrite Hnone in Hconv.
    apply (Hadd (newError "No active conversation") wB).
    unfold ChatManager.stateAddMessage, ConversationStateManager.addMessage,
      bind, gets, throw.
    now rewrite Hconv. }
  unfold ChatManager.sendMessage, bind, gets.
  destruct (isProcessing w) eqn:Hbusy.
  - destruct (ChatManager.createErrorResponse env
                "Another message is currently being processed" system w)
      as [[resp|e] w'] eqn:Hrun; [|discriminate].
    exists resp, w'. split; [reflexivity|].
    pose proof (createErrorResponse_yields env _ system (or_intror eq_refl)
                  _ _ _ Hrun) as Hwf.
    destruct (Hshape resp Hwf) as [Hrole Hrest].
    split; [exact Hrole|]. split; [exact Hrest|].
    split; discriminate.
  - unfold modify at 1. cbv beta iota.
    unfold tryFinally, tryCatch, modify.
    destruct (ChatManager.sendMessageTry env config text ctx
                (setProcessing true w)) as [[resp|e] w1] eqn:Hrun;
      pose proof (sendMessageTry_stages _ _ _ _ _ Hrun) as Hstages.
    + exists resp, (setProcessing false w1). split; [reflexivity|].
      destruct (Hshape resp (sendMessageTry_yields env config _ _ _ _ _ Hrun))
        as [Hrole Hrest].
      split; [exact Hrole|]. split; [exact Hrest|].
      split; [reflexivity|]. intros _.
      assert (Hreported :
                stagesReported env config
                  (fun e => error resp = systemError e)
                  (fun checked => error resp = blockedError checked)
                  (fun a => error resp = None /\ responseMessage resp = a)
                  text (setProcessing true w)).
      { revert Hstages. apply stagesReported_weaken.
        - intros e He. discriminate.
        - intros checked (r & [= <-] & Herror). exact Herror.
        - intros a (r & [= <-] & Hnone & Hmessage). now split. }
      split; [intros e w2; discriminate|].
      split; [intros r w2 [= <- _]; reflexivity|].
      split; [exact Hreported|]. now apply Hmissing.
    + destruct (createErrorResponse_run env
                  (ChatManager.messageOr "Unknown error occurred" e)
                  system w1) as (resp & Hcatch & _ & _ & Herror & _).
      rewrite Hcatch.
      exists resp, (setProcessing false (tick (tick (tick w1)))).
      split; [reflexivity|].
      pose proof (createErrorResponse_yields env _ system (or_intror eq_refl)
                    _ _ _ Hcatch) as Hwf.
      destruct (Hshape resp Hwf) as [Hrole Hrest].
      split; [exact Hrole|]. split; [exact Hrest|].
      split; [reflexivity|]. intros _.
      assert (Hreported :
                stagesReported env config
                  (fun e => error resp = systemError e)
                  (fun checked => error resp = blockedError checked)
                  (fun a => error resp = None /\ responseMessage resp = a)
                  text (setProcessing true w)).
      { revert Hstages. apply stagesReported_weaken.
        - intros e' [= <-]. exact Herror.
        - intros checked (r & Habsurd & _). discriminate.
        - intros a (r & Habsurd & _). discriminate. }
      split; [intros e' w2 [= <- _]; exact Herror|].
      split; [intros r w2; discriminate|].
      split; [exact Hreported|]. now apply Hmissing.
Qed.

End Reporting.

Lemma sendMessage_always_returns_a_response_witness :
  (exists (resp : ChatResponse) (w' : World),
      ChatManager.sendMessage (scriptedEnv alwaysFail) ChatManager.defaultConfig
        "Test message" None idleWorld
      = (Returned resp, w')
      /\ error resp
         = Some {| type := system;
                   message := "LLM generation failed: Persistent error";
                   errorCode := None;
                   retryable := true |})
  /\ (exists (resp : ChatResponse) (w' : World),
         ChatManager.sendMessage rejectingEnv ChatManager.defaultConfig
           "Delete everything" None idleWorld
         = (Returned resp, w')
         /\ error resp
            = Some {| type := validation;
                      message := "Message blocked: Dangerous content detected";
                      errorCode := None;
                      retryable := false |}).
Proof.
  split.
  - destruct (sendMessage_always_returns_a_response
                (scriptedEnv alwaysFail) ChatManager.defaultConfig
                "Test message" None idleWorld)
      as (resp & w' & Hrun & _ & _ & _ & Hlinks).
    destruct (Hlinks eq_refl) as (Hthrown & _).
    exists resp, w'. split; [exact Hrun|].
    eapply (Hthrown (newError "LLM generation failed: Persistent error")).
    vm_compute. reflexivity.
  - destruct (sendMessage_always_returns_a_response
                rejectingEnv ChatManager.defaultConfig
                "Delete everything" None idleWorld)
      as (resp & w' & Hrun & _ & _ & _ & Hlinks).
    destruct (Hlinks eq_refl) as (_ & _ & (Hvalidator & _) & _).
    exists resp, w'. split; [exact Hrun|].
    exact (Hvalidator eq_refl eq_refl).
Defined.
